(** * Session analytics pipeline of [enhanced_insights.py]

    A shallow embedding of the parts of the pipeline that the testable
    properties of the specification talk about: JSON recovery from free
    text, the facet cache, the chunker, the per-session metric extractor,
    facet extraction and the batch loop of [main].

    Conventions.
    - A Python [str] is a list of Unicode code points ([list N]).
    - A Python exception that a function lets escape is the [Raised]
      outcome of [result]; an exception a function catches itself is
      turned into the value the handler returns.
    - The text-generation collaborator and the file system are explicit
      arguments: the collaborator is a function from the request to its
      outcome, the facet cache a finite map from session id to the text of
      the entry. *)

From Stdlib Require Import ZArith NArith List String Ascii Lia Bool.
From Stdlib Require Import DecimalString.
From Stdlib Require DecimalFacts DecimalPos.
From stdpp Require Import base option list gmap.

Open Scope Z_scope.
Open Scope list_scope.

(** ** Python strings *)

Abbreviation pystr := (list N).

(** [py] turns a literal into a Python string.  The backquote stands for
    the double quote (code point 34), which the literals below would
    otherwise have to escape. *)
Fixpoint py (s : string) : pystr :=
  match s with
  | EmptyString => []
  | String a s' =>
      (if Ascii.eqb a "`"%char then 34%N else N_of_ascii a) :: py s'
  end.

Definition pystr_eqb (a b : pystr) : bool := bool_decide (a = b).

(** [pat in s] on strings: some suffix of [s] starts with [pat]. *)
Fixpoint starts_with (pat s : pystr) : bool :=
  match pat, s with
  | [], _ => true
  | _ :: _, [] => false
  | p :: pat', c :: s' => (p =? c)%N && starts_with pat' s'
  end.

Fixpoint contains (pat s : pystr) : bool :=
  starts_with pat s ||
  match s with
  | [] => false
  | _ :: s' => contains pat s'
  end.

(** [s.find(c)] for a one-character needle: [None] is Python's [-1]. *)
Fixpoint find_char (c : N) (s : pystr) : option nat :=
  match s with
  | [] => None
  | x :: s' => if (x =? c)%N then Some 0%nat else S <$> find_char c s'
  end.

(** ** JSON values, as [json.loads] builds them *)

(** A JSON object is a Python [dict]: insertion-ordered, keys unique.  A
    float is kept as the text it was read from ([float] itself is outside
    the embedding); the constants [NaN], [Infinity] and [-Infinity] are
    floats too. *)
#[warnings="-register-all"]
Inductive json : Type :=
| JNull
| JBool (b : bool)
| JInt (n : Z)
| JFloat (lexeme : pystr)
| JStr (s : pystr)
| JArr (items : list json)
| JObj (pairs : list (pystr * json)).

(** [d.get(k)] and [d[k] = v] on an insertion-ordered dict. *)
Fixpoint dict_get {V} (k : pystr) (d : list (pystr * V)) : option V :=
  match d with
  | [] => None
  | (k', v) :: d' => if pystr_eqb k' k then Some v else dict_get k d'
  end.

Fixpoint dict_set {V} (k : pystr) (v : V) (d : list (pystr * V))
  : list (pystr * V) :=
  match d with
  | [] => [(k, v)]
  | (k', v') :: d' =>
      if pystr_eqb k' k then (k', v) :: d' else (k', v') :: dict_set k v d'
  end.

(** [dict(pairs)]: later pairs overwrite earlier ones in place. *)
Definition dict_of_pairs {V} (pairs : list (pystr * V)) : list (pystr * V) :=
  fold_left (fun d kv => dict_set (fst kv) (snd kv) d) pairs [].

(** ** The decoder behind [extract_json_object]

    [json.JSONDecoder.raw_decode], [scanner.scan_once], [JSONObject],
    [JSONArray] and [scanstring] of the standard library.  The functions
    take the text from the current index on and return the value with the
    text after it; every [JSONDecodeError] is [None].

    The limits of the runtime are not part of these functions: the
    library refuses an integer literal of more than 4300 digits with a
    [ValueError] and nesting past the recursion limit with a
    [RecursionError], neither of which is a [JSONDecodeError].  On such a
    text the functions below return what the grammar gives; the
    statements that depend on it are about values and texts within
    these limits ([within_limits], [text_within_limits]). *)

Definition is_ws (c : N) : bool :=
  ((c =? 32) || (c =? 9) || (c =? 10) || (c =? 13))%N.

(** [WHITESPACE.match(s, end).end()] *)
Fixpoint skip_ws (s : pystr) : pystr :=
  match s with
  | c :: s' => if is_ws c then skip_ws s' else s
  | [] => []
  end.

Definition is_digit (c : N) : bool := ((48 <=? c) && (c <=? 57))%N.

Definition hex_val (c : N) : option N :=
  if is_digit c then Some (c - 48)%N
  else if ((97 <=? c) && (c <=? 102))%N then Some (c - 87)%N
  else if ((65 <=? c) && (c <=? 70))%N then Some (c - 55)%N
  else None.

(** [_decode_uXXXX]: four hexadecimal digits, as the C scanner reads them. *)
Definition decode_uXXXX (h1 h2 h3 h4 : N) : option N :=
  match hex_val h1, hex_val h2, hex_val h3, hex_val h4 with
  | Some a, Some b, Some c, Some d =>
      Some (((a * 16 + b) * 16 + c) * 16 + d)%N
  | _, _, _, _ => None
  end.

(** The [BACKSLASH] table. *)
Definition BACKSLASH (esc : N) : option N :=
  if (esc =? 34)%N then Some 34%N
  else if (esc =? 92)%N then Some 92%N
  else if (esc =? 47)%N then Some 47%N
  else if (esc =? 98)%N then Some 8%N
  else if (esc =? 102)%N then Some 12%N
  else if (esc =? 110)%N then Some 10%N
  else if (esc =? 114)%N then Some 13%N
  else if (esc =? 116)%N then Some 9%N
  else None.

Definition is_high_surrogate (u : N) : bool :=
  ((55296 <=? u) && (u <=? 56319))%N.
Definition is_low_surrogate (u : N) : bool :=
  ((56320 <=? u) && (u <=? 57343))%N.
Definition join_surrogates (u u2 : N) : N :=
  (65536 + N.lor (N.shiftl (u - 55296) 10) (u2 - 56320))%N.

(** [scanstring(s, end, strict=True)], entered after the opening quote;
    [acc] is the text decoded so far. *)
Fixpoint scanstring (acc : pystr) (s : pystr) : option (pystr * pystr) :=
  match s with
  | [] => None
  | c :: rest =>
      if (c =? 34)%N then Some (acc, rest)
      else if (c =? 92)%N then
        match rest with
        | [] => None
        | esc :: rest1 =>
            if (esc =? 117)%N then
              match rest1 with
              | h1 :: h2 :: h3 :: h4 :: rest2 =>
                  match decode_uXXXX h1 h2 h3 h4 with
                  | None => None
                  | Some uni =>
                      if is_high_surrogate uni then
                        match rest2 with
                        | b :: u :: rest3 =>
                            if ((b =? 92) && (u =? 117))%N then
                              match rest3 with
                              | g1 :: g2 :: g3 :: g4 :: rest4 =>
                                  match decode_uXXXX g1 g2 g3 g4 with
                                  | None => None
                                  | Some uni2 =>
                                      if is_low_surrogate uni2
                                      then scanstring
                                             (acc ++ [join_surrogates uni uni2])
                                             rest4
                                      else scanstring (acc ++ [uni]) rest2
                                  end
                              | _ => None
                              end
                            else scanstring (acc ++ [uni]) rest2
                        | _ => scanstring (acc ++ [uni]) rest2
                        end
                      else scanstring (acc ++ [uni]) rest2
                  end
              | _ => None
              end
            else
              match BACKSLASH esc with
              | None => None
              | Some ch => scanstring (acc ++ [ch]) rest1
              end
        end
      else if (c <? 32)%N then None
      else scanstring (acc ++ [c]) rest
  end.

(** The longest run of decimal digits at the head of [s]. *)
Fixpoint span_digits (s : pystr) : pystr * pystr :=
  match s with
  | c :: s' =>
      if is_digit c then let '(ds, r) := span_digits s' in (c :: ds, r)
      else ([], s)
  | [] => ([], [])
  end.

(** [int(text)] for a run of decimal digits. *)
Definition int_of_digits (ds : pystr) : Z :=
  fold_left (fun acc c => acc * 10 + (Z.of_N c - 48)) ds 0.

(** [NUMBER_RE]: an optional minus sign and an integer part (a single 0,
    or a non-zero digit and any digits), then optionally a fraction (a dot
    and one or more digits), then optionally an exponent (e or E, an
    optional sign, one or more digits).  Each part returns the matched
    text and what follows it. *)
Definition match_integer (s : pystr) : option (pystr * pystr) :=
  match s with
  | c :: s' =>
      if (c =? 48)%N then Some ([c], s')
      else if is_digit c then
        let '(ds, r) := span_digits s' in Some (c :: ds, r)
      else None
  | [] => None
  end.

Definition match_frac (s : pystr) : pystr * pystr :=
  match s with
  | c :: s' =>
      if (c =? 46)%N then
        match span_digits s' with
        | ([], _) => ([], s)
        | (ds, r) => (c :: ds, r)
        end
      else ([], s)
  | [] => ([], s)
  end.

Definition match_exp (s : pystr) : pystr * pystr :=
  match s with
  | e :: s' =>
      if ((e =? 101) || (e =? 69))%N then
        let '(sign, s'') :=
          match s' with
          | g :: t => if ((g =? 45) || (g =? 43))%N then ([g], t) else ([], s')
          | [] => ([], s')
          end in
        match span_digits s'' with
        | ([], _) => ([], s)
        | (ds, r) => (e :: sign ++ ds, r)
        end
      else ([], s)
  | [] => ([], s)
  end.

Definition match_number (s : pystr) : option (json * pystr) :=
  let '(sign, s0) :=
    match s with
    | c :: t => if (c =? 45)%N then ([c], t) else ([], s)
    | [] => ([], s)
    end in
  match match_integer s0 with
  | None => None
  | Some (int, s1) =>
      let '(frac, s2) := match_frac s1 in
      let '(exp, s3) := match_exp s2 in
      match frac, exp with
      | [], [] =>
          Some (JInt (match sign with
                      | [] => int_of_digits int
                      | _ => - int_of_digits int
                      end), s3)
      | _, _ => Some (JFloat (sign ++ int ++ frac ++ exp), s3)
      end
  end.

(** [string[idx:idx + len(lit)] == lit], returning the text after it. *)
Definition literal (lit : pystr) (s : pystr) : option pystr :=
  if starts_with lit s then Some (drop (length lit) s) else None.

(** A parser takes the text from the current index on and returns the
    value with the text after it. *)
Abbreviation parser A := (pystr -> option (A * pystr)).

(** The scalar cases of [_scan_once], tried in this order: [null],
    [true], [false], a number, [NaN], [Infinity], [-Infinity]. *)
Definition scan_scalar : parser json := fun s =>
  if starts_with (py "null") s then Some (JNull, drop 4 s)
  else if starts_with (py "true") s then Some (JBool true, drop 4 s)
  else if starts_with (py "false") s then Some (JBool false, drop 5 s)
  else
    match match_number s with
    | Some r => Some r
    | None =>
        if starts_with (py "NaN") s
        then Some (JFloat (py "NaN"), drop 3 s)
        else if starts_with (py "Infinity") s
        then Some (JFloat (py "Infinity"), drop 8 s)
        else if starts_with (py "-Infinity") s
        then Some (JFloat (py "-Infinity"), drop 9 s)
        else None
    end.

(** [_scan_once]: a string, an object ([JSONObject] up to its loop), an
    array ([JSONArray] up to its loop) or a scalar.  [members] and [items]
    are the two loops. *)
Definition scan_value (members : list (pystr * json) -> parser json)
    (items : list json -> parser json) : parser json := fun s =>
  match s with
  | [] => None
  | c :: rest =>
      if (c =? 34)%N then
        match scanstring [] rest with
        | Some (str, r) => Some (JStr str, r)
        | None => None
        end
      else if (c =? 123)%N then
        match skip_ws rest with
        | q :: r =>
            if (q =? 125)%N then Some (JObj [], r)
            else if (q =? 34)%N then members [] r
            else None
        | [] => None
        end
      else if (c =? 91)%N then
        match skip_ws rest with
        | q :: r =>
            if (q =? 93)%N then Some (JArr [], r)
            else items [] (q :: r)
        | [] => None
        end
      else scan_scalar s
  end.

(** One round of the [while True] loop of [JSONObject], entered after the
    opening quote of a key: the key, the colon, the value ([scan]), then
    the closing brace or a comma and the next round ([members]). *)
Definition members_step (scan : parser json)
    (members : list (pystr * json) -> parser json)
    (pairs : list (pystr * json)) : parser json := fun s =>
  match scanstring [] s with
  | None => None
  | Some (key, s1) =>
      match skip_ws s1 with
      | colon :: s2 =>
          if (colon =? 58)%N then
            match scan (skip_ws s2) with
            | None => None
            | Some (value, s3) =>
                let pairs' := pairs ++ [(key, value)] in
                match skip_ws s3 with
                | c :: s4 =>
                    if (c =? 125)%N
                    then Some (JObj (dict_of_pairs pairs'), s4)
                    else if (c =? 44)%N then
                      match skip_ws s4 with
                      | q :: s5 =>
                          if (q =? 34)%N then members pairs' s5 else None
                      | [] => None
                      end
                    else None
                | [] => None
                end
            end
          else None
      | [] => None
      end
  end.

(** One round of the loop of [JSONArray], entered at the first character
    of a value. *)
Definition items_step (scan : parser json) (items : list json -> parser json)
    (values : list json) : parser json := fun s =>
  match scan s with
  | None => None
  | Some (value, s1) =>
      let values' := values ++ [value] in
      match skip_ws s1 with
      | c :: s2 =>
          if (c =? 93)%N then Some (JArr values', s2)
          else if (c =? 44)%N then items values' (skip_ws s2)
          else None
      | [] => None
      end
  end.

(** [scan_once] with the two loops.  The fuel bounds the depth of the
    calls; every call is on a shorter text, so one more than the length
    of the text is enough ([raw_decode], and [raw_decode_complete]
    below). *)
Fixpoint scan_once (fuel : nat) : parser json :=
  match fuel with
  | O => fun _ => None
  | S fuel' => scan_value (object_members fuel') (array_items fuel')
  end
with object_members (fuel : nat) (pairs : list (pystr * json)) : parser json :=
  match fuel with
  | O => fun _ => None
  | S fuel' => members_step (scan_once fuel') (object_members fuel') pairs
  end
with array_items (fuel : nat) (values : list json) : parser json :=
  match fuel with
  | O => fun _ => None
  | S fuel' => items_step (scan_once fuel') (array_items fuel') values
  end.

(** [_json_decoder.raw_decode(text, idx)] *)
Definition raw_decode (text : pystr) (idx : nat) : option (json * pystr) :=
  scan_once (S (length text)) (drop idx text).

(** [extract_json_object]: one attempt, at the first opening brace of
    the text.  (Past the limits of the runtime the source lets the error
    of the decoder escape; see above.) *)
Definition extract_json_object (text : pystr) : option json :=
  match find_char 123 text with
  | None => None
  | Some idx =>
      match raw_decode text idx with
      | Some (obj, _) => Some obj
      | None => None
      end
  end.

(** [json.loads(text)], the reading half of the cache: the decoder's
    [decode] after the byte-order-mark check of [loads]. *)
Definition json_loads (text : pystr) : option json :=
  match text with
  | 65279%N :: _ => None
  | _ =>
      match scan_once (S (length text)) (skip_ws text) with
      | Some (obj, rest) =>
          match skip_ws rest with
          | [] => Some obj
          | _ :: _ => None
          end
      | None => None
      end
  end.

(** ** Truth values and comparisons of JSON values *)

(** [float(lexeme)] compared with zero.  Conversion rounds to the nearest
    binary64, ties to even, so a decimal [m * 10^e] becomes a non-zero
    float exactly when it exceeds [2^-1075], half the least subnormal. *)
Inductive float_class := FZero | FPositive | FNegative | FNaN.

Definition exponent_value (exp : pystr) : Z :=
  match exp with
  | _ :: g :: ds =>
      if (g =? 45)%N then - int_of_digits ds
      else if (g =? 43)%N then int_of_digits ds
      else int_of_digits (g :: ds)
  | _ => 0
  end.

Definition float_class_of (lexeme : pystr) : float_class :=
  if pystr_eqb lexeme (py "NaN") then FNaN
  else if pystr_eqb lexeme (py "Infinity") then FPositive
  else if pystr_eqb lexeme (py "-Infinity") then FNegative
  else
    let '(neg, s0) :=
      match lexeme with
      | c :: t => if (c =? 45)%N then (true, t) else (false, lexeme)
      | [] => (false, lexeme)
      end in
    match match_integer s0 with
    | None => FZero
    | Some (int, s1) =>
        let '(frac, s2) := match_frac s1 in
        let '(exp, _) := match_exp s2 in
        let m := int_of_digits (int ++ tail frac) in
        let e := exponent_value exp - Z.of_nat (length (tail frac)) in
        let nonzero :=
          if 0 <=? e then 0 <? m
          else 10 ^ (- e) <? m * 2 ^ 1075 in
        if nonzero then (if neg then FNegative else FPositive) else FZero
    end.

(** [bool(v)] *)
Definition truthy (v : json) : bool :=
  match v with
  | JNull => false
  | JBool b => b
  | JInt n => negb (n =? 0)
  | JFloat x => match float_class_of x with FZero => false | _ => true end
  | JStr s => match s with [] => false | _ => true end
  | JArr l => match l with [] => false | _ => true end
  | JObj d => match d with [] => false | _ => true end
  end.

(** ** Outcomes of code that can let an exception escape *)

Inductive result (A : Type) : Type :=
| Ok (a : A)
| Raised.
Arguments Ok {A} a.
Arguments Raised {A}.

#[global] Instance result_ret : MRet result := fun A a => Ok a.
#[global] Instance result_bind : MBind result := fun A B k r =>
  match r with
  | Ok a => k a
  | Raised => Raised
  end.

(** [v and v > 0], the test the counters of a facet go through: a
    non-empty string, list or dict is truthy and then cannot be compared
    with an int ([TypeError]). *)
Definition positive_count (v : json) : result bool :=
  match v with
  | JNull => Ok false
  | JBool b => Ok b
  | JInt n => Ok (0 <? n)
  | JFloat x => Ok match float_class_of x with FPositive => true | _ => false end
  | JStr s => match s with [] => Ok false | _ => Raised end
  | JArr l => match l with [] => Ok false | _ => Raised end
  | JObj d => match d with [] => Ok false | _ => Raised end
  end.

(** ** The encoder behind [save_facet]: [json.dump(facet, f, indent=2)]

    [iterencode] lists the chunks that [json.dump] writes one by one
    ([_make_iterencode] with [indent = 2], [ensure_ascii = True] and the
    separators [","] and [": "]).  A float is written as the text it was
    read from. *)

Definition hex_digit (n : N) : N :=
  if (n <? 10)%N then (48 + n)%N else (87 + n)%N.

(** ['\\u{0:04x}'.format(n)] *)
Definition u_escape (n : N) : pystr :=
  [92; 117; hex_digit (N.shiftr n 12 mod 16); hex_digit (N.shiftr n 8 mod 16);
   hex_digit (N.shiftr n 4 mod 16); hex_digit (n mod 16)]%N.

(** The replacement [py_encode_basestring_ascii] makes for one character. *)
Definition escape_char (c : N) : pystr :=
  if (c =? 92)%N then [92; 92]%N
  else if (c =? 34)%N then [92; 34]%N
  else if (c =? 8)%N then [92; 98]%N
  else if (c =? 12)%N then [92; 102]%N
  else if (c =? 10)%N then [92; 110]%N
  else if (c =? 13)%N then [92; 114]%N
  else if (c =? 9)%N then [92; 116]%N
  else if ((32 <=? c) && (c <=? 126))%N then [c]
  else if (c <? 65536)%N then u_escape c
  else
    let n := (c - 65536)%N in
    u_escape (N.lor 55296 (N.land (N.shiftr n 10) 1023))
    ++ u_escape (N.lor 56320 (N.land n 1023)).

Definition encode_basestring_ascii (s : pystr) : pystr :=
  [34%N] ++ concat (map escape_char s) ++ [34%N].

(** [int.__repr__] *)
Definition int_repr (n : Z) : pystr :=
  py (NilZero.string_of_int (Z.to_int n)).

(** The values [_iterencode] writes in one chunk. *)
Definition scalar_text (v : json) : option pystr :=
  match v with
  | JStr s => Some (encode_basestring_ascii s)
  | JNull => Some (py "null")
  | JBool true => Some (py "true")
  | JBool false => Some (py "false")
  | JInt n => Some (int_repr n)
  | JFloat x => Some x
  | JArr _ | JObj _ => None
  end.

(** ['\n' + _indent * level] *)
Definition newline_indent (level : nat) : pystr :=
  10%N :: repeat 32%N (2 * level).

Fixpoint iterencode (level : nat) (o : json) {struct o} : list pystr :=
  match o with
  | JArr [] => [py "[]"]
  | JArr items =>
      (fix each (first : bool) (l : list json) {struct l} : list pystr :=
         match l with
         | [] => []
         | v :: l' =>
             let buf :=
               if first then 91%N :: newline_indent (S level)
               else 44%N :: newline_indent (S level) in
             match scalar_text v with
             | Some t => [buf ++ t]
             | None => buf :: iterencode (S level) v
             end ++ each false l'
         end) true items
      ++ [newline_indent level; py "]"]
  | JObj [] => [py "{}"]
  | JObj pairs =>
      [py "{"; newline_indent (S level)]
      ++ (fix each (first : bool) (l : list (pystr * json)) {struct l}
            : list pystr :=
            match l with
            | [] => []
            | (key, v) :: l' =>
                (if first then [] else [44%N :: newline_indent (S level)])
                ++ [encode_basestring_ascii key; py ": "]
                ++ match scalar_text v with
                   | Some t => [t]
                   | None => iterencode (S level) v
                   end
                ++ each false l'
            end) true pairs
      ++ [newline_indent level; py "}"]
  | _ => match scalar_text o with Some t => [t] | None => [] end
  end.

Definition json_dumps (o : json) : pystr := concat (iterencode 0 o).

(** ** The chunker *)

(** [range(start, stop, step)] for a positive step. *)
Definition py_range (start stop step : nat) : list nat :=
  map (fun k => start + k * step)%nat
      (seq 0 ((stop - start + (step - 1)) / step)%nat).

(** [s[i:j]] for indices within [0 .. ] (no negative index occurs). *)
Definition slice {A} (s : list A) (i j : nat) : list A :=
  take (j - i) (drop i s).

(** The loop of [summarize_long_transcript] that cuts the transcript:
    [for i in range(0, len(transcript), size): chunks.append(transcript[i:i + size])]. *)
Definition chunks_of {A} (size : nat) (transcript : list A) : list (list A) :=
  map (fun i => slice transcript i (i + size))
      (py_range 0 (length transcript) size).

(** ** Session records

    One record of a session file, reduced to what the code below reads
    of it.  [load_session_messages] keeps the records whose type is
    [user], [assistant] or [system]. *)

(** A parsed timestamp: whether it carries a UTC offset, its position on
    the time line in microseconds, and its [isoformat()] text. *)
Record datetime := {
  aware : bool;
  micros : Z;
  isoformat : pystr;
}.

(** [msg.get("timestamp")]: absent or empty (falsy), a value that
    [datetime.fromisoformat] rejects, or one it parses. *)
Inductive timestamp :=
| TsNone
| TsInvalid
| TsAt (dt : datetime).

Definition ts_truthy (ts : timestamp) : bool :=
  match ts with
  | TsNone => false
  | _ => true
  end.

(** [datetime.fromisoformat(ts.replace("Z", "+00:00"))]; [None] is the
    exception it raises. *)
Definition fromisoformat (ts : timestamp) : option datetime :=
  match ts with
  | TsAt dt => Some dt
  | _ => None
  end.

(** [a - b] in microseconds; subtracting a naive from an aware datetime
    (or the reverse) is a [TypeError]. *)
Definition datetime_sub (a b : datetime) : result Z :=
  if Bool.eqb (aware a) (aware b) then Ok (micros a - micros b) else Raised.

Inductive role := User | Assistant | System.

(** An element of a content list (a dict). [BText None] is a text block
    without a ["text"] key; the name of a tool use may be absent; the
    content of a tool result is [Some] text when it is a [str] (an absent
    content reads as the empty text) and [None] when it is anything else. *)
Inductive block :=
| BText (text : option pystr)
| BToolUse (name : option pystr)
| BToolResult (is_error : bool) (content : option pystr)
| BOther.

(** [msg["message"].get("content", default)] *)
Inductive content :=
| CStr (s : pystr)
| CBlocks (items : list block)
| COther.

(** [msg_content] is [None] when [msg.get("message")] is falsy. *)
Record message := {
  msg_type : role;
  msg_timestamp : timestamp;
  msg_content : option content;
}.

(** ** Text helpers of the runtime *)

(** [str.isspace] for one character. *)
Definition is_space (c : N) : bool :=
  (((9 <=? c) && (c <=? 13)) || ((28 <=? c) && (c <=? 32)) || (c =? 133)
   || (c =? 160) || (c =? 5760) || ((8192 <=? c) && (c <=? 8202))
   || (c =? 8232) || (c =? 8233) || (c =? 8239) || (c =? 8287)
   || (c =? 12288))%N.

(** [s.strip()] is non-empty. *)
Definition nonblank (s : pystr) : bool := existsb (fun c => negb (is_space c)) s.

(** [s.lower()], on the ASCII letters; other characters are kept. *)
Definition str_lower (s : pystr) : pystr :=
  map (fun c => if ((65 <=? c) && (c <=? 90))%N then (c + 32)%N else c) s.

(** [sep.join(parts)] *)
Fixpoint join (sep : pystr) (parts : list pystr) : pystr :=
  match parts with
  | [] => []
  | [p] => p
  | p :: parts' => p ++ sep ++ join sep parts'
  end.

(** ** The metric extractor *)

(** The categories of a failed tool call, by the first pattern found in
    the lowered message. *)
Definition categorize_lowered (err_lower : pystr) : pystr :=
  if contains (py "exit code") err_lower then py "Command Failed"
  else if contains (py "rejected") err_lower
          || contains (py "doesn't want") err_lower then py "User Rejected"
  else if contains (py "string to replace not found") err_lower
          || contains (py "no changes") err_lower then py "Edit Failed"
  else if contains (py "modified since read") err_lower then py "File Changed"
  else if contains (py "exceeds maximum") err_lower
          || contains (py "too large") err_lower then py "File Too Large"
  else if contains (py "file not found") err_lower
          || contains (py "does not exist") err_lower then py "File Not Found"
  else py "Other".

Definition categorize (err_content : pystr) : pystr :=
  categorize_lowered (str_lower err_content).

(** [d[k] = d.get(k, 0) + n] *)
Definition dict_add (k : pystr) (n : Z) (d : list (pystr * Z))
  : list (pystr * Z) :=
  dict_set k (default 0 (dict_get k d) + n) d.

(** The local variables of [extract_session_metrics] that the properties
    below depend on.  (The tool, language, git, token, line and
    interruption counters are accumulated independently of these and are
    left out.) *)
Record locals := {
  user_msg_count : Z;
  assistant_msg_count : Z;
  last_assistant_ts : timestamp;
  first_prompt : pystr;
  start_time : option datetime;
  end_time : option datetime;
  response_times : list Z;
  tool_errors : Z;
  tool_error_categories : list (pystr * Z);
}.

Definition initial_locals : locals := {|
  user_msg_count := 0;
  assistant_msg_count := 0;
  last_assistant_ts := TsNone;
  first_prompt := [];
  start_time := None;
  end_time := None;
  response_times := [];
  tool_errors := 0;
  tool_error_categories := [];
|}.

(** One failed tool result: [tool_errors += 1] and, for a text message,
    one more in its category. *)
Definition count_tool_error (err_content : option pystr) (l : locals) : locals :=
  {| user_msg_count := user_msg_count l;
     assistant_msg_count := assistant_msg_count l;
     last_assistant_ts := last_assistant_ts l;
     first_prompt := first_prompt l;
     start_time := start_time l;
     end_time := end_time l;
     response_times := response_times l;
     tool_errors := tool_errors l + 1;
     tool_error_categories :=
       match err_content with
       | Some text => dict_add (categorize text) 1 (tool_error_categories l)
       | None => tool_error_categories l
       end |}.

(** The loop over the content list of a user record: it stops at the
    first non-blank text block ([break]) and returns that text. *)
Fixpoint scan_user_items (items : list block) (l : locals)
  : option pystr * locals :=
  match items with
  | [] => (None, l)
  | item :: items' =>
      match item with
      | BText (Some text) =>
          if nonblank text then (Some text, l) else scan_user_items items' l
      | BToolResult true err_content =>
          scan_user_items items' (count_tool_error err_content l)
      | _ => scan_user_items items' l
      end
  end.

(** The response-latency sample of a user turn at [ts], in microseconds:
    [2 < delta < 3600] seconds; any exception is swallowed. *)
Definition latency_sample (last_assistant ts : timestamp) : option Z :=
  if ts_truthy last_assistant then
    match fromisoformat last_assistant, fromisoformat ts with
    | Some at_, Some ut =>
        match datetime_sub ut at_ with
        | Ok delta =>
            if (2 * 1000000 <? delta) && (delta <? 3600 * 1000000)
            then Some delta else None
        | Raised => None
        end
    | _, _ => None
    end
  else None.

(** The part of the loop body that runs for a user turn with text. *)
Definition record_user_text (text_content : pystr) (ts : timestamp) (l : locals)
  : locals :=
  let parsed := if ts_truthy ts then fromisoformat ts else None in
  {| user_msg_count := user_msg_count l + 1;
     assistant_msg_count := assistant_msg_count l;
     last_assistant_ts := last_assistant_ts l;
     first_prompt :=
       match first_prompt l with
       | [] => take 200 text_content
       | _ => first_prompt l
       end;
     start_time :=
       match parsed, start_time l with
       | Some dt, None => Some dt
       | _, _ => start_time l
       end;
     end_time :=
       match parsed with
       | Some dt => Some dt
       | None => end_time l
       end;
     response_times :=
       match (if ts_truthy ts then latency_sample (last_assistant_ts l) ts
              else None) with
       | Some delta => response_times l ++ [delta]
       | None => response_times l
       end;
     tool_errors := tool_errors l;
     tool_error_categories := tool_error_categories l |}.

(** The body of [for msg in messages]. *)
Definition metrics_step (l : locals) (msg : message) : locals :=
  let ts := msg_timestamp msg in
  match msg_type msg, msg_content msg with
  | Assistant, Some _ =>
      {| user_msg_count := user_msg_count l;
         assistant_msg_count := assistant_msg_count l + 1;
         last_assistant_ts :=
           if ts_truthy ts then ts else last_assistant_ts l;
         first_prompt := first_prompt l;
         start_time := start_time l;
         end_time := end_time l;
         response_times := response_times l;
         tool_errors := tool_errors l;
         tool_error_categories := tool_error_categories l |}
  | User, Some content =>
      let '(text, l1) :=
        match content with
        | CStr s => (if nonblank s then Some s else None, l)
        | CBlocks items => scan_user_items items l
        | COther => (None, l)
        end in
      match text with
      | Some text_content => record_user_text text_content ts l1
      | None => l1
      end
  | _, _ => l
  end.

(** The metrics dict of a session (its keys carry the prefix [sm_]). *)
Record metrics := {
  sm_session_id : pystr;
  sm_project_path : pystr;
  sm_start_time : pystr;
  sm_duration_minutes : Z;
  sm_user_message_count : Z;
  sm_assistant_message_count : Z;
  sm_first_prompt : pystr;
  sm_user_response_times : list Z;
  sm_tool_errors : Z;
  sm_tool_error_categories : list (pystr * Z);
}.

(** [max(1, int((end_time - start_time).total_seconds() / 60))]; [int]
    truncates towards zero. *)
Definition duration_of (start_ end_ : datetime) : result Z :=
  delta ← datetime_sub end_ start_;
  Ok (Z.max 1 (Z.quot delta (60 * 1000000))).

(** [extract_session_metrics], on the records as the session model holds
    them: the loop over the user records, the bookkeeping of the
    assistant records and the duration.  The loop over the tool uses of
    an assistant record is embedded apart ([count_tool_uses] below) and
    the token sums are left out; both can fail on records that the
    session model does not hold (a tool use whose name is not a string, a
    usage that is not a dict).  [Raised] is therefore the failure of the
    duration only: the general statements about this function say what
    it returns when it returns, or that it fails. *)
Definition extract_session_metrics (messages : list message)
    (session_id project_path : pystr) : result metrics :=
  let l := fold_left metrics_step messages initial_locals in
  duration ← match start_time l, end_time l with
             | Some s, Some e => d ← duration_of s e; Ok (d, isoformat s)
             | _, _ => Ok (0, [])
             end;
  Ok {| sm_session_id := session_id;
        sm_project_path := project_path;
        sm_start_time := snd duration;
        sm_duration_minutes := fst duration;
        sm_user_message_count := user_msg_count l;
        sm_assistant_message_count := assistant_msg_count l;
        sm_first_prompt := first_prompt l;
        sm_user_response_times := response_times l;
        sm_tool_errors := tool_errors l;
        sm_tool_error_categories := tool_error_categories l |}.

(** The test of [main] that drops a trivial session. *)
Definition is_trivial (m : metrics) : bool :=
  (sm_user_message_count m <? 2) || (sm_duration_minutes m <? 1).

(** ** Configuration *)

Definition SUMMARIZE_MAX_TOKENS : nat := 2048.
Definition FACET_MAX_TOKENS : nat := 8192.
Definition MAX_SESSIONS_TO_PROCESS : nat := 9999.
Definition USER_MSG_TRUNCATE : nat := 2000.
Definition ASSISTANT_MSG_TRUNCATE : nat := 1000.
Definition LONG_SESSION_THRESHOLD : nat := 60000.
Definition CHUNK_SIZE : nat := 50000.
Definition FACET_BATCH_SIZE : nat := 5.

(** ** Transcript serialization *)

(** The lines a content list of a user record contributes; indexing a
    text block that has no ["text"] key is a [KeyError]. *)
Fixpoint user_lines (items : list block) : result (list pystr) :=
  match items with
  | [] => Ok []
  | BText (Some text) :: items' =>
      rest ← user_lines items';
      Ok ((py "[User]: " ++ take USER_MSG_TRUNCATE text) :: rest)
  | BText None :: _ => Raised
  | _ :: items' => user_lines items'
  end.

Fixpoint assistant_lines (items : list block) : result (list pystr) :=
  match items with
  | [] => Ok []
  | BText (Some text) :: items' =>
      rest ← assistant_lines items';
      Ok ((py "[Assistant]: " ++ take ASSISTANT_MSG_TRUNCATE text) :: rest)
  | BText None :: _ => Raised
  | BToolUse name :: items' =>
      rest ← assistant_lines items';
      Ok ((py "[Tool: " ++ default (py "?") name ++ py "]") :: rest)
  | _ :: items' => assistant_lines items'
  end.

Definition message_lines (msg : message) : result (list pystr) :=
  match msg_type msg, msg_content msg with
  | User, Some (CStr s) => Ok [py "[User]: " ++ take USER_MSG_TRUNCATE s]
  | User, Some (CBlocks items) => user_lines items
  | Assistant, Some (CBlocks items) => assistant_lines items
  | _, _ => Ok []
  end.

Fixpoint transcript_lines (messages : list message) : result (list pystr) :=
  match messages with
  | [] => Ok []
  | msg :: messages' =>
      here ← message_lines msg;
      rest ← transcript_lines messages';
      Ok (here ++ rest)
  end.

Definition serialize_transcript (messages : list message) : result pystr :=
  lines ← transcript_lines messages;
  Ok (join [10%N] lines).

(** ** The text-generation collaborator *)

(** A call of [api_create]: the token budget and the single user prompt
    (the model id is the same for every call of a run). *)
Record request := {
  max_tokens : nat;
  prompt : pystr;
}.

(** What a call comes back with: the joined text blocks of the response,
    or an exception of any kind. *)
Inductive response :=
| Text (text : pystr)
| Failure.

(** ** Facet extraction *)

Definition FACET_SYSTEM_PROMPT : pystr :=
  py "Analyze this Claude Code session and extract structured facets.

CRITICAL GUIDELINES:

1. **goal_categories**: Count ONLY what the USER explicitly asked for.
   - DO NOT count Claude's autonomous codebase exploration
   - DO NOT count work Claude decided to do on its own
   - ONLY count when user says `can you...`, `please...`, `I need...`, `let's...`

2. **user_satisfaction_counts**: Base ONLY on explicit user signals.
   - `Yay!`, `great!`, `perfect!` "
  ++ [8594%N] ++ py " happy
   - `thanks`, `looks good`, `that works` "
  ++ [8594%N] ++ py " satisfied
   - `ok, now let's...` (continuing without complaint) "
  ++ [8594%N] ++ py " likely_satisfied
   - `that's not right`, `try again` "
  ++ [8594%N] ++ py " dissatisfied
   - `this is broken`, `I give up` "
  ++ [8594%N] ++ py " frustrated

3. **friction_counts**: Be specific about what went wrong.
   - misunderstood_request: Claude interpreted incorrectly
   - wrong_approach: Right goal, wrong solution method
   - buggy_code: Code didn't work correctly
   - user_rejected_action: User said no/stop to a tool call
   - excessive_changes: Over-engineered or changed too much

4. If very short or just warmup, use warmup_minimal for goal_category

SESSION:
".

Definition FACET_SCHEMA : pystr :=
  py "

RESPOND WITH ONLY A VALID JSON OBJECT matching this schema:
{
  `underlying_goal`: `What the user fundamentally wanted to achieve`,
  `goal_categories`: {`category_name`: count, ...},
  `outcome`: `fully_achieved|mostly_achieved|partially_achieved|not_achieved|unclear_from_transcript`,
  `user_satisfaction_counts`: {`level`: count, ...},
  `claude_helpfulness`: `unhelpful|slightly_helpful|moderately_helpful|very_helpful|essential`,
  `session_type`: `single_task|multi_task|iterative_refinement|exploration|quick_question`,
  `friction_counts`: {`friction_type`: count, ...},
  `friction_detail`: `One sentence describing friction or empty`,
  `primary_success`: `none|fast_accurate_search|correct_code_edits|good_explanations|proactive_help|multi_file_changes|good_debugging`,
  `brief_summary`: `One sentence: what user wanted and whether they got it`
}".

(** The [prompt] of [summarize_long_transcript]. *)
Definition SUMMARIZE_PROMPT : pystr :=
  py "Summarize this portion of a Claude Code session transcript. Focus on:
1. What the user asked for
2. What Claude did (tools used, files modified)
3. Any friction or issues
4. The outcome

Keep it detailed - capture specific file names, error messages, and user feedback.
Preserve technical specifics that would help analyze the session quality.

TRANSCRIPT CHUNK:
".

Definition summarize_request (chunk : pystr) : request :=
  {| max_tokens := SUMMARIZE_MAX_TOKENS; prompt := SUMMARIZE_PROMPT ++ chunk |}.

(** The summary kept for one chunk: the text of the response, or the head
    of the chunk when the text is empty or the call fails. *)
Definition summarize_chunk (client : request -> response) (chunk : pystr)
  : pystr :=
  match client (summarize_request chunk) with
  | Text (c :: text) => c :: text
  | Text [] | Failure => take (SUMMARIZE_MAX_TOKENS * 4) chunk
  end.

(** [summarize_long_transcript], with the calls it makes. *)
Definition summarize_long_transcript (client : request -> response)
    (transcript : pystr) : list request * pystr :=
  if (length transcript <=? LONG_SESSION_THRESHOLD)%nat then ([], transcript)
  else
    let chunks := chunks_of CHUNK_SIZE transcript in
    (map summarize_request chunks,
     join (py "

---

") (map (summarize_chunk client) chunks)).

Definition facet_header (session_id : pystr) (m : metrics) : pystr :=
  py "Session: " ++ take 8 session_id ++ [10%N]
  ++ py "Date: " ++ sm_start_time m ++ [10%N]
  ++ py "Project: " ++ sm_project_path m ++ [10%N]
  ++ py "Duration: " ++ int_repr (sm_duration_minutes m) ++ py " min"
  ++ [10%N; 10%N].

(** [facet["session_id"] = session_id] on what [extract_json_object]
    returned; the assignment fails on anything but a dict, inside the
    [try]. *)
Definition tag_facet (session_id : pystr) (facet : json) : option json :=
  match facet with
  | JObj d => Some (JObj (dict_set (py "session_id") (JStr session_id) d))
  | _ => None
  end.

(** The [try] block of [extract_facets], after the call has returned. *)
Definition facet_of_response (session_id : pystr) (r : response)
  : option json :=
  match r with
  | Failure => None
  | Text text =>
      match extract_json_object text with
      | None => None
      | Some facet => if truthy facet then tag_facet session_id facet else None
      end
  end.

(** [extract_facets]: the calls made, and the facet, [None] or the
    exception that escapes. *)
Definition extract_facets (client : request -> response)
    (messages : list message) (session_id : pystr) (m : metrics)
  : list request * result (option json) :=
  match serialize_transcript messages with
  | Raised => ([], Raised)
  | Ok transcript =>
      let '(calls, transcript) :=
        summarize_long_transcript client (facet_header session_id m ++ transcript) in
      let req := {| max_tokens := FACET_MAX_TOKENS;
                    prompt := FACET_SYSTEM_PROMPT ++ transcript ++ FACET_SCHEMA |} in
      (calls ++ [req], Ok (facet_of_response session_id (client req)))
  end.

(** ** The facet cache

    [FACETS_DIR] as a finite map from session id (the stem of the entry's
    path) to the entry: its permission bits and its text. *)
Record file := {
  mode : N;
  data : pystr;
}.

Abbreviation cache_dir := (gmap pystr file).

Definition owner_readable (f : file) : bool := N.testbit (mode f) 8.
Definition owner_writable (f : file) : bool := N.testbit (mode f) 7.

(** [load_cached_facet]: [None] when the entry is missing, cannot be
    opened or does not decode. *)
Definition load_cached_facet (cache : cache_dir) (session_id : pystr)
  : option json :=
  match cache !! session_id with
  | Some f => if owner_readable f then json_loads (data f) else None
  | None => None
  end.

(** The system calls of [save_facet] on one entry.  [OpenTrunc] is
    [os.open(path, O_WRONLY | O_CREAT | O_TRUNC, 0o600)]: a missing entry
    is created empty with mode [0o600] (the directory is taken to exist
    or to be creatable, and the umask to leave the owner's bits), an entry
    that exists is emptied and keeps its mode, and opening fails when its
    owner may not write it.  [Write] is one chunk of [json.dump] reaching
    the entry. *)
Inductive fs_op :=
| OpenTrunc
| Write (chunk : pystr).

Definition fs_step (path : pystr) (cache : cache_dir) (op : fs_op)
  : result cache_dir :=
  match op with
  | OpenTrunc =>
      match cache !! path with
      | Some f =>
          if owner_writable f
          then Ok (<[path := {| mode := mode f; data := [] |}]> cache)
          else Raised
      | None => Ok (<[path := {| mode := 384; data := [] |}]> cache)
      end
  | Write chunk =>
      Ok (alter (fun f => {| mode := mode f; data := data f ++ chunk |})
                path cache)
  end.

Fixpoint fs_run (path : pystr) (ops : list fs_op) (cache : cache_dir)
  : result cache_dir :=
  match ops with
  | [] => Ok cache
  | op :: ops' => cache' ← fs_step path cache op; fs_run path ops' cache'
  end.

(** [facet['session_id']], the name of the entry; [save_facet] is only
    reached with a facet that [extract_facets] has tagged. *)
Definition facet_session_id (facet : json) : result pystr :=
  match facet with
  | JObj d =>
      match dict_get (py "session_id") d with
      | Some (JStr sid) => Ok sid
      | _ => Raised
      end
  | _ => Raised
  end.

Definition save_facet_ops (facet : json) : list fs_op :=
  OpenTrunc :: map Write (iterencode 0 facet).

Definition save_facet (facet : json) (cache : cache_dir) : result cache_dir :=
  path ← facet_session_id facet;
  fs_run path (save_facet_ops facet) cache.

(** [save_facet] cut short after its first [n] system calls. *)
Definition save_facet_interrupted (n : nat) (facet : json) (cache : cache_dir)
  : result cache_dir :=
  path ← facet_session_id facet;
  fs_run path (take n (save_facet_ops facet)) cache.

(** ** The run of [main] *)

(** A discovered session with the records [load_session_messages] read
    from its file. *)
Record session := {
  session_id : pystr;
  project : pystr;
  messages : list message;
}.

Definition INSIGHTS_MARKER_1 : pystr := py "RESPOND WITH ONLY A VALID JSON OBJECT".
Definition INSIGHTS_MARKER_2 : pystr := py "record_facets".

Definition has_marker (text : pystr) : bool :=
  contains INSIGHTS_MARKER_1 text || contains INSIGHTS_MARKER_2 text.

Definition is_insights_message (msg : message) : bool :=
  match msg_type msg, msg_content msg with
  | User, Some (CStr s) => has_marker s
  | User, Some (CBlocks items) =>
      existsb (fun item =>
                 match item with
                 | BText text => has_marker (default [] text)
                 | _ => false
                 end) items
  | _, _ => false
  end.

Definition is_insights_session (messages : list message) : bool :=
  existsb is_insights_message (take 5 messages).

(** What step 2 of [main] builds. *)
Record scan_state := {
  all_metrics : list metrics;
  cached_facets : gmap pystr json;
  sessions_needing_facets : list (session * metrics);
}.

(** The body of [for i, sess in enumerate(sessions)]. *)
Definition scan_session (cache : cache_dir) (st : scan_state) (sess : session)
  : result scan_state :=
  match messages sess with
  | [] => Ok st
  | _ :: _ =>
      if is_insights_session (messages sess) then Ok st
      else
        m ← extract_session_metrics (messages sess) (session_id sess)
                                    (project sess);
        if is_trivial m then Ok st
        else
          let cached :=
            match load_cached_facet cache (session_id sess) with
            | Some v => if truthy v then Some v else None
            | None => None
            end in
          Ok match cached with
             | Some v =>
                 {| all_metrics := all_metrics st ++ [m];
                    cached_facets := <[session_id sess := v]> (cached_facets st);
                    sessions_needing_facets := sessions_needing_facets st |}
             | None =>
                 {| all_metrics := all_metrics st ++ [m];
                    cached_facets := cached_facets st;
                    sessions_needing_facets :=
                      sessions_needing_facets st ++ [(sess, m)] |}
             end
  end.

Fixpoint scan_sessions (cache : cache_dir) (st : scan_state)
    (sessions : list session) : result scan_state :=
  match sessions with
  | [] => Ok st
  | sess :: sessions' =>
      st' ← scan_session cache st sess;
      scan_sessions cache st' sessions'
  end.

Definition empty_scan : scan_state :=
  {| all_metrics := []; cached_facets := ∅; sessions_needing_facets := [] |}.

(** The state of step 3: the facets map, the cache directory and the
    collaborator calls made so far, each with the session it was made
    for. *)
Record run_state := {
  facets_map : gmap pystr json;
  cache : cache_dir;
  calls : list (pystr * request);
}.

(** A run either goes on or is ended by an exception that escapes
    [main]; the state reached is kept in both cases. *)
Inductive outcome :=
| Running (st : run_state)
| Aborted (st : run_state).

Definition state_of (o : outcome) : run_state :=
  match o with
  | Running st | Aborted st => st
  end.

(** [_extract_one] *)
Definition extract_one (client : request -> response) (item : session * metrics)
  : pystr * (list request * result (option json)) :=
  let sid_full := session_id (fst item) in
  (sid_full, extract_facets client (messages (fst item)) sid_full (snd item)).

(** The body of [for future in as_completed(futures)]. *)
Definition collect (o : outcome) (done : pystr * result (option json))
  : outcome :=
  match o with
  | Aborted st => Aborted st
  | Running st =>
      match snd done with
      | Raised => Aborted st
      | Ok None => Running st
      | Ok (Some facet) =>
          if truthy facet then
            let st1 := {| facets_map := <[fst done := facet]> (facets_map st);
                          cache := cache st;
                          calls := calls st |} in
            match save_facet facet (cache st) with
            | Ok cache' =>
                Running {| facets_map := facets_map st1;
                           cache := cache';
                           calls := calls st |}
            | Raised => Aborted st1
            end
          else Running st
      end
  end.

Section Run.

(** The order in which the futures of a batch complete. *)
Variable as_completed :
  list (pystr * result (option json)) -> list (pystr * result (option json)).

(** One batch: every item is submitted to the pool, so all their calls
    are made; the results are then collected as they complete. *)
Definition run_batch (client : request -> response) (o : outcome)
    (batch : list (session * metrics)) : outcome :=
  match o with
  | Aborted st => Aborted st
  | Running st =>
      let futures := map (extract_one client) batch in
      let st1 := {| facets_map := facets_map st;
                    cache := cache st;
                    calls := calls st
                             ++ concat (map (fun f => map (pair (fst f)) (fst (snd f)))
                                            futures) |} in
      fold_left collect
                (as_completed (map (fun f => (fst f, snd (snd f))) futures))
                (Running st1)
  end.

(** Step 3 of [main]. *)
Definition extract_all (client : request -> response) (st : run_state)
    (needing : list (session * metrics)) : outcome :=
  let to_process := take MAX_SESSIONS_TO_PROCESS needing in
  fold_left (run_batch client) (chunks_of FACET_BATCH_SIZE to_process)
            (Running st).

End Run.

(** [is_warmup_only] of [main]. *)
Definition active_categories (cats : list (pystr * json)) : result (list pystr) :=
  foldr (fun kv acc =>
           rest ← acc;
           b ← positive_count (snd kv);
           Ok (if b : bool then fst kv :: rest else rest))
        (Ok []) cats.

Definition is_warmup_only (facets : gmap pystr json) (sid : pystr)
  : result bool :=
  match facets !! sid with
  | None => Ok false
  | Some f =>
      if truthy f then
        match f with
        | JObj d =>
            match default (JObj []) (dict_get (py "goal_categories") d) with
            | JObj cats =>
                active ← active_categories cats;
                Ok match active with
                   | [k] => pystr_eqb k (py "warmup_minimal")
                   | _ => false
                   end
            | _ => Raised
            end
        | _ => Raised
        end
      else Ok false
  end.

(** [[m for m in all_metrics if not is_warmup_only(m["session_id"])]] *)
Fixpoint filter_warmups (facets : gmap pystr json) (ms : list metrics)
  : result (list metrics) :=
  match ms with
  | [] => Ok []
  | m :: ms' =>
      w ← is_warmup_only facets (sm_session_id m);
      rest ← filter_warmups facets ms';
      Ok (if w : bool then rest else m :: rest)
  end.

#[global] Instance result_bool_eq_dec : EqDecision (result bool).
Proof. solve_decision. Defined.

(** [{k: v for k, v in facets_map.items() if not is_warmup_only(k)}],
    once the pass over the metrics has gone through. *)
Definition filter_warmup_facets (facets : gmap pystr json) : gmap pystr json :=
  filter (fun kv => is_warmup_only facets (fst kv) = Ok false) facets.

(** What a run hands to [aggregate_data], or the state in which an
    exception ended it. *)
Inductive run_result :=
| Completed (st : run_state) (filtered_metrics : list metrics)
            (filtered_facets : gmap pystr json)
| Failed (st : run_state).

(** [main], from the discovered sessions to the call of [aggregate_data]
    (without [--dry-run]). *)
Definition main
    (as_completed : list (pystr * result (option json))
                    -> list (pystr * result (option json)))
    (client : request -> response) (cache0 : cache_dir)
    (sessions : list session) : run_result :=
  match scan_sessions cache0 empty_scan sessions with
  | Raised => Failed {| facets_map := ∅; cache := cache0; calls := [] |}
  | Ok sc =>
      match extract_all as_completed client
              {| facets_map := cached_facets sc; cache := cache0; calls := [] |}
              (sessions_needing_facets sc) with
      | Aborted st => Failed st
      | Running st =>
          match filter_warmups (facets_map st) (all_metrics sc) with
          | Raised => Failed st
          | Ok filtered_metrics =>
              Completed st filtered_metrics
                        (filter_warmup_facets (facets_map st))
          end
      end
  end.

(** ** Loading a session file *)

(** [s.strip()] *)
Fixpoint lstrip (s : pystr) : pystr :=
  match s with
  | c :: s' => if is_space c then lstrip s' else s
  | [] => []
  end.

Definition strip (s : pystr) : pystr := reverse (lstrip (reverse (lstrip s))).

(** What [json.loads] makes of a line: a value, a [JSONDecodeError], or
    an exception of another kind. *)
Inductive decoded :=
| Value (obj : json)
| DecodeError
| OtherError.

(** [json.loads] as the decoder above models it. *)
Definition loads_line (line : pystr) : decoded :=
  match json_loads line with
  | Some obj => Value obj
  | None => DecodeError
  end.

(** [obj.get("type") in ("user", "assistant", "system")]; what is not a
    dict has no [get] ([AttributeError], [None] here). *)
Definition RECORD_TYPES : list pystr := [py "user"; py "assistant"; py "system"].

Definition is_record (obj : json) : option bool :=
  match obj with
  | JObj d =>
      Some match dict_get (py "type") d with
           | Some (JStr t) => bool_decide (t ∈ RECORD_TYPES)
           | _ => false
           end
  | _ => None
  end.

(** What the loop body does with one line of the file. *)
Inductive line_outcome :=
| Keep (obj : json)
| Skip
| Stop.

Section Loader.

Variable loads : pystr -> decoded.

(** The body of [for line in f]: a blank line and a line that does not
    decode are passed over ([continue]); any other exception leaves the
    loop and is caught by the handler around it, which only prints a
    warning. *)
Definition load_line (line : pystr) : line_outcome :=
  match strip line with
  | [] => Skip
  | c :: rest =>
      match loads (c :: rest) with
      | DecodeError => Skip
      | OtherError => Stop
      | Value obj =>
          match is_record obj with
          | None => Stop
          | Some true => Keep obj
          | Some false => Skip
          end
      end
  end.

(** [load_session_messages] on the lines that the file yields; [None]
    is the point at which opening or reading the file fails. *)
Fixpoint load_lines (lines : list (option pystr)) (messages : list json)
  : list json :=
  match lines with
  | [] => messages
  | None :: _ => messages
  | Some line :: lines' =>
      match load_line line with
      | Keep obj => load_lines lines' (messages ++ [obj])
      | Skip => load_lines lines' messages
      | Stop => messages
      end
  end.

Definition load_session_messages (lines : list (option pystr)) : list json :=
  load_lines lines [].

End Loader.

(** A line after which the loop goes on. *)
Definition passes (loads : pystr -> decoded) (line : option pystr) : Prop :=
  exists text, line = Some text /\ load_line loads text <> Stop.

(** The record a line contributes, if any. *)
Definition kept (loads : pystr -> decoded) (line : option pystr) : option json :=
  match line with
  | Some text =>
      match load_line loads text with
      | Keep obj => Some obj
      | _ => None
      end
  | None => None
  end.

(** ** Escaping for the HTML report *)

(** [s.replace(c, rep)] for a one-character [c]. *)
Definition replace_char (c : N) (rep : pystr) (s : pystr) : pystr :=
  concat (map (fun x => if (x =? c)%N then rep else [x]) s).

(** [html_escape] on a string: [html.escape(s)] replaces the ampersand
    first, then the angle brackets and the two quotes; an empty string
    is returned as it is. *)
Definition html_escape (s : pystr) : pystr :=
  match s with
  | [] => []
  | _ =>
      replace_char 39 (py "&#x27;")
        (replace_char 34 (py "&quot;")
           (replace_char 62 (py "&gt;")
              (replace_char 60 (py "&lt;")
                 (replace_char 38 (py "&amp;") s))))
  end.

(** The group and the closing stars of the pattern [\*\*(.+?)\*\*], read
    after the first character of the group: the shortest run of
    characters other than a newline that two stars follow. *)
Fixpoint bold_close (group : pystr) (s : pystr) : option (pystr * pystr) :=
  match s with
  | c :: s' =>
      if starts_with (py "**") s then Some (group, drop 2 s)
      else if (c =? 10)%N then None
      else bold_close (group ++ [c]) s'
  | [] => None
  end.

(** A match of the pattern at the head of [s]: the group and the text
    after the match. *)
Definition bold_match (s : pystr) : option (pystr * pystr) :=
  match s with
  | a :: b :: c :: s' =>
      if (a =? 42)%N && (b =? 42)%N && negb (c =? 10)%N
      then bold_close [c] s' else None
  | _ => None
  end.

(** [re.sub(pattern, r'<strong>\1</strong>', s)]: the matches are taken
    from left to right without overlap; the fuel is the length of [s]. *)
Fixpoint sub_bold (fuel : nat) (s : pystr) : pystr :=
  match fuel with
  | O => s
  | S fuel' =>
      match bold_match s with
      | Some (group, rest) =>
          py "<strong>" ++ group ++ py "</strong>" ++ sub_bold fuel' rest
      | None =>
          match s with
          | c :: s' => c :: sub_bold fuel' s'
          | [] => []
          end
      end
  end.

Definition md_bold_to_html (s : pystr) : pystr :=
  let escaped := html_escape s in
  sub_bold (length escaped) escaped.

(** The entity [html.escape] writes for a character. *)
Definition html_entity (c : N) : pystr :=
  if (c =? 38)%N then py "&amp;"
  else if (c =? 60)%N then py "&lt;"
  else if (c =? 62)%N then py "&gt;"
  else if (c =? 34)%N then py "&quot;"
  else if (c =? 39)%N then py "&#x27;"
  else [c].

(** A character that is not markup: no angle bracket and no quote. *)
Definition inert (c : N) : bool :=
  negb ((c =? 60) || (c =? 62) || (c =? 34) || (c =? 39))%N.

(** A piece of a text with bold spans, as it is written in the source
    and as it is rendered. *)
Inductive piece :=
| Plain (text : pystr)
| Bold (text : pystr).

Definition piece_source (p : piece) : pystr :=
  match p with
  | Plain text => text
  | Bold text => py "**" ++ text ++ py "**"
  end.

Definition piece_html (p : piece) : pystr :=
  match p with
  | Plain text => text
  | Bold text => py "<strong>" ++ text ++ py "</strong>"
  end.

Definition piece_ok (p : piece) : Prop :=
  match p with
  | Plain text => forallb inert text = true
  | Bold text => forallb inert text = true /\ text <> [] /\ 10%N ∉ text
  end.

(** ** The tool uses of an assistant record

    The loop of [extract_session_metrics] over the content list of an
    assistant record, on the items as [json.loads] built them. *)

Definition LANG_MAP : list (pystr * pystr) :=
  [ (py ".ts", py "TypeScript"); (py ".tsx", py "TypeScript");
    (py ".js", py "JavaScript"); (py ".jsx", py "JavaScript");
    (py ".py", py "Python"); (py ".rb", py "Ruby"); (py ".go", py "Go");
    (py ".rs", py "Rust"); (py ".java", py "Java"); (py ".md", py "Markdown");
    (py ".json", py "JSON"); (py ".yaml", py "YAML"); (py ".yml", py "YAML");
    (py ".sh", py "Shell"); (py ".css", py "CSS"); (py ".html", py "HTML");
    (py ".zig", py "Zig"); (py ".c", py "C"); (py ".cpp", py "C++");
    (py ".h", py "C/C++ Header"); (py ".sql", py "SQL"); (py ".toml", py "TOML") ].

(** [s.rfind(c)] for a one-character needle, [-1] when it is absent. *)
Definition rfind_char (c : N) (s : pystr) : Z :=
  match find_char c (reverse s) with
  | Some i => Z.of_nat (length s) - 1 - Z.of_nat i
  | None => -1
  end.

(** [os.path.splitext(p)[1]] ([posixpath]): the text from the last dot
    on, when that dot comes after the last slash and after a character
    of the file name that is not a dot. *)
Definition splitext_ext (p : pystr) : pystr :=
  let sepIndex := rfind_char 47 p in
  let dotIndex := rfind_char 46 p in
  if (sepIndex <? dotIndex)
     && existsb (fun x => negb (x =? 46)%N)
                (slice p (Z.to_nat (sepIndex + 1)) (Z.to_nat dotIndex))
  then drop (Z.to_nat dotIndex) p
  else [].

(** [v.count("\n")] on a truthy value: a string counts its newlines, a
    list its items equal to the newline; anything else has no [count]. *)
Definition count_newlines (v : json) : result Z :=
  match v with
  | JStr s => Ok (Z.of_nat (length (List.filter (fun c => (c =? 10)%N) s)))
  | JArr items =>
      Ok (Z.of_nat (length (List.filter
                              (fun x => match x with
                                        | JStr s => pystr_eqb s [10%N]
                                        | _ => false
                                        end) items)))
  | _ => Raised
  end.

(** [v.count("\n") + 1 if v else 0] *)
Definition line_count (v : json) : result Z :=
  if truthy v then n ← count_newlines v; Ok (n + 1) else Ok 0.

(** [needle in cmd]: a substring of a string, an item of a list, a key of
    a dict; anything else is not iterable. *)
Definition mentions (needle : pystr) (cmd : json) : result bool :=
  match cmd with
  | JStr s => Ok (contains needle s)
  | JArr items =>
      Ok (existsb (fun x => match x with
                            | JStr s => pystr_eqb s needle
                            | _ => false
                            end) items)
  | JObj d => Ok (bool_decide (is_Some (dict_get needle d)))
  | _ => Raised
  end.

(** The local variables of [extract_session_metrics] that the loop over
    the tool uses updates. *)
Record tool_locals := {
  tool_counts : list (pystr * Z);
  languages : list (pystr * Z);
  git_commits : Z;
  git_pushes : Z;
  uses_task : bool;
  uses_mcp : bool;
  uses_web_search : bool;
  uses_web_fetch : bool;
  lines_added : Z;
  lines_removed : Z;
  files_modified : gset pystr;
}.

Definition initial_tool_locals : tool_locals := {|
  tool_counts := [];
  languages := [];
  git_commits := 0;
  git_pushes := 0;
  uses_task := false;
  uses_mcp := false;
  uses_web_search := false;
  uses_web_fetch := false;
  lines_added := 0;
  lines_removed := 0;
  files_modified := ∅;
|}.

(** [inp.get(key, "")] *)
Definition input_get (key : pystr) (inp : list (pystr * json)) : json :=
  default (JStr []) (dict_get key inp).

(** The part of the body that reads the [input] dict of a tool use named
    [name].  The extension is lowered on its ASCII letters: no other
    character is lowered to a letter of a key of [LANG_MAP], so the
    lookup is that of the source. *)
Definition count_tool_input (name : pystr) (inp : list (pystr * json))
    (l : tool_locals) : result tool_locals :=
  let fp := input_get (py "file_path") inp in
  file_part ←
    (if truthy fp then
       match fp with
       | JStr path =>
           let ext := str_lower (splitext_ext path) in
           Ok (match dict_get ext LANG_MAP with
               | Some ((_ :: _) as lang) => dict_add lang 1 (languages l)
               | _ => languages l
               end,
               if pystr_eqb name (py "Edit") || pystr_eqb name (py "Write")
               then {[ path ]} ∪ files_modified l else files_modified l)
       | _ => Raised
       end
     else Ok (languages l, files_modified l));
  written ←
    (if pystr_eqb name (py "Write")
     then line_count (input_get (py "content") inp) else Ok 0);
  edited ←
    (if pystr_eqb name (py "Edit") then
       old_lines ← line_count (input_get (py "old_string") inp);
       new_lines ← line_count (input_get (py "new_string") inp);
       Ok (Z.max 0 (new_lines - old_lines), Z.max 0 (old_lines - new_lines))
     else Ok (0, 0));
  let cmd := input_get (py "command") inp in
  commit ← mentions (py "git commit") cmd;
  push ← mentions (py "git push") cmd;
  Ok {| tool_counts := tool_counts l;
        languages := fst file_part;
        git_commits := git_commits l + (if commit : bool then 1 else 0);
        git_pushes := git_pushes l + (if push : bool then 1 else 0);
        uses_task := uses_task l;
        uses_mcp := uses_mcp l;
        uses_web_search := uses_web_search l;
        uses_web_fetch := uses_web_fetch l;
        lines_added := lines_added l + written + fst edited;
        lines_removed := lines_removed l + snd edited;
        files_modified := snd file_part |}.

(** The body of [for item in content] for an item that is a tool use.
    The name must be a string: any other value fails at
    [name.startswith] (or before, when it cannot be a key). *)
Definition count_tool_use (d : list (pystr * json)) (l : tool_locals)
  : result tool_locals :=
  match default (JStr []) (dict_get (py "name") d) with
  | JStr name =>
      let l1 :=
        {| tool_counts := dict_add name 1 (tool_counts l);
           languages := languages l;
           git_commits := git_commits l;
           git_pushes := git_pushes l;
           uses_task := uses_task l || pystr_eqb name (py "Task");
           uses_mcp := uses_mcp l || starts_with (py "mcp__") name;
           uses_web_search := uses_web_search l || pystr_eqb name (py "WebSearch");
           uses_web_fetch := uses_web_fetch l || pystr_eqb name (py "WebFetch");
           lines_added := lines_added l;
           lines_removed := lines_removed l;
           files_modified := files_modified l |} in
      match default (JObj []) (dict_get (py "input") d) with
      | JObj inp => count_tool_input name inp l1
      | _ => Ok l1
      end
  | _ => Raised
  end.

(** [isinstance(item, dict) and item.get("type") == "tool_use"] *)
Definition tool_use_of (item : json) : option (list (pystr * json)) :=
  match item with
  | JObj d =>
      match dict_get (py "type") d with
      | Some (JStr t) => if pystr_eqb t (py "tool_use") then Some d else None
      | _ => None
      end
  | _ => None
  end.

Definition count_item (l : result tool_locals) (item : json)
  : result tool_locals :=
  l0 ← l;
  match tool_use_of item with
  | Some d => count_tool_use d l0
  | None => Ok l0
  end.

(** [for item in content] over the content list of an assistant
    record. *)
Definition count_tool_uses (content : list json) (l : tool_locals)
  : result tool_locals :=
  fold_left count_item content (Ok l).

(** ** Definitions for the properties

    Readings of the specification, invariants and sample inputs that the
    statements below use. *)

(** The classifier as the specification words it: a table of categories
    in priority order, each with the texts that select it, and a
    fallback. *)
Definition error_priority : list (pystr * list pystr) :=
  [ (py "Command Failed", [py "exit code"]);
    (py "User Rejected", [py "rejected"; py "doesn't want"]);
    (py "Edit Failed", [py "string to replace not found"; py "no changes"]);
    (py "File Changed", [py "modified since read"]);
    (py "File Too Large", [py "exceeds maximum"; py "too large"]);
    (py "File Not Found", [py "file not found"; py "does not exist"]) ].

Fixpoint first_matching (table : list (pystr * list pystr)) (fallback text : pystr)
  : pystr :=
  match table with
  | [] => fallback
  | (category, patterns) :: table' =>
      if existsb (fun p => contains p text) patterns then category
      else first_matching table' fallback text
  end.

Definition no_pattern_matches (table : list (pystr * list pystr)) (text : pystr)
  : Prop :=
  Forall (fun row => Forall (fun p => contains p text = false) (snd row)) table.

(** The text a user record counts with, if any: a non-blank string, or
    the first non-blank text block of a content list. *)
Fixpoint first_text (items : list block) : option pystr :=
  match items with
  | [] => None
  | BText (Some text) :: items' =>
      if nonblank text then Some text else first_text items'
  | _ :: items' => first_text items'
  end.

Definition user_text (msg : message) : option pystr :=
  match msg_type msg, msg_content msg with
  | User, Some (CStr s) => if nonblank s then Some s else None
  | User, Some (CBlocks items) => first_text items
  | _, _ => None
  end.

(** The timestamp [last_assistant_ts] holds after [messages]: that of the
    latest assistant record with a message and a timestamp. *)
Definition last_assistant_turn (messages : list message) : timestamp :=
  fold_left (fun acc msg =>
               match msg_type msg, msg_content msg with
               | Assistant, Some _ =>
                   if ts_truthy (msg_timestamp msg) then msg_timestamp msg else acc
               | _, _ => acc
               end) messages TsNone.

(** What the loop over a content list leaves untouched. *)
Definition same_turn_state (l l' : locals) : Prop :=
  user_msg_count l' = user_msg_count l
  /\ assistant_msg_count l' = assistant_msg_count l
  /\ last_assistant_ts l' = last_assistant_ts l
  /\ first_prompt l' = first_prompt l
  /\ start_time l' = start_time l
  /\ end_time l' = end_time l
  /\ response_times l' = response_times l.

(** Case analysis on the scrutinee of the match or test a parsing
    hypothesis is stuck on. *)
Ltac parse_case H :=
  match type of H with
  | context [match ?x with _ => _ end] =>
      lazymatch x with
      | context [match _ with _ => _ end] => fail
      | _ => let E := fresh "E" in destruct x eqn:E; try discriminate H
      end
  end.

Definition sample_time (seconds : Z) : timestamp :=
  TsAt {| aware := true; micros := seconds * 1000000;
          isoformat := py "2026-02-01T10:00:00+00:00" |}.

Definition user_turn (text : string) (seconds : Z) : message :=
  {| msg_type := User; msg_timestamp := sample_time seconds;
     msg_content := Some (CStr (py text)) |}.

Definition assistant_turn (items : list block) (seconds : Z) : message :=
  {| msg_type := Assistant; msg_timestamp := sample_time seconds;
     msg_content := Some (CBlocks items) |}.

(** Two user turns 25 seconds apart around one assistant turn. *)
Definition sample_session (sid : string) : session :=
  {| session_id := py sid; project := py "demo";
     messages :=
       [user_turn "fix the failing test" 0;
        assistant_turn [BText (Some (py "done")); BToolUse (Some (py "Edit"))] 20;
        user_turn "thanks" 25] |}.

Definition sample_metrics (sid : string) : metrics :=
  {| sm_session_id := py sid; sm_project_path := py "demo";
     sm_start_time := py "2026-02-01T10:00:00+00:00";
     sm_duration_minutes := 1; sm_user_message_count := 2;
     sm_assistant_message_count := 1;
     sm_first_prompt := py "fix the failing test";
     sm_user_response_times := [5 * 1000000];
     sm_tool_errors := 0; sm_tool_error_categories := [] |}.

(** The schema that [FACET_SCHEMA] documents: the four enumerations with
    their closed sets, and the three count maps. *)
Definition OUTCOMES : list pystr :=
  [py "fully_achieved"; py "mostly_achieved"; py "partially_achieved";
   py "not_achieved"; py "unclear_from_transcript"].
Definition HELPFULNESS : list pystr :=
  [py "unhelpful"; py "slightly_helpful"; py "moderately_helpful";
   py "very_helpful"; py "essential"].
Definition SESSION_TYPES : list pystr :=
  [py "single_task"; py "multi_task"; py "iterative_refinement";
   py "exploration"; py "quick_question"].
Definition PRIMARY_SUCCESS : list pystr :=
  [py "none"; py "fast_accurate_search"; py "correct_code_edits";
   py "good_explanations"; py "proactive_help"; py "multi_file_changes";
   py "good_debugging"].

Definition enum_ok (key : pystr) (allowed : list pystr) (d : list (pystr * json))
  : bool :=
  match dict_get key d with
  | Some (JStr s) => existsb (pystr_eqb s) allowed
  | _ => false
  end.

Definition counts_ok (key : pystr) (d : list (pystr * json)) : bool :=
  match dict_get key d with
  | Some (JObj counts) =>
      forallb (fun kv => match snd kv with
                         | JInt n => 0 <=? n
                         | _ => false
                         end) counts
  | _ => false
  end.

Definition well_typed_facet (facet : json) : bool :=
  match facet with
  | JObj d =>
      enum_ok (py "outcome") OUTCOMES d
      && enum_ok (py "claude_helpfulness") HELPFULNESS d
      && enum_ok (py "session_type") SESSION_TYPES d
      && enum_ok (py "primary_success") PRIMARY_SUCCESS d
      && counts_ok (py "goal_categories") d
      && counts_ok (py "user_satisfaction_counts") d
      && counts_ok (py "friction_counts") d
  | _ => false
  end.

(** A collaborator that answers every request with an object outside the
    schema. *)
Definition off_schema_client (_ : request) : response :=
  Text (py "Here you go: {`outcome`: `banana`, `goal_categories`: {`fix_bug`: -3}}").

Definition off_schema_facet : json :=
  JObj [(py "outcome", JStr (py "banana"));
        (py "goal_categories", JObj [(py "fix_bug", JInt (-3))]);
        (py "session_id", JStr (py "0f3a9c2e"))].

(** A facet to overwrite an entry with, and the entry. *)
Definition sample_facet (outcome : string) : json :=
  JObj [(py "outcome", JStr (py outcome));
        (py "session_id", JStr (py "0f3a9c2e"))].

Definition sample_cache : cache_dir :=
  {[ py "0f3a9c2e" := {| mode := 384;
                         data := json_dumps (sample_facet "not_achieved") |} ]}.

(** The cache after a write of the new facet that stops after [n] system
    calls. *)
Definition cache_of_save (n : nat) : cache_dir :=
  match save_facet_interrupted n (sample_facet "fully_achieved") sample_cache with
  | Ok c => c
  | Raised => ∅
  end.

Definition final_state (r : run_result) : run_state :=
  match r with
  | Completed st _ _ | Failed st => st
  end.

(** A completed future of a batch that does not concern [sid]. *)
Definition foreign_future (sid : pystr) (done : pystr * result (option json))
  : Prop :=
  fst done <> sid
  /\ forall facet, snd done = Ok (Some facet) ->
                   facet_session_id facet = Ok (fst done).

(** What a step of the run leaves as it is for [sid]. *)
Definition untouched (sid : pystr) (st st' : run_state) : Prop :=
  facets_map st' !! sid = facets_map st !! sid
  /\ cache st' !! sid = cache st !! sid
  /\ forall req, (sid, req) ∈ calls st' -> (sid, req) ∈ calls st.

(** An item to extract that is not the session [sid]. *)
Definition foreign_item (sid : pystr) (item : session * metrics) : Prop :=
  session_id (fst item) <> sid.

(** What the scan keeps true when the cache holds the facet [v] for
    [sid]: the session is not queued for extraction, and once it is kept
    its facet is [v]. *)
Definition scan_reuses (sid : pystr) (v : json) (sc : scan_state) : Prop :=
  Forall (foreign_item sid) (sessions_needing_facets sc)
  /\ (forall m, m ∈ all_metrics sc -> sm_session_id m = sid ->
                cached_facets sc !! sid = Some v).

(** A collaborator that always answers with a facet of the schema. *)
Definition schema_client (_ : request) : response :=
  Text (py "{`underlying_goal`: `make the test pass`,
 `goal_categories`: {`fix_bug`: 1}, `outcome`: `fully_achieved`,
 `user_satisfaction_counts`: {`satisfied`: 1},
 `claude_helpfulness`: `very_helpful`, `session_type`: `single_task`,
 `friction_counts`: {}, `friction_detail`: ``,
 `primary_success`: `correct_code_edits`,
 `brief_summary`: `The test was fixed.`}").

(** A cache whose entry for one session is unreadable as JSON and may
    not be written (mode 0400). *)
Definition locked_cache : cache_dir :=
  {[ py "deadbeef" := {| mode := 256; data := py "{" |} ]}.

(** A session with an assistant text block that has no text. *)
Definition untexted_session : session :=
  {| session_id := py "deadbeef"; project := py "demo";
     messages := [user_turn "fix the failing test" 0;
                  assistant_turn [BText None] 20;
                  user_turn "thanks" 25] |}.

(** The text after a value inside an object or an array starts with
    whitespace, a comma or a closing bracket. *)
Definition delimited (r : pystr) : bool :=
  match r with
  | c :: _ => is_ws c || (c =? 44)%N || (c =? 125)%N || (c =? 93)%N
  | [] => false
  end.

Ltac reduce_in H := cbn [app] in H |- *; cbv beta match in H |- *.

(** [P'] reads from a longer text what [P] reads. *)
Definition extends {A} (P P' : parser A) (post : pystr) : Prop :=
  forall s v r, P s = Some (v, r) -> P' (s ++ post) = Some (v, r ++ post).

(** The same for a value, which must be followed by a delimiter or be an
    object: a number is read as far as it goes. *)
Definition extends_value (P P' : parser json) (post : pystr) : Prop :=
  forall s v r,
    P s = Some (v, r) ->
    delimited r = true \/ head s = Some 123%N ->
    P' (s ++ post) = Some (v, r ++ post).

(** What a parser reads with some fuel is shorter than its input and is
    read again with any fuel above the number of characters read. *)
Definition enough {A} (P : parser A) (Q : nat -> parser A) : Prop :=
  forall s v r,
    P s = Some (v, r) ->
    (length r < length s)%nat
    /\ forall m, (length s - length r < m)%nat -> Q m s = Some (v, r).

(** ** Definitions for the further properties *)

(** The sum of the counts of a counter dict. *)
Definition dict_total (d : list (pystr * Z)) : Z :=
  foldr (fun kv acc => snd kv + acc) 0 d.

(** The seven categories of a failed tool call. *)
Definition ERROR_CATEGORIES : list pystr :=
  [py "Command Failed"; py "User Rejected"; py "Edit Failed"; py "File Changed";
   py "File Too Large"; py "File Not Found"; py "Other"].

(** A record none of whose failed tool results has a content that is not
    text. *)
Definition errors_have_text (msg : message) : Prop :=
  forall items, msg_content msg = Some (CBlocks items) ->
                BToolResult true None ∉ items.

(** What the counters of failed tool calls keep true. *)
Definition error_counts_ok (l : locals) : Prop :=
  dict_total (tool_error_categories l) <= tool_errors l
  /\ Forall (fun k => k ∈ ERROR_CATEGORIES) (tool_error_categories l).*1
  /\ Forall (fun n => 1 <= n) (tool_error_categories l).*2
  /\ NoDup (tool_error_categories l).*1.

(** The parsed timestamp of a user turn that counts: a user record with
    text whose timestamp parses. *)
Definition timed_turn (msg : message) : option datetime :=
  match user_text msg with
  | Some _ =>
      if ts_truthy (msg_timestamp msg) then fromisoformat (msg_timestamp msg)
      else None
  | None => None
  end.

(** A content list with a text block that has no text. *)
Definition untexted (msg : message) : Prop :=
  msg_type msg <> System
  /\ exists items, msg_content msg = Some (CBlocks items) /\ BText None ∈ items.

(** The chunk a summarization request carries after the fixed prompt. *)
Definition chunk_of_request (req : request) : pystr :=
  drop (length SUMMARIZE_PROMPT) (prompt req).

(** A user record whose content is the text [text]. *)
Definition prompt_record (ts : timestamp) (text : pystr) : message :=
  {| msg_type := User; msg_timestamp := ts; msg_content := Some (CStr text) |}.

(** [cached = load_cached_facet(sid)] as [if cached:] reads it: the
    decoded entry when it is truthy. *)
Definition cache_hit (cache : cache_dir) (sid : pystr) : option json :=
  match load_cached_facet cache sid with
  | Some v => if truthy v then Some v else None
  | None => None
  end.

(** What the scan keeps true of its three results, [seen] being the
    sessions gone through. *)
Definition scan_ok (cache : cache_dir) (seen : list session) (sc : scan_state)
  : Prop :=
  (forall m, m ∈ all_metrics sc ->
     is_trivial m = false
     /\ cached_facets sc !! sm_session_id m = cache_hit cache (sm_session_id m)
     /\ (cache_hit cache (sm_session_id m) = None ->
         exists sess, (sess, m) ∈ sessions_needing_facets sc))
  /\ (forall sess m, (sess, m) ∈ sessions_needing_facets sc ->
        sess ∈ seen /\ m ∈ all_metrics sc
        /\ extract_session_metrics (messages sess) (session_id sess) (project sess)
           = Ok m
        /\ cache_hit cache (session_id sess) = None)
  /\ (forall sid v, cached_facets sc !! sid = Some v ->
        exists m, m ∈ all_metrics sc /\ sm_session_id m = sid).

(** The calls that extracting the facet of one queued session makes,
    each with the session it is made for. *)
Definition calls_of (client : request -> response) (item : session * metrics)
  : list (pystr * request) :=
  map (pair (session_id (fst item)))
      (fst (extract_facets client (messages (fst item)) (session_id (fst item))
                           (snd item))).

(** What a run hands to the aggregation. *)
Definition kept_metrics (r : run_result) : list metrics :=
  match r with
  | Completed _ filtered_metrics _ => filtered_metrics
  | Failed _ => []
  end.

Definition kept_facets (r : run_result) : gmap pystr json :=
  match r with
  | Completed _ _ filtered_facets => filtered_facets
  | Failed _ => ∅
  end.

(** A code point that a Python string can hold and that is not the first
    half of a surrogate pair. *)
Definition plain_char (c : N) : bool :=
  (c <? 1114112)%N && negb (is_high_surrogate c).

Definition plain_text (s : pystr) : bool := forallb plain_char s.

(** What follows a value in the text [json.dump] writes: nothing, a
    newline or a comma. *)
Definition closes (r : pystr) : bool :=
  match r with
  | [] => true
  | c :: _ => (c =? 10)%N || (c =? 44)%N
  end.

(** Linear arithmetic with divisions by constants. *)
Ltac div_lia := zify; Z.to_euclidean_division_equations; lia.

(** The text [json.dump] writes for a value at a nesting level. *)
Definition enc (level : nat) (v : json) : pystr := concat (iterencode level v).

(** The text after the first item of an array, and after the first
    member of an object, up to the closing bracket. *)
Fixpoint arr_rest (level : nat) (items : list json) : pystr :=
  match items with
  | [] => newline_indent level ++ py "]"
  | v :: items' =>
      44%N :: newline_indent (S level) ++ enc (S level) v ++ arr_rest level items'
  end.

Fixpoint obj_rest (level : nat) (pairs : list (pystr * json)) : pystr :=
  match pairs with
  | [] => newline_indent level ++ py "}"
  | (key, v) :: pairs' =>
      44%N :: newline_indent (S level) ++ encode_basestring_ascii key ++ py ": "
      ++ enc (S level) v ++ obj_rest level pairs'
  end.

(** A value that [json.dump] writes and [json.load] reads back as it
    is: no float (a float is written as its shortest repr, not as the
    text it was read from), strings and keys of plain characters, and
    the keys of an object distinct, as in a dict. *)
Fixpoint storable (v : json) : bool :=
  match v with
  | JNull | JBool _ | JInt _ => true
  | JFloat _ => false
  | JStr s => plain_text s
  | JArr items => forallb storable items
  | JObj pairs =>
      forallb (fun kv => plain_text (fst kv) && storable (snd kv)) pairs
      && bool_decide (NoDup pairs.*1)
  end.

(** Induction on a JSON value, with the property for the items of an
    array and the values of an object. *)
Definition json_nested_ind (P : json -> Prop)
    (HNull : P JNull) (HBool : forall b, P (JBool b)) (HInt : forall n, P (JInt n))
    (HFloat : forall x, P (JFloat x)) (HStr : forall s, P (JStr s))
    (HArr : forall items, Forall P items -> P (JArr items))
    (HObj : forall pairs, Forall (fun kv => P (snd kv)) pairs -> P (JObj pairs))
  : forall v, P v :=
  fix go (v : json) : P v :=
    match v with
    | JNull => HNull
    | JBool b => HBool b
    | JInt n => HInt n
    | JFloat x => HFloat x
    | JStr s => HStr s
    | JArr items =>
        HArr items
             ((fix all (l : list json) : Forall P l :=
                 match l with
                 | [] => @List.Forall_nil _ P
                 | x :: l' => @List.Forall_cons _ P x l' (go x) (all l')
                 end) items)
    | JObj pairs =>
        HObj pairs
             ((fix all (l : list (pystr * json))
                 : Forall (fun kv => P (snd kv)) l :=
                 match l with
                 | [] => @List.Forall_nil _ _
                 | kv :: l' =>
                     @List.Forall_cons _ (fun kv => P (snd kv)) kv l' (go (snd kv)) (all l')
                 end) pairs)
    end.

(** A parser with fuel reads [v] from [s] and leaves [r], whatever fuel
    it is given above some bound. *)
Definition reads {A} (Q : nat -> parser A) (s : pystr) (v : A) (r : pystr)
  : Prop :=
  exists N, forall m, (N <= m)%nat -> Q m s = Some (v, r).

(** The first character of a value: an ASCII character that is neither
    whitespace nor a closing bracket. *)
Definition starts_value (s : pystr) : bool :=
  match s with
  | c :: _ => negb (is_ws c) && negb (c =? 93)%N && (c <? 128)%N
  | [] => false
  end.

(** What the induction on a value gives for its parts: a stored value is
    read back wherever it is written. *)
Definition readable (x : json) : Prop :=
  storable x = true ->
  forall level' r', closes r' = true ->
                    reads scan_once (enc level' x ++ r') x r'.

(** The limits of the runtime that the encoder and the decoder above
    leave out: the conversion between [int] and [str] refuses more than
    4300 digits, and both recurse once per nesting level, which [depth]
    bounds. *)
Fixpoint within_limits (depth : nat) (v : json) : bool :=
  match v with
  | JInt n => Z.abs n <? 10 ^ 4300
  | JArr items =>
      match depth with
      | O => false
      | S d => forallb (within_limits d) items
      end
  | JObj pairs =>
      match depth with
      | O => false
      | S d => forallb (fun kv => within_limits d (snd kv)) pairs
      end
  | _ => true
  end.

(** A nesting depth far below the recursion limit of the interpreter. *)
Definition MAX_NESTING : nat := 100.

(** The same limits on a text that is given to the decoder: no run of
    more than [limit] digits, so no integer literal that the conversion
    refuses, and at most [MAX_NESTING] opening brackets and braces, so no
    deeper nesting. *)
Fixpoint digit_runs_within (limit run : nat) (s : pystr) : bool :=
  match s with
  | [] => true
  | c :: s' =>
      if is_digit c
      then (S run <=? limit)%nat && digit_runs_within limit (S run) s'
      else digit_runs_within limit 0 s'
  end.

Definition text_within_limits (s : pystr) : bool :=
  digit_runs_within 4300 0 s
  && (length (List.filter (fun c => (c =? 91) || (c =? 123))%N s)
      <=? MAX_NESTING)%nat.

(** The state of a run after the facet of one session has come back. *)
Definition after_collect (st : run_state) (sid : pystr) (facet : json)
  : run_state :=
  state_of (collect (Running st) (sid, Ok (Some facet))).

(** The loop over the assistant records of a session, each given by its
    content list. *)
Definition count_session_tools (contents : list (list json))
  : result tool_locals :=
  fold_left (fun r content => l ← r; count_tool_uses content l) contents
            (Ok initial_tool_locals).

(** The count a counter dict holds for a key. *)
Definition count_of (k : pystr) (d : list (pystr * Z)) : Z :=
  default 0 (dict_get k d).

(** What the loop over the tool uses keeps true, [n] being the number of
    tool uses counted so far. *)
Definition tools_ok (n : Z) (l : tool_locals) : Prop :=
  dict_total (tool_counts l) = n
  /\ Forall (fun c => 1 <= c) (tool_counts l).*2
  /\ NoDup (tool_counts l).*1
  /\ (uses_task l = true <-> py "Task" ∈ (tool_counts l).*1)
  /\ (uses_web_search l = true <-> py "WebSearch" ∈ (tool_counts l).*1)
  /\ (uses_web_fetch l = true <-> py "WebFetch" ∈ (tool_counts l).*1)
  /\ (uses_mcp l = true
      <-> Exists (fun k => starts_with (py "mcp__") k = true) (tool_counts l).*1)
  /\ 0 <= lines_added l /\ 0 <= lines_removed l
  /\ 0 <= git_commits l <= n /\ 0 <= git_pushes l <= n
  /\ 0 <= dict_total (languages l) <= n
  /\ Z.of_nat (size (files_modified l))
     <= count_of (py "Edit") (tool_counts l) + count_of (py "Write") (tool_counts l).

(** A session in which two tool calls fail, one of them without a text
    content, before the user goes on. *)
Definition failing_messages : list message :=
  [user_turn "run the tests" 0;
   assistant_turn [BToolUse (Some (py "Bash"))] 5;
   {| msg_type := User; msg_timestamp := sample_time 9;
      msg_content :=
        Some (CBlocks [BToolResult true (Some (py "Exit code 1"));
                       BToolResult true None;
                       BText (Some (py "try again"))]) |}].

(** What the scan leaves, [empty_scan] standing for a scan that an
    exception ended. *)
Definition scan_of (cache : cache_dir) (sessions : list session) : scan_state :=
  match scan_sessions cache empty_scan sessions with
  | Ok sc => sc
  | Raised => empty_scan
  end.

(** The content lists of two assistant records: an edit and a commit,
    then a call of an MCP tool. *)
Definition sample_contents : list (list json) :=
  [ [ JObj [(py "type", JStr (py "tool_use")); (py "name", JStr (py "Edit"));
            (py "input",
             JObj [(py "file_path", JStr (py "src/app.py"));
                   (py "old_string", JStr (py "a"));
                   (py "new_string", JStr (py "a
b"))])];
      JObj [(py "type", JStr (py "text")); (py "text", JStr (py "done"))];
      JObj [(py "type", JStr (py "tool_use")); (py "name", JStr (py "Bash"));
            (py "input", JObj [(py "command", JStr (py "git commit -m fix"))])] ];
    [ JObj [(py "type", JStr (py "tool_use"));
            (py "name", JStr (py "mcp__github__create_pr"))] ] ].

(** The counters after a session, the initial ones standing for an
    exception. *)
Definition session_tools (contents : list (list json)) : tool_locals :=
  match count_session_tools contents with
  | Ok l => l
  | Raised => initial_tool_locals
  end.

(** A user record whose content is a list of blocks. *)
Definition user_blocks (items : list block) (seconds : Z) : message :=
  {| msg_type := User; msg_timestamp := sample_time seconds;
     msg_content := Some (CBlocks items) |}.

(** A user turn whose timestamp carries no UTC offset. *)
Definition naive_turn (text : string) (seconds : Z) : message :=
  {| msg_type := User;
     msg_timestamp := TsAt {| aware := false; micros := seconds * 1000000;
                              isoformat := py "2026-02-01T10:00:00" |};
     msg_content := Some (CStr (py text)) |}.

(** A facet whose only active goal category is the warmup one, and a
    cache that holds it for the sample session. *)
Definition warmup_facet : json :=
  JObj [(py "goal_categories", JObj [(py "warmup_minimal", JInt 1)]);
        (py "session_id", JStr (py "0f3a9c2e"))].

Definition warmup_cache : cache_dir :=
  {[ py "0f3a9c2e" := {| mode := 384; data := json_dumps warmup_facet |} ]}.

(** Three user turns, the second of which quotes the pipeline's own
    prompt. *)
Definition marker_session : session :=
  {| session_id := py "5ca1ab1e"; project := py "demo";
     messages :=
       [user_turn "what does this prompt do" 0;
        user_turn "RESPOND WITH ONLY A VALID JSON OBJECT matching this schema" 60;
        user_turn "thanks" 120] |}.

(** One user turn, ten minutes before the assistant's answer. *)
Definition one_turn_session : session :=
  {| session_id := py "deadbeef"; project := py "demo";
     messages := [user_turn "fix the failing test" 0;
                  assistant_turn [BText (Some (py "done"))] 600] |}.

(** * Properties *)

(** ** The chunker *)

Lemma py_range_0 (stop step : nat) :
  py_range 0 stop step
  = map (fun k => k * step)%nat (seq 0 ((stop + (step - 1)) / step)%nat).
Proof.
  unfold py_range. rewrite Nat.sub_0_r. apply map_ext. intros k. lia.
Qed.

Lemma ceil_div_bounds (n c : nat) :
  (1 <= c)%nat ->
  (n <= (n + (c - 1)) / c * c /\ (n + (c - 1)) / c * c < n + c)%nat.
Proof.
  intros Hc.
  pose proof (Nat.div_mod_eq (n + (c - 1)) c) as Hdm.
  pose proof (Nat.mod_upper_bound (n + (c - 1)) c ltac:(lia)) as Hm.
  nia.
Qed.

Lemma concat_slices {A} (c : nat) (t : list A) (n : nat) :
  concat (map (fun i => slice t i (i + c)) (map (fun k => k * c)%nat (seq 0 n)))
  = take (n * c) t.
Proof.
  induction n as [|n IH].
  - reflexivity.
  - rewrite seq_S, !map_app, concat_app, IH. simpl.
    rewrite app_nil_r. unfold slice.
    replace (n * c + c - n * c)%nat with c by lia.
    rewrite take_take_drop. f_equal. lia.
Qed.

Lemma chunks_of_lookup {A} (c : nat) (t : list A) (i : nat) (chunk : list A) :
  chunks_of c t !! i = Some chunk ->
  chunk = take c (drop (i * c) t)
  /\ (i < (length t + (c - 1)) / c)%nat.
Proof.
  unfold chunks_of. rewrite py_range_0, !list_lookup_fmap.
  destruct (seq 0 ((length t + (c - 1)) / c) !! i) as [k|] eqn:Hk;
    simpl; [|discriminate].
  apply lookup_seq in Hk as [-> Hlt]. intros [= <-].
  split; [|lia]. unfold slice. f_equal. lia.
Qed.

(** C6. For every transcript and every chunk size of at least one
    character, the chunks are the consecutive slices of exactly that many
    characters, the last one possibly shorter but never empty, and their
    concatenation is the transcript. *)
Theorem chunking_round_trip {A} (c : nat) (transcript : list A) :
  (1 <= c)%nat ->
  concat (chunks_of c transcript) = transcript
  /\ length (chunks_of c transcript) = ((length transcript + (c - 1)) / c)%nat
  /\ forall i chunk,
       chunks_of c transcript !! i = Some chunk ->
       chunk = take c (drop (i * c) transcript)
       /\ (1 <= length chunk <= c)%nat
       /\ ((S i < length (chunks_of c transcript))%nat -> length chunk = c).
Proof.
  intros Hc.
  pose proof (ceil_div_bounds (length transcript) c Hc) as [Hlo Hhi].
  assert (Hlen : length (chunks_of c transcript)
                 = ((length transcript + (c - 1)) / c)%nat).
  { unfold chunks_of. rewrite py_range_0, !length_map, length_seq. done. }
  split; [|split; [exact Hlen|]].
  - unfold chunks_of. rewrite py_range_0, concat_slices.
    apply take_ge. lia.
  - intros i chunk Hi.
    apply chunks_of_lookup in Hi as [-> Hlt].
    rewrite length_take, length_drop, Hlen.
    split; [done|]. split; [nia|]. intros Hnext. nia.
Qed.

Lemma chunking_round_trip_witness :
  concat (chunks_of 3 (py "abcdefgh")) = py "abcdefgh"
  /\ chunks_of 3 (py "abcdefgh") = [py "abc"; py "def"; py "gh"].
Proof.
  split.
  - apply (chunking_round_trip 3 (py "abcdefgh")). lia.
  - reflexivity.
Defined.

(** ** Dictionaries *)

Lemma pystr_eqb_eq (a b : pystr) : pystr_eqb a b = true <-> a = b.
Proof. unfold pystr_eqb. apply bool_decide_eq_true. Qed.

Lemma dict_get_set {V} (k k' : pystr) (v : V) (d : list (pystr * V)) :
  dict_get k (dict_set k' v d) = if pystr_eqb k' k then Some v else dict_get k d.
Proof.
  unfold pystr_eqb.
  induction d as [|[k0 v0] d IH]; simpl; [reflexivity|].
  unfold pystr_eqb.
  destruct (decide (k0 = k')) as [->|Hne].
  - rewrite bool_decide_eq_true_2 by done. simpl. unfold pystr_eqb.
    destruct (bool_decide (k' = k)); reflexivity.
  - rewrite bool_decide_eq_false_2 by done. simpl. unfold pystr_eqb.
    rewrite IH.
    destruct (decide (k0 = k)) as [->|Hne'].
    + rewrite bool_decide_eq_true_2 by done.
      rewrite (bool_decide_eq_false_2 (k' = k)) by congruence.
      reflexivity.
    + rewrite (bool_decide_eq_false_2 (k0 = k)) by done. reflexivity.
Qed.


(** ** Tool-error categories *)

Lemma categorize_lowered_table (text : pystr) :
  categorize_lowered text = first_matching error_priority (py "Other") text.
Proof.
  unfold categorize_lowered, error_priority, first_matching, existsb.
  repeat match goal with
         | |- context [contains ?p text] => destruct (contains p text); simpl
         end; reflexivity.
Qed.

Lemma first_matching_fallback table fallback text :
  Forall (fun row => fst row <> fallback) table ->
  first_matching table fallback text = fallback <-> no_pattern_matches table text.
Proof.
  unfold no_pattern_matches.
  induction table as [|[category patterns] table IH]; simpl; intros Hne.
  - split; [constructor|reflexivity].
  - apply Forall_cons in Hne as [Hc Hne]. simpl in Hc.
    destruct (existsb _ patterns) eqn:E.
    + split; [intros; contradiction|].
      intros [Hp _]%Forall_cons. simpl in Hp.
      apply existsb_exists in E as (p & Hin & Hp').
      rewrite Forall_forall in Hp. rewrite (Hp p) in Hp'; [discriminate|].
      by apply list_elem_of_In.
    + rewrite IH by done. rewrite Forall_cons. simpl.
      split; [intros H; split; [|done]|intros [_ H]; done].
      apply Forall_forall. intros p Hin.
      destruct (contains p text) eqn:Hp; [|done].
      assert (existsb (fun p => contains p text) patterns = true); [|congruence].
      apply existsb_exists. exists p. split; [by apply list_elem_of_In|done].
Qed.

(** X19. The classifier gives a failed tool result with a text message
    exactly one category: the first one, in the fixed priority order, one
    of whose patterns occurs in the lowered message; the fallback
    category is chosen exactly when no pattern occurs.  Counting such a
    result adds one to that category, to no other, and to the total; the
    loop over a user record counts a failed result that it comes to. *)
Theorem tool_error_categorization (err_content : pystr) :
  categorize err_content
  = first_matching error_priority (py "Other") (str_lower err_content)
  /\ (categorize err_content = py "Other"
      <-> no_pattern_matches error_priority (str_lower err_content))
  /\ forall (l : locals) (category : pystr),
       default 0 (dict_get category
                    (tool_error_categories (count_tool_error (Some err_content) l)))
       = default 0 (dict_get category (tool_error_categories l))
         + (if pystr_eqb (categorize err_content) category then 1 else 0)
       /\ tool_errors (count_tool_error (Some err_content) l) = tool_errors l + 1
       /\ forall items,
            scan_user_items (BToolResult true (Some err_content) :: items) l
            = scan_user_items items (count_tool_error (Some err_content) l).
Proof.
  split; [apply categorize_lowered_table|]. split.
  - unfold categorize. rewrite categorize_lowered_table.
    apply first_matching_fallback.
    repeat constructor; simpl; by vm_compute.
  - intros l category. split; [|split; reflexivity]. simpl. unfold dict_add.
    rewrite dict_get_set.
    destruct (pystr_eqb (categorize err_content) category) eqn:E.
    + apply pystr_eqb_eq in E as <-. reflexivity.
    + lia.
Qed.

Example rejected_edit_is_user_rejected :
  categorize (py "The user doesn't want to proceed: exit code unknown")
  = py "Command Failed"
  /\ categorize (py "Rejected: file not found") = py "User Rejected"
  /\ categorize (py "permission denied") = py "Other".
Proof. repeat split; by vm_compute. Qed.

(** C9 on the code: a failed tool result that comes after a text block
    in the content list of its record is neither counted nor given a
    category, because the [break] that ends the search for the text of
    the record also ends the loop that counts the failed results; the
    same two blocks in the other order are counted. *)
Theorem tool_error_after_text_is_dropped :
  (exists m,
     extract_session_metrics
       [user_blocks [BText (Some (py "that did not work"));
                     BToolResult true (Some (py "Exit code 1"))] 0]
       (py "0f3a9c2e") (py "demo") = Ok m
     /\ sm_tool_errors m = 0 /\ sm_tool_error_categories m = [])
  /\ (exists m,
        extract_session_metrics
          [user_blocks [BToolResult true (Some (py "Exit code 1"));
                        BText (Some (py "that did not work"))] 0]
          (py "0f3a9c2e") (py "demo") = Ok m
        /\ sm_tool_errors m = 1
        /\ sm_tool_error_categories m = [(py "Command Failed", 1)])
  /\ categorize (py "Exit code 1") = py "Command Failed".
Proof.
  split; [|split]; [eexists; split; [vm_compute; reflexivity|by split]..|].
  by vm_compute.
Qed.

(** ** The loop of the metric extractor *)

Lemma scan_user_items_spec (items : list block) (l : locals) :
  fst (scan_user_items items l) = first_text items
  /\ same_turn_state l (snd (scan_user_items items l)).
Proof.
  revert l. induction items as [|item items IH]; intros l; simpl.
  - repeat split.
  - destruct item as [[text|]|name|[|] err|]; simpl; try apply IH.
    + destruct (nonblank text); simpl; [repeat split|apply IH].
    + destruct (IH (count_tool_error err l)) as [-> Hs]. split; [done|].
      unfold same_turn_state in *. simpl in Hs. exact Hs.
Qed.

Lemma fold_left_snoc {A B} (f : A -> B -> A) (l : list B) (x : B) (a : A) :
  fold_left f (l ++ [x]) a = f (fold_left f l a) x.
Proof. by rewrite fold_left_app. Qed.

Lemma metrics_step_last_assistant (l : locals) (msg : message) :
  last_assistant_ts (metrics_step l msg)
  = match msg_type msg, msg_content msg with
    | Assistant, Some _ =>
        if ts_truthy (msg_timestamp msg) then msg_timestamp msg
        else last_assistant_ts l
    | _, _ => last_assistant_ts l
    end.
Proof.
  unfold metrics_step.
  destruct (msg_type msg), (msg_content msg) as [c|]; simpl; try reflexivity.
  destruct c as [s|items|]; simpl.
  - destruct (nonblank s); reflexivity.
  - destruct (scan_user_items_spec items l) as [_ Hs].
    destruct (scan_user_items items l) as [[text|] l1]; simpl in *;
      apply Hs.
  - reflexivity.
Qed.

Lemma last_assistant_ts_fold (messages : list message) :
  last_assistant_ts (fold_left metrics_step messages initial_locals)
  = last_assistant_turn messages.
Proof.
  induction messages as [|msg messages IH] using rev_ind; [reflexivity|].
  unfold last_assistant_turn.
  rewrite !fold_left_snoc, metrics_step_last_assistant, IH. reflexivity.
Qed.

Lemma metrics_step_response_times (l : locals) (msg : message) :
  response_times (metrics_step l msg)
  = response_times l
    ++ match user_text msg with
       | Some _ =>
           if ts_truthy (msg_timestamp msg)
           then option_list (latency_sample (last_assistant_ts l) (msg_timestamp msg))
           else []
       | None => []
       end.
Proof.
  unfold metrics_step, user_text.
  destruct (msg_type msg), (msg_content msg) as [c|]; simpl;
    try (by rewrite app_nil_r).
  assert (Hrec : forall text l1,
             same_turn_state l l1 ->
             response_times (record_user_text text (msg_timestamp msg) l1)
             = response_times l
               ++ (if ts_truthy (msg_timestamp msg)
                   then option_list (latency_sample (last_assistant_ts l)
                                                    (msg_timestamp msg))
                   else [])).
  { intros text l1 (_ & _ & Hts & _ & _ & _ & Hrt). simpl. rewrite Hts, Hrt.
    destruct (ts_truthy (msg_timestamp msg)); [|by rewrite app_nil_r].
    destruct (latency_sample _ _); simpl; [done|by rewrite app_nil_r]. }
  destruct c as [s|items|]; simpl.
  - destruct (nonblank s); [|by rewrite app_nil_r].
    apply Hrec. repeat split.
  - destruct (scan_user_items_spec items l) as [Ht Hs].
    destruct (scan_user_items items l) as [text l1]; simpl in *.
    rewrite <- Ht. destruct text as [text|].
    + by apply Hrec.
    + destruct Hs as (_ & _ & _ & _ & _ & _ & ->). by rewrite app_nil_r.
  - by rewrite app_nil_r.
Qed.

(** The window test, spelled out. *)
Lemma latency_sample_Some (last_assistant ts : timestamp) (delta : Z) :
  latency_sample last_assistant ts = Some delta
  <-> exists at_ ut,
        last_assistant = TsAt at_ /\ ts = TsAt ut
        /\ aware ut = aware at_
        /\ delta = micros ut - micros at_
        /\ 2 * 1000000 < delta < 3600 * 1000000.
Proof.
  unfold latency_sample, datetime_sub.
  destruct last_assistant as [| |at_], ts as [| |ut]; simpl;
    try (split; [discriminate|intros (? & ? & ? & ? & _); discriminate]).
  destruct (Bool.eqb (aware ut) (aware at_)) eqn:Haw.
  - apply Bool.eqb_prop in Haw.
    destruct (2 * 1000000 <? micros ut - micros at_) eqn:Hlo;
      destruct (micros ut - micros at_ <? 3600 * 1000000) eqn:Hhi; simpl.
    1: { split.
         - intros [= <-]. exists at_, ut. repeat split; try done; lia.
         - intros (a & u & [= <-] & [= <-] & _ & -> & _). done. }
    all: split; [discriminate|].
    all: intros (a & u & [= <-] & [= <-] & _ & -> & Hw); lia.
  - apply Bool.eqb_false_iff in Haw.
    split; [discriminate|].
    intros (a & u & [= <-] & [= <-] & Ha & _). done.
Qed.

Lemma latency_sample_guard (last_assistant ts : timestamp) :
  (if ts_truthy ts then option_list (latency_sample last_assistant ts) else [])
  = option_list (latency_sample last_assistant ts).
Proof.
  destruct ts; simpl; try reflexivity.
  unfold latency_sample. destruct (ts_truthy last_assistant); [|reflexivity].
  destruct (fromisoformat last_assistant); reflexivity.
Qed.

Lemma snoc_option_list {A} (l : list A) (o : option A) (x : A) :
  l ++ option_list o = l ++ [x] <-> o = Some x.
Proof.
  split; [|intros ->; reflexivity].
  intros H%app_inv_head. destruct o; simpl in H; congruence.
Qed.

(** C8. Processing one more record adds a response-latency sample exactly
    when the record is a user turn with text and a timestamp, an earlier
    assistant turn left a timestamp, both parse and are comparable, and
    the time between them lies strictly between 2 and 3600 seconds; the
    sample is that time, and nothing is added otherwise.  Five seconds
    gives a sample; 4000 seconds, and the bounds 2 and 3600 themselves,
    give none. *)
Theorem latency_windowing (messages : list message) (msg : message) :
  let before := fold_left metrics_step messages initial_locals in
  let after := fold_left metrics_step (messages ++ [msg]) initial_locals in
  (forall delta,
     response_times after = response_times before ++ [delta]
     <-> is_Some (user_text msg)
         /\ exists at_ ut,
              last_assistant_turn messages = TsAt at_
              /\ msg_timestamp msg = TsAt ut
              /\ aware ut = aware at_
              /\ delta = micros ut - micros at_
              /\ 2 * 1000000 < delta < 3600 * 1000000)
  /\ (response_times after = response_times before
      \/ exists delta, response_times after = response_times before ++ [delta])
  /\ (forall at_ ut seconds,
        micros ut - micros at_ = seconds * 1000000 ->
        aware ut = aware at_ ->
        (seconds = 5 -> latency_sample (TsAt at_) (TsAt ut) = Some (5 * 1000000))
        /\ (seconds = 4000 \/ seconds = 2 \/ seconds = 3600 ->
            latency_sample (TsAt at_) (TsAt ut) = None)).
Proof.
  intros before after. subst before after.
  rewrite fold_left_snoc, metrics_step_response_times, last_assistant_ts_fold.
  rewrite latency_sample_guard.
  set (rt := response_times (fold_left metrics_step messages initial_locals)).
  set (sample := latency_sample (last_assistant_turn messages) (msg_timestamp msg)).
  split; [|split].
  - intros delta. rewrite <- (latency_sample_Some _ _ delta). fold sample.
    destruct (user_text msg) as [text|].
    + rewrite snoc_option_list. split; [eauto|tauto].
    + rewrite (snoc_option_list rt None delta).
      split; [discriminate|]. intros [[? [=]] _].
  - destruct (user_text msg); [|left; by rewrite app_nil_r].
    destruct sample as [d|]; simpl; [right; eauto|left; by rewrite app_nil_r].
  - intros at_ ut seconds Hd Haw. split.
    + intros ->. apply latency_sample_Some. exists at_, ut.
      repeat split; try done; lia.
    + intros Hs.
      destruct (latency_sample (TsAt at_) (TsAt ut)) as [d|] eqn:E; [|done].
      apply latency_sample_Some in E as (a & u & [= <-] & [= <-] & _ & -> & Hw).
      lia.
Qed.

(** ** Warmup filtering *)

Lemma filter_warmups_keeps (facets : gmap pystr json) (ms filtered : list metrics)
    (m : metrics) :
  filter_warmups facets ms = Ok filtered ->
  m ∈ ms ->
  is_warmup_only facets (sm_session_id m) = Ok false ->
  m ∈ filtered.
Proof.
  revert filtered. induction ms as [|m0 ms IH]; intros filtered; simpl.
  - intros _ Hin. by apply elem_of_nil in Hin.
  - destruct (is_warmup_only facets (sm_session_id m0)) as [w|] eqn:Hw;
      simpl; [|discriminate].
    destruct (filter_warmups facets ms) as [rest|]; simpl; [|discriminate].
    intros [= <-] [->|Hin]%elem_of_cons Hm.
    + rewrite Hm in Hw. injection Hw as <-. apply elem_of_cons. by left.
    + destruct w; [|apply elem_of_cons; right]; by apply IH.
Qed.

(** C10. A session id that has no entry in the facets map is not
    warmup-only, so in a run that reaches aggregation every kept session
    without a facet is among the metrics that are aggregated. *)
Theorem no_facet_never_warmup (facets : gmap pystr json) (sid : pystr) :
  facets !! sid = None ->
  is_warmup_only facets sid = Ok false
  /\ (forall ms filtered m,
        filter_warmups facets ms = Ok filtered ->
        m ∈ ms -> sm_session_id m = sid -> m ∈ filtered)
  /\ (forall as_completed client cache0 sessions sc st filtered_metrics
             filtered_facets m,
        scan_sessions cache0 empty_scan sessions = Ok sc ->
        main as_completed client cache0 sessions
        = Completed st filtered_metrics filtered_facets ->
        facets = facets_map st ->
        m ∈ all_metrics sc -> sm_session_id m = sid ->
        m ∈ filtered_metrics).
Proof.
  intros Hnone.
  assert (Hw : is_warmup_only facets sid = Ok false).
  { unfold is_warmup_only. by rewrite Hnone. }
  split; [exact Hw|]. split.
  - intros ms filtered m Hf Hin <-. by eapply filter_warmups_keeps.
  - intros as_completed client cache0 sessions sc st fm ff m Hsc Hmain -> Hin <-.
    unfold main in Hmain. rewrite Hsc in Hmain.
    destruct (extract_all _ _ _ _) as [st1|st1]; [|discriminate].
    destruct (filter_warmups _ _) as [filtered|] eqn:Hf; [|discriminate].
    injection Hmain as <- <- <-. by eapply filter_warmups_keeps.
Qed.

Lemma no_facet_never_warmup_witness :
  is_warmup_only ∅ (py "0f3a") = Ok false.
Proof.
  apply (no_facet_never_warmup ∅ (py "0f3a")). apply lookup_empty.
Defined.

(** ** What JSON recovery returns *)

Lemma find_char_Some (c : N) (s : pystr) (i : nat) :
  find_char c s = Some i ->
  exists pre post, s = pre ++ c :: post /\ length pre = i /\ (c ∉ pre)
                   /\ drop i s = c :: post.
Proof.
  revert i. induction s as [|x s IH]; intros i; simpl; [discriminate|].
  destruct (x =? c)%N eqn:E.
  - apply N.eqb_eq in E as ->. intros [= <-]. exists [], s.
    repeat split. apply not_elem_of_nil.
  - destruct (find_char c s) as [j|]; simpl; [|discriminate].
    intros [= <-]. destruct (IH j eq_refl) as (pre & post & -> & <- & Hnin & Hd).
    exists (x :: pre), post. repeat split; [|done].
    apply not_elem_of_cons. split; [|done].
    apply N.eqb_neq in E. congruence.
Qed.

Lemma find_char_None (c : N) (s : pystr) :
  find_char c s = None <-> c ∉ s.
Proof.
  induction s as [|x s IH]; simpl.
  - split; [intros _; apply not_elem_of_nil|done].
  - destruct (x =? c)%N eqn:E.
    + apply N.eqb_eq in E as ->. split; [discriminate|].
      intros H. exfalso. apply H. by left.
    + apply N.eqb_neq in E. rewrite not_elem_of_cons, <- IH.
      destruct (find_char c s); simpl; split; try done; try tauto.
      intros [_ [=]].
Qed.

Lemma object_members_JObj (fuel : nat) pairs s v r :
  object_members fuel pairs s = Some (v, r) -> exists d, v = JObj d.
Proof.
  revert pairs s. induction fuel as [|fuel IH]; intros pairs s H;
    cbn [object_members] in H; [discriminate|].
  unfold members_step in H.
  repeat parse_case H; subst; eauto.
  injection H as <- _. eauto.
Qed.

Lemma scan_once_brace (fuel : nat) rest v r :
  scan_once fuel (123%N :: rest) = Some (v, r) -> exists d, v = JObj d.
Proof.
  destruct fuel as [|fuel]; cbn [scan_once]; [discriminate|]. intros H.
  unfold scan_value in H. change (123 =? 34)%N with false in H.
  change (123 =? 123)%N with true in H. cbv iota in H.
  repeat parse_case H; subst.
  - injection H as <- _. eauto.
  - by eapply object_members_JObj.
Qed.

Lemma extract_json_object_dict (text : pystr) (v : json) :
  extract_json_object text = Some v -> exists d, v = JObj d.
Proof.
  unfold extract_json_object, raw_decode.
  destruct (find_char 123 text) as [idx|] eqn:Hf; [|discriminate].
  apply find_char_Some in Hf as (pre & post & _ & _ & _ & ->).
  destruct (scan_once _ _) as [[obj r]|] eqn:Hs; [|discriminate].
  intros [= <-]. by eapply scan_once_brace.
Qed.

(** ** Sample sessions *)

Example sample_session_metrics :
  extract_session_metrics (messages (sample_session "0f3a9c2e")) (py "0f3a9c2e")
                          (py "demo")
  = Ok (sample_metrics "0f3a9c2e").
Proof. reflexivity. Qed.

Example sample_session_is_kept :
  exists st,
    scan_session ∅ empty_scan (sample_session "0f3a9c2e") = Ok st
    /\ all_metrics st = [sample_metrics "0f3a9c2e"].
Proof. eexists. split; reflexivity. Qed.

Example single_user_turn_is_dropped :
  scan_session ∅ empty_scan
    {| session_id := py "0f3a9c2e"; project := py "demo";
       messages := [user_turn "fix the failing test" 0;
                    assistant_turn [BText (Some (py "done"))] 600] |}
  = Ok empty_scan.
Proof. reflexivity. Qed.

(** A reply 4000 seconds after the assistant turn leaves no sample, one
    after 5 seconds does. *)
Example late_reply_is_not_sampled :
  exists m,
    extract_session_metrics
      [user_turn "fix the failing test" 0;
       assistant_turn [BText (Some (py "done"))] 20;
       user_turn "are you there" 4020;
       assistant_turn [BText (Some (py "yes"))] 4030;
       user_turn "thanks" 4035] (py "0f3a9c2e") (py "demo") = Ok m
    /\ sm_user_response_times m = [5 * 1000000].
Proof. eexists. split; reflexivity. Qed.

(** ** Facets are not validated *)


Lemma facet_of_response_Some (sid : pystr) (r : response) (f : json) :
  facet_of_response sid r = Some f
  <-> exists text d,
        r = Text text
        /\ extract_json_object text = Some (JObj d)
        /\ d <> []
        /\ f = JObj (dict_set (py "session_id") (JStr sid) d).
Proof.
  unfold facet_of_response. split.
  - destruct r as [text|]; [|discriminate].
    destruct (extract_json_object text) as [v|] eqn:Hv; [|discriminate].
    destruct (extract_json_object_dict _ _ Hv) as [d ->].
    destruct d as [|kv d]; simpl; [discriminate|].
    intros [= <-]. exists text, (kv :: d). done.
  - intros (text & d & -> & -> & Hd & ->).
    destruct d; [done|reflexivity].
Qed.

Lemma extract_facets_shape (client : request -> response)
    (messages : list message) (sid : pystr) (m : metrics) :
  match serialize_transcript messages with
  | Raised => extract_facets client messages sid m = ([], Raised)
  | Ok _ =>
      exists calls req,
        extract_facets client messages sid m
        = (calls ++ [req], Ok (facet_of_response sid (client req)))
  end.
Proof.
  unfold extract_facets.
  destruct (serialize_transcript messages) as [transcript|]; [|reflexivity].
  destruct (summarize_long_transcript client _) as [calls text].
  eexists _, _. reflexivity.
Qed.



(** The off-schema facet is among the facets handed to the aggregation. *)
Example off_schema_facet_is_handed_over :
  kept_facets (main (fun l => l) off_schema_client ∅ [sample_session "0f3a9c2e"])
  !! py "0f3a9c2e"
  = Some off_schema_facet.
Proof. by vm_compute. Qed.


(** ** Writing a cache entry *)

Lemma fs_run_writes (path : pystr) (chunks : list pystr) (c : cache_dir) (f : file) :
  c !! path = Some f ->
  exists c',
    fs_run path (map Write chunks) c = Ok c'
    /\ c' !! path = Some {| mode := mode f; data := data f ++ concat chunks |}
    /\ forall k, k <> path -> c' !! k = c !! k.
Proof.
  revert c f. induction chunks as [|chunk chunks IH]; intros c f Hf.
  - exists c. rewrite app_nil_r. destruct f. done.
  - cbn [map fs_run fs_step]. cbn [mbind result_bind].
    edestruct (IH (alter (fun f => {| mode := mode f; data := data f ++ chunk |})
                         path c)) as (c' & Hrun & Hlook & Hother).
    { rewrite lookup_alter_eq, Hf. reflexivity. }
    exists c'. split; [exact Hrun|]. split.
    + rewrite Hlook. cbn [mode data concat]. by rewrite <- app_assoc.
    + intros k Hk. rewrite Hother by done. by rewrite lookup_alter_ne.
Qed.

Lemma open_trunc_spec (path : pystr) (c c1 : cache_dir) :
  fs_step path c OpenTrunc = Ok c1 ->
  c1 !! path = Some {| mode := match c !! path with
                               | Some f => mode f
                               | None => 384
                               end;
                       data := [] |}
  /\ (forall f, c !! path = Some f -> owner_writable f = true)
  /\ forall k, k <> path -> c1 !! k = c !! k.
Proof.
  unfold fs_step. destruct (c !! path) as [f|] eqn:Hf.
  - destruct (owner_writable f) eqn:Hw; [|discriminate]. intros [= <-].
    split; [apply lookup_insert_eq|]. split; [by intros ? [= <-]|].
    intros k Hk. by rewrite lookup_insert_ne.
  - intros [= <-]. split; [apply lookup_insert_eq|]. split; [discriminate|].
    intros k Hk. by rewrite lookup_insert_ne.
Qed.

(** C4, as stated, fails: cut short after the open, or after the first
    chunks, the write leaves an entry that is neither the previous facet
    nor the new one; the loader then finds no facet in it. *)
Lemma interrupted_save_leaves_partial_entry :
  (data <$> cache_of_save 1 !! py "0f3a9c2e" = Some []
   /\ data <$> cache_of_save 4 !! py "0f3a9c2e"
      = Some (py "{
  `outcome`")
   /\ load_cached_facet (cache_of_save 4) (py "0f3a9c2e") = None)
  /\ data <$> sample_cache !! py "0f3a9c2e"
     = Some (py "{
  `outcome`: `not_achieved`,
  `session_id`: `0f3a9c2e`
}")
  /\ json_dumps (sample_facet "fully_achieved")
     = py "{
  `outcome`: `fully_achieved`,
  `session_id`: `0f3a9c2e`
}".
Proof. repeat split; by vm_compute. Qed.

(** C4, amended. Persisting a facet creates the per-session entry with
    mode 0600, or empties the existing one (which keeps its mode and must
    be writable), and then writes the serialized facet into it in place;
    nothing is appended to the previous content and no other entry is
    touched.  Cut short after [n >= 1] system calls, the entry holds the
    chunks written so far, a prefix of the new text that may be empty or
    truncated; only a write that runs to its end leaves the complete new
    facet. *)
Theorem save_facet_overwrites_in_place
    (n : nat) (facet : json) (sid : pystr) (c c' : cache_dir) :
  facet_session_id facet = Ok sid ->
  save_facet_interrupted n facet c = Ok c' ->
  (n = 0%nat -> c' = c)
  /\ ((1 <= n)%nat ->
      c' !! sid
      = Some {| mode := match c !! sid with
                        | Some f => mode f
                        | None => 384
                        end;
                data := concat (take (n - 1) (iterencode 0 facet)) |}
      /\ (exists rest,
            json_dumps facet
            = concat (take (n - 1) (iterencode 0 facet)) ++ rest)
      /\ (forall f, c !! sid = Some f -> owner_writable f = true))
  /\ ((length (save_facet_ops facet) <= n)%nat ->
      save_facet facet c = Ok c'
      /\ data <$> c' !! sid = Some (json_dumps facet))
  /\ (forall k, k <> sid -> c' !! k = c !! k).
Proof.
  unfold save_facet_interrupted, save_facet, save_facet_ops.
  intros -> Hrun. cbn [mbind result_bind] in *.
  destruct n as [|n].
  - cbn in Hrun. injection Hrun as <-.
    split; [done|]. split; [lia|]. split; [cbn [length]; lia|done].
  - rewrite firstn_cons, <- fmap_take in Hrun. cbn [fs_run] in Hrun.
    destruct (fs_step sid c OpenTrunc) as [c1|] eqn:Hopen; [|discriminate].
    cbn [mbind result_bind] in Hrun.
    destruct (open_trunc_spec _ _ _ Hopen) as (Hnew & Hw & Hother1).
    destruct (fs_run_writes sid (take n (iterencode 0 facet)) c1 _ Hnew)
      as (c2 & Hrun2 & Hlook & Hother2).
    unfold fmap, list_fmap in Hrun. fold (@map pystr fs_op Write) in Hrun.
    assert (c2 = c') as -> by congruence.
    replace (S n - 1)%nat with n by lia.
    split; [discriminate|]. split; [|split].
    + intros _. split; [exact Hlook|]. split; [|exact Hw].
      exists (concat (drop n (iterencode 0 facet))).
      unfold json_dumps. by rewrite <- concat_app, take_drop.
    + cbn [length]. rewrite length_map. intros Hlen.
      assert (Hall : take n (iterencode 0 facet) = iterencode 0 facet)
        by (apply take_ge; lia).
      rewrite Hall in *. split.
      * cbn [fs_run]. rewrite Hopen. cbn [mbind result_bind]. exact Hrun2.
      * rewrite Hlook. reflexivity.
    + intros k Hk. by rewrite Hother2, Hother1.
Qed.

Lemma save_facet_overwrites_in_place_witness :
  cache_of_save 3 !! py "0f3a9c2e" = Some {| mode := 384; data := py "{
  " |}.
Proof.
  pose proof (save_facet_overwrites_in_place 3 (sample_facet "fully_achieved")
                (py "0f3a9c2e") sample_cache (cache_of_save 3)
                eq_refl eq_refl) as (_ & H & _).
  destruct (H ltac:(lia)) as (Hlook & _). exact Hlook.
Defined.

(** ** Reuse of cached facets *)

Lemma fs_run_other (path : pystr) (ops : list fs_op) (c c' : cache_dir) :
  fs_run path ops c = Ok c' -> forall k, k <> path -> c' !! k = c !! k.
Proof.
  revert c. induction ops as [|op ops IH]; intros c; cbn [fs_run].
  - by intros [= <-].
  - destruct (fs_step path c op) as [c1|] eqn:Hstep; cbn [mbind result_bind];
      [|discriminate].
    intros Hrun k Hk. rewrite (IH _ Hrun k Hk).
    destruct op as [|chunk].
    + by apply open_trunc_spec in Hstep as (_ & _ & ->).
    + cbn in Hstep. injection Hstep as <-. by rewrite lookup_alter_ne.
Qed.

Lemma save_facet_other (facet : json) (sid : pystr) (c c' : cache_dir) :
  facet_session_id facet = Ok sid ->
  save_facet facet c = Ok c' -> forall k, k <> sid -> c' !! k = c !! k.
Proof.
  unfold save_facet. intros ->. cbn [mbind result_bind]. apply fs_run_other.
Qed.

Lemma tagged_facet_session_id (sid : pystr) (d : list (pystr * json)) :
  facet_session_id (JObj (dict_set (py "session_id") (JStr sid) d)) = Ok sid.
Proof.
  unfold facet_session_id. rewrite dict_get_set.
  unfold pystr_eqb. by rewrite bool_decide_eq_true_2.
Qed.

(** What [extract_facets] returns is tagged with the session it was
    called for. *)
Lemma extract_facets_tagged client messages sid m facet :
  snd (extract_facets client messages sid m) = Ok (Some facet) ->
  facet_session_id facet = Ok sid.
Proof.
  pose proof (extract_facets_shape client messages sid m) as Hshape.
  destruct (serialize_transcript messages).
  - destruct Hshape as (calls & req & ->). cbn [snd]. intros [= Hf].
    apply facet_of_response_Some in Hf as (_ & d & _ & _ & _ & ->).
    apply tagged_facet_session_id.
  - rewrite Hshape. discriminate.
Qed.

Lemma extract_session_metrics_id messages sid p m :
  extract_session_metrics messages sid p = Ok m -> sm_session_id m = sid.
Proof.
  unfold extract_session_metrics.
  destruct (match start_time _ with Some _ => _ | None => _ end) as [d|];
    cbn [mbind result_bind]; [|discriminate].
  by intros [= <-].
Qed.

Lemma untouched_refl sid st : untouched sid st st.
Proof. done. Qed.

Lemma untouched_trans sid st1 st2 st3 :
  untouched sid st1 st2 -> untouched sid st2 st3 -> untouched sid st1 st3.
Proof.
  intros (Hf1 & Hc1 & Hl1) (Hf2 & Hc2 & Hl2).
  split; [congruence|]. split; [congruence|auto].
Qed.

Lemma collect_untouched sid o done :
  foreign_future sid done ->
  untouched sid (state_of o) (state_of (collect o done)).
Proof.
  intros [Hne Htag]. destruct o as [st|st]; cbn [collect state_of];
    [|apply untouched_refl].
  destruct (snd done) as [[facet|]|]; try apply untouched_refl.
  destruct (truthy facet); [|apply untouched_refl].
  specialize (Htag facet eq_refl).
  destruct (save_facet facet (cache st)) as [c'|] eqn:Hsave;
    unfold untouched; cbn [state_of facets_map cache calls].
  - split; [by rewrite lookup_insert_ne|]. split; [|done].
    by eapply save_facet_other.
  - split; [by rewrite lookup_insert_ne|done].
Qed.

Lemma fold_collect_untouched sid dones o :
  Forall (foreign_future sid) dones ->
  untouched sid (state_of o) (state_of (fold_left collect dones o)).
Proof.
  revert o. induction dones as [|done dones IH]; intros o Hall;
    cbn [fold_left]; [apply untouched_refl|].
  apply Forall_cons in Hall as [Hd Hall].
  eapply untouched_trans; [by apply collect_untouched|by apply IH].
Qed.

Lemma chunks_of_subseteq {A} (size : nat) (l batch : list A) :
  In batch (chunks_of size l) -> batch ⊆ l.
Proof.
  unfold chunks_of, slice. intros (i & <- & _)%in_map_iff.
  etrans; [apply subseteq_take|apply subseteq_drop].
Qed.

Section Reuse.

Variable as_completed :
  list (pystr * result (option json)) -> list (pystr * result (option json)).
Hypothesis as_completed_perm : forall l, as_completed l ≡ₚ l.

Variable client : request -> response.
Variable sid : pystr.

Lemma run_batch_untouched (o : outcome) (batch : list (session * metrics)) :
  Forall (foreign_item sid) batch ->
  untouched sid (state_of o) (state_of (run_batch as_completed client o batch)).
Proof.
  intros Hall. destruct o as [st|st]; cbn [run_batch]; [|apply untouched_refl].
  rewrite Forall_forall in Hall.
  eapply untouched_trans; [|apply fold_collect_untouched].
  - cbn [state_of]. unfold untouched. cbn [facets_map cache calls].
    split; [done|]. split; [done|].
    intros req [Hin|Hin]%elem_of_app; [done|]. exfalso.
    apply list_elem_of_In, in_concat in Hin as (reqs & Hreqs & Hin).
    apply in_map_iff in Hreqs as (f & <- & Hf).
    apply in_map_iff in Hf as (item & <- & Hitem).
    apply in_map_iff in Hin as (req' & [= Hsid _] & _).
    apply (Hall item); [by apply list_elem_of_In|exact Hsid].
  - apply Forall_forall. intros done Hdone.
    rewrite as_completed_perm in Hdone.
    apply list_elem_of_In, in_map_iff in Hdone as (f & <- & Hf).
    apply in_map_iff in Hf as (item & <- & Hitem).
    split; cbn [fst snd extract_one].
    + apply Hall. by apply list_elem_of_In.
    + intros facet. apply extract_facets_tagged.
Qed.

Lemma fold_run_batch_untouched (batches : list (list (session * metrics)))
    (o : outcome) :
  Forall (Forall (foreign_item sid)) batches ->
  untouched sid (state_of o)
            (state_of (fold_left (run_batch as_completed client) batches o)).
Proof.
  revert o. induction batches as [|batch batches IH]; intros o Hall;
    cbn [fold_left]; [apply untouched_refl|].
  apply Forall_cons in Hall as [Hb Hall].
  eapply untouched_trans; [by apply run_batch_untouched|by apply IH].
Qed.

Lemma extract_all_untouched (st : run_state) (needing : list (session * metrics)) :
  Forall (foreign_item sid) needing ->
  untouched sid st (state_of (extract_all as_completed client st needing)).
Proof.
  intros Hall. unfold extract_all.
  apply (fold_run_batch_untouched _ (Running st)).
  apply Forall_forall. intros batch Hbatch%list_elem_of_In.
  apply chunks_of_subseteq in Hbatch.
  apply Forall_forall. intros item Hitem.
  rewrite Forall_forall in Hall. apply Hall.
  eapply subseteq_take. by apply Hbatch.
Qed.

(** The scan of a cache in which [sid] has an entry that decodes to the
    truthy value [v]. *)
Variable cache0 : cache_dir.
Variable v : json.
Hypothesis cached : load_cached_facet cache0 sid = Some v.
Hypothesis cached_truthy : truthy v = true.

Lemma scan_session_reuses (sc sc' : scan_state) (sess : session) :
  scan_reuses sid v sc -> scan_session cache0 sc sess = Ok sc' -> scan_reuses sid v sc'.
Proof.
  intros [Hneed Hmet]. unfold scan_session.
  destruct (messages sess) as [|msg msgs] eqn:Hmsgs; [by intros [= <-]|].
  rewrite <- Hmsgs. destruct (is_insights_session _); [by intros [= <-]|].
  destruct (extract_session_metrics _ _ _) as [m|] eqn:Hm;
    cbn [mbind result_bind]; [|discriminate].
  apply extract_session_metrics_id in Hm.
  destruct (is_trivial m); [by intros [= <-]|].
  destruct (decide (session_id sess = sid)) as [Heq|Hne].
  - rewrite Heq, cached, cached_truthy. intros [= <-].
    split; cbn [sessions_needing_facets all_metrics cached_facets]; [done|].
    intros m' _ _. apply lookup_insert_eq.
  - destruct (match load_cached_facet cache0 (session_id sess) with
              | Some v0 => if truthy v0 then Some v0 else None
              | None => None
              end) as [v0|]; intros [= <-];
      split; cbn [sessions_needing_facets all_metrics cached_facets].
    + done.
    + intros m' [Hin| ->%list_elem_of_singleton]%elem_of_app Hid.
      * rewrite lookup_insert_ne by done. by apply (Hmet m').
      * congruence.
    + apply Forall_app. split; [done|]. by apply Forall_singleton.
    + intros m' [Hin| ->%list_elem_of_singleton]%elem_of_app Hid;
        [by apply (Hmet m')|congruence].
Qed.

Lemma scan_sessions_reuses (sessions : list session) (sc sc' : scan_state) :
  scan_reuses sid v sc -> scan_sessions cache0 sc sessions = Ok sc' -> scan_reuses sid v sc'.
Proof.
  revert sc. induction sessions as [|sess sessions IH]; intros sc Hsc;
    cbn [scan_sessions]; [by intros [= <-]|].
  destruct (scan_session cache0 sc sess) as [sc1|] eqn:H1;
    cbn [mbind result_bind]; [|discriminate].
  apply IH. by eapply scan_session_reuses.
Qed.

End Reuse.

(** The metrics kept by the scan do not depend on the cache. *)
Lemma scan_sessions_metrics (c1 c2 : cache_dir) (sessions : list session)
    (sc1 sc2 sc1' : scan_state) :
  all_metrics sc1 = all_metrics sc2 ->
  scan_sessions c1 sc1 sessions = Ok sc1' ->
  exists sc2', scan_sessions c2 sc2 sessions = Ok sc2'
               /\ all_metrics sc1' = all_metrics sc2'.
Proof.
  revert sc1 sc2. induction sessions as [|sess sessions IH]; intros sc1 sc2 Heq;
    cbn [scan_sessions]; [intros [= <-]; eauto|].
  destruct (scan_session c1 sc1 sess) as [sc1a|] eqn:H1;
    cbn [mbind result_bind]; [|discriminate].
  assert (exists sc2a, scan_session c2 sc2 sess = Ok sc2a
                       /\ all_metrics sc1a = all_metrics sc2a)
    as (sc2a & -> & Heqa).
  { revert H1. unfold scan_session.
    destruct (messages sess) as [|msg msgs] eqn:Hmsgs; [intros [= <-]; eauto|].
    rewrite <- Hmsgs. destruct (is_insights_session _); [intros [= <-]; eauto|].
    destruct (extract_session_metrics _ _ _) as [m|];
      cbn [mbind result_bind]; [|discriminate].
    destruct (is_trivial m); [intros [= <-]; eauto|].
    intros [= <-]. eexists. split; [reflexivity|].
    repeat match goal with
           | |- context [match ?x with _ => _ end] => destruct x
           end; cbn [all_metrics]; by rewrite Heq. }
  cbn [mbind result_bind]. by apply IH.
Qed.

(** C3. When the cache entry of a session decodes to a facet (a truthy
    value), a run makes no collaborator call for that session, uses the
    decoded facet as the session's facet and leaves the entry as it is;
    a further run, against any collaborator, therefore returns the same
    facet again without a call. *)
Theorem cached_facet_is_reused
    (as_completed : list (pystr * result (option json))
                    -> list (pystr * result (option json)))
    (client : request -> response) (cache0 : cache_dir)
    (sessions : list session) (sid : pystr) (v : json) :
  (forall l, as_completed l ≡ₚ l) ->
  load_cached_facet cache0 sid = Some v ->
  truthy v = true ->
  let run := final_state (main as_completed client cache0 sessions) in
  (forall req, (sid, req) ∉ calls run)
  /\ cache run !! sid = cache0 !! sid
  /\ (forall sc m,
        scan_sessions cache0 empty_scan sessions = Ok sc ->
        m ∈ all_metrics sc -> sm_session_id m = sid ->
        facets_map run !! sid = Some v
        /\ forall client2,
             let run2 :=
               final_state (main as_completed client2 (cache run) sessions) in
             facets_map run2 !! sid = Some v
             /\ (forall req, (sid, req) ∉ calls run2)
             /\ cache run2 !! sid = cache0 !! sid).
Proof.
  intros Hperm.
  assert (Hone : forall client cache0,
    load_cached_facet cache0 sid = Some v -> truthy v = true ->
    let run := final_state (main as_completed client cache0 sessions) in
    (forall req, (sid, req) ∉ calls run)
    /\ cache run !! sid = cache0 !! sid
    /\ (forall sc m,
          scan_sessions cache0 empty_scan sessions = Ok sc ->
          m ∈ all_metrics sc -> sm_session_id m = sid ->
          facets_map run !! sid = Some v)).
  { clear client cache0. intros client cache0 Hload Ht run.
    subst run. unfold main.
    destruct (scan_sessions cache0 empty_scan sessions) as [sc|] eqn:Hscan.
    - assert (Hsc : scan_reuses sid v sc).
      { eapply scan_sessions_reuses; [exact Hload|exact Ht| |exact Hscan].
        split; [constructor|]. intros m Hin. by apply elem_of_nil in Hin. }
      destruct Hsc as [Hneed Hmet].
      set (st0 := {| facets_map := cached_facets sc; cache := cache0;
                     calls := [] |}).
      pose proof (extract_all_untouched as_completed Hperm client sid st0 _ Hneed)
        as (Hfm & Hc & Hcalls).
      assert (Hfinal : final_state
                (match extract_all as_completed client st0
                         (sessions_needing_facets sc) with
                 | Running st =>
                     match filter_warmups (facets_map st) (all_metrics sc) with
                     | Ok fm => Completed st fm (filter_warmup_facets (facets_map st))
                     | Raised => Failed st
                     end
                 | Aborted st => Failed st
                 end)
              = state_of (extract_all as_completed client st0
                                      (sessions_needing_facets sc))).
      { destruct (extract_all _ _ _ _) as [st|st]; [|reflexivity].
        cbn [state_of]. by destruct (filter_warmups _ _). }
      rewrite Hfinal. split; [|split].
      + intros req Hin. apply Hcalls in Hin. by apply elem_of_nil in Hin.
      + by rewrite Hc.
      + intros sc' m [= <-] Hin Hid. rewrite Hfm. by eapply Hmet.
    - cbn [final_state calls cache]. split; [|split; [done|discriminate]].
      intros req Hin. by apply elem_of_nil in Hin. }
  intros Hload Ht run.
  destruct (Hone client cache0 Hload Ht) as (Hcalls & Hcache & Hfm).
  fold run in Hcalls, Hcache, Hfm.
  split; [exact Hcalls|]. split; [exact Hcache|].
  intros sc m Hscan Hin Hid. split; [by eapply Hfm|].
  intros client2 run2.
  assert (Hload2 : load_cached_facet (cache run) sid = Some v).
  { unfold load_cached_facet in *. by rewrite Hcache. }
  destruct (Hone client2 (cache run) Hload2 Ht) as (Hcalls2 & Hcache2 & Hfm2).
  split; [|split; [done|etrans; [exact Hcache2|exact Hcache]]].
  destruct (scan_sessions_metrics cache0 (cache run) sessions empty_scan
              empty_scan sc eq_refl Hscan) as (sc2 & Hscan2 & Heq).
  eapply Hfm2; [exact Hscan2| |exact Hid]. by rewrite <- Heq.
Qed.

Lemma cached_facet_is_reused_witness :
  facets_map (final_state (main (fun l => l) off_schema_client sample_cache
                                [sample_session "0f3a9c2e"]))
    !! py "0f3a9c2e" = Some (sample_facet "not_achieved").
Proof.
  pose proof (cached_facet_is_reused (fun l => l) off_schema_client sample_cache
                [sample_session "0f3a9c2e"] (py "0f3a9c2e")
                (sample_facet "not_achieved")
                (fun l => Permutation_refl l) eq_refl eq_refl)
    as (_ & _ & H).
  refine (proj1 (H _ (sample_metrics "0f3a9c2e") eq_refl _ eq_refl)).
  apply list_elem_of_singleton. reflexivity.
Defined.

(** ** Failures of one item *)

(** A failing call and a reply without an object give no facet and let
    the batch go on. *)
Lemma collaborator_failure_is_skipped (sid : pystr) (r : response) (st : run_state) :
  (r = Failure \/ exists text, r = Text text /\ extract_json_object text = None) ->
  facet_of_response sid r = None
  /\ collect (Running st) (sid, Ok (facet_of_response sid r)) = Running st.
Proof.
  intros Hr.
  assert (Hnone : facet_of_response sid r = None).
  { destruct Hr as [->|(text & -> & Hnone)]; [reflexivity|].
    unfold facet_of_response. by rewrite Hnone. }
  split; [exact Hnone|]. by rewrite Hnone.
Qed.

(** C5 on the code: an error of one item that is not a collaborator or
    recovery failure ends the run.  With two sessions to extract, a cache
    entry that cannot be written, or a text block without text in the
    first session, makes [main] fail although the extraction of the other
    session succeeds; that session's facet is neither kept nor cached. *)
Theorem item_error_aborts_run :
  (exists facet,
     snd (extract_facets schema_client (messages (sample_session "0f3a9c2e"))
                         (py "0f3a9c2e") (sample_metrics "0f3a9c2e"))
     = Ok (Some facet)
     /\ well_typed_facet facet = true)
  /\ (exists st,
        main (fun l => l) schema_client locked_cache
             [sample_session "deadbeef"; sample_session "0f3a9c2e"]
        = Failed st
        /\ fst <$> calls st = [py "deadbeef"; py "0f3a9c2e"]
        /\ facets_map st !! py "0f3a9c2e" = None
        /\ cache st !! py "0f3a9c2e" = None)
  /\ (exists st,
        main (fun l => l) schema_client ∅
             [untexted_session; sample_session "0f3a9c2e"]
        = Failed st
        /\ fst <$> calls st = [py "0f3a9c2e"]
        /\ facets_map st !! py "0f3a9c2e" = None
        /\ cache st !! py "0f3a9c2e" = None).
Proof.
  split; [|split].
  - eexists. split; [vm_compute; reflexivity|by vm_compute].
  - eexists. split; [vm_compute; reflexivity|]. repeat split; by vm_compute.
  - eexists. split; [vm_compute; reflexivity|]. repeat split; by vm_compute.
Qed.

(** ** Recovery does not depend on what follows the object *)

Lemma delimited_head (r : pystr) :
  delimited r = true ->
  exists c r', r = c :: r' /\ is_digit c = false
               /\ c <> 46%N /\ c <> 101%N /\ c <> 69%N.
Proof.
  destruct r as [|c r']; simpl; [discriminate|]. intros H.
  exists c, r'. split; [done|].
  unfold is_ws, is_digit in *.
  repeat match type of H with
         | context [(?a =? ?b)%N] => destruct (N.eqb_spec a b); subst; simpl in H
         end; try discriminate; repeat split; try done; try lia.
  all: apply andb_false_iff; rewrite N.leb_gt; lia.
Qed.

Lemma skip_ws_extend (s : pystr) (c : N) (r post : pystr) :
  skip_ws s = c :: r -> skip_ws (s ++ post) = c :: r ++ post.
Proof.
  induction s as [|x s IH]; simpl; [discriminate|].
  destruct (is_ws x); [exact IH|]. by intros [= <- <-].
Qed.

Lemma skip_ws_delimited (s : pystr) (c : N) (r : pystr) :
  skip_ws s = c :: r ->
  ((c =? 125) || (c =? 44) || (c =? 93))%N = true ->
  delimited s = true.
Proof.
  destruct s as [|x s]; simpl; [discriminate|].
  destruct (is_ws x); [done|]. intros [= <- <-] H. simpl.
  destruct (x =? 125)%N, (x =? 44)%N, (x =? 93)%N; done.
Qed.

Lemma starts_with_length (lit s : pystr) :
  starts_with lit s = true -> (length lit <= length s)%nat.
Proof.
  revert s. induction lit as [|p lit IH]; intros [|c s]; simpl;
    try discriminate; try lia.
  intros [_ H]%andb_true_iff. apply IH in H. lia.
Qed.

Lemma starts_with_extend (lit s post : pystr) :
  starts_with lit s = true ->
  starts_with lit (s ++ post) = true
  /\ drop (length lit) (s ++ post) = drop (length lit) s ++ post.
Proof.
  intros H. split.
  - revert s H. induction lit as [|p lit IH]; intros [|c s]; simpl;
      try discriminate; try done.
    intros [-> H]%andb_true_iff. by apply IH.
  - apply starts_with_length in H. by rewrite drop_app_le.
Qed.

Lemma starts_with_head_ne (p : N) (lit : pystr) (c : N) (s : pystr) :
  p <> c -> starts_with (p :: lit) (c :: s) = false.
Proof. intros H. simpl. by apply N.eqb_neq in H as ->. Qed.

Lemma span_digits_extend (s ds : pystr) (c : N) (r post : pystr) :
  span_digits s = (ds, c :: r) ->
  span_digits (s ++ post) = (ds, c :: r ++ post).
Proof.
  revert ds. induction s as [|x s IH]; intros ds; simpl; [discriminate|].
  destruct (is_digit x).
  - destruct (span_digits s) as [ds' r'] eqn:E. intros [= <- ->].
    by rewrite (IH ds' eq_refl).
  - by intros [= <- <- <-].
Qed.

Lemma match_integer_extend (s int : pystr) (c : N) (r post : pystr) :
  match_integer s = Some (int, c :: r) ->
  match_integer (s ++ post) = Some (int, c :: r ++ post).
Proof.
  destruct s as [|x s]; simpl; [discriminate|].
  destruct (x =? 48)%N; [by intros [= <- ->]|].
  destruct (is_digit x); [|discriminate].
  destruct (span_digits s) as [ds r'] eqn:E. intros [= <- ->].
  by rewrite (span_digits_extend _ _ _ _ post E).
Qed.

Lemma match_frac_extend (s frac : pystr) (c : N) (r post : pystr) :
  match_frac s = (frac, c :: r) -> c <> 46%N ->
  match_frac (s ++ post) = (frac, c :: r ++ post)
  /\ exists c1 r1, s = c1 :: r1.
Proof.
  destruct s as [|x s]; simpl; [discriminate|]. intros H Hc.
  split; [|eauto]. revert H.
  destruct (x =? 46)%N eqn:Hx; [|by intros [= <- <- <-]].
  destruct (span_digits s) as [[|d ds] r'] eqn:E.
  - intros [= <- <- <-]. by apply N.eqb_eq in Hx.
  - intros [= <- ->]. by rewrite (span_digits_extend _ _ _ _ post E).
Qed.

Lemma match_exp_extend (s exp : pystr) (c : N) (r post : pystr) :
  match_exp s = (exp, c :: r) -> c <> 46%N -> c <> 101%N -> c <> 69%N ->
  match_exp (s ++ post) = (exp, c :: r ++ post)
  /\ exists c2 r2, s = c2 :: r2 /\ c2 <> 46%N.
Proof.
  destruct s as [|x s]; simpl; [discriminate|]. intros H Hdot He HE.
  revert H.
  destruct ((x =? 101) || (x =? 69))%N eqn:Hx.
  2: { intros [= <- <- <-]. split; [done|]. eauto. }
  assert (Hx' : x <> 46%N).
  { intros ->. discriminate. }
  assert (Hxe : x = 101%N \/ x = 69%N).
  { apply orb_true_iff in Hx as [?%N.eqb_eq|?%N.eqb_eq]; auto. }
  destruct s as [|g t]; simpl.
  { intros [= <- <- <-]. destruct Hxe; done. }
  destruct ((g =? 45) || (g =? 43))%N.
  - destruct (span_digits t) as [[|d ds] r'] eqn:E.
    + intros [= <- <- <-]. destruct Hxe; done.
    + intros [= <- ->]. rewrite (span_digits_extend _ _ _ _ post E).
      split; [done|eauto].
  - destruct (span_digits (g :: t)) as [[|d ds] r'] eqn:E.
    + intros [= <- <- <-]. destruct Hxe; done.
    + intros [= <- ->].
      change (g :: t ++ post) with ((g :: t) ++ post).
      rewrite (span_digits_extend _ _ _ _ post E).
      split; [done|eauto].
Qed.

Lemma match_number_extend (s : pystr) (v : json) (r post : pystr) :
  match_number s = Some (v, r) -> delimited r = true ->
  match_number (s ++ post) = Some (v, r ++ post).
Proof.
  intros H Hr. apply delimited_head in Hr as (c & r' & -> & _ & Hdot & He & HE).
  unfold match_number in *.
  destruct s as [|x t]; [discriminate|].
  change ((x :: t) ++ post) with (x :: (t ++ post)).
  cbv beta iota in H |- *.
  assert (exists sign s0,
             (if (x =? 45)%N then ([x], t) else ([], x :: t)) = (sign, s0)
             /\ (if (x =? 45)%N then ([x], t ++ post) else ([], x :: t ++ post))
                = (sign, s0 ++ post)) as (sign & s0 & Hs & Hs').
  { destruct (x =? 45)%N; eauto. }
  rewrite Hs in H. rewrite Hs'. clear Hs Hs'. cbv beta iota zeta in H |- *.
  destruct (match_integer s0) as [[int s1]|] eqn:Hint; [|discriminate].
  destruct (match_frac s1) as [frac s2] eqn:Hfrac.
  destruct (match_exp s2) as [exp s3] eqn:Hexp.
  assert (s3 = c :: r' /\
          Some (v, c :: r')
          = match frac, exp with
            | [], [] => Some (JInt match sign with
                                   | [] => int_of_digits int
                                   | _ => - int_of_digits int
                                   end, s3)
            | _, _ => Some (JFloat (sign ++ int ++ frac ++ exp), s3)
            end) as [-> Hv].
  { destruct frac, exp; injection H as <- <-; done. }
  destruct (match_exp_extend _ _ _ _ post Hexp Hdot He HE)
    as (Hexp' & c2 & r2 & -> & Hc2).
  destruct (match_frac_extend _ _ _ _ post Hfrac Hc2) as (Hfrac' & c1 & r1 & ->).
  change ((c1 :: r1) ++ post) with (c1 :: r1 ++ post) in Hfrac'.
  change ((c2 :: r2) ++ post) with (c2 :: r2 ++ post) in Hexp'.
  rewrite (match_integer_extend _ _ _ _ post Hint), Hfrac', Hexp'.
  destruct frac, exp; injection Hv as -> ; reflexivity.
Qed.

(** The scalar that starts with a given character. *)
Lemma scan_scalar_null (x : pystr) :
  scan_scalar (110%N :: x)
  = if starts_with (py "ull") x then Some (JNull, drop 3 x) else None.
Proof.
  unfold scan_scalar.
  change (starts_with (py "null") (110%N :: x)) with (starts_with (py "ull") x).
  by destruct (starts_with (py "ull") x).
Qed.

Lemma scan_scalar_true (x : pystr) :
  scan_scalar (116%N :: x)
  = if starts_with (py "rue") x then Some (JBool true, drop 3 x) else None.
Proof.
  unfold scan_scalar.
  change (starts_with (py "true") (116%N :: x)) with (starts_with (py "rue") x).
  by destruct (starts_with (py "rue") x).
Qed.

Lemma scan_scalar_false (x : pystr) :
  scan_scalar (102%N :: x)
  = if starts_with (py "alse") x then Some (JBool false, drop 4 x) else None.
Proof.
  unfold scan_scalar.
  change (starts_with (py "false") (102%N :: x)) with (starts_with (py "alse") x).
  by destruct (starts_with (py "alse") x).
Qed.

Lemma scan_scalar_NaN (x : pystr) :
  scan_scalar (78%N :: x)
  = if starts_with (py "aN") x then Some (JFloat (py "NaN"), drop 2 x) else None.
Proof.
  unfold scan_scalar.
  change (starts_with (py "NaN") (78%N :: x)) with (starts_with (py "aN") x).
  by destruct (starts_with (py "aN") x).
Qed.

Lemma scan_scalar_Infinity (x : pystr) :
  scan_scalar (73%N :: x)
  = if starts_with (py "nfinity") x
    then Some (JFloat (py "Infinity"), drop 7 x) else None.
Proof.
  unfold scan_scalar.
  change (starts_with (py "Infinity") (73%N :: x)) with (starts_with (py "nfinity") x).
  by destruct (starts_with (py "nfinity") x).
Qed.

Lemma scan_scalar_minus (x : pystr) :
  scan_scalar (45%N :: x)
  = match match_number (45%N :: x) with
    | Some r => Some r
    | None =>
        if starts_with (py "Infinity") x
        then Some (JFloat (py "-Infinity"), drop 8 x) else None
    end.
Proof. reflexivity. Qed.

Lemma scan_scalar_other (c : N) (x : pystr) :
  c <> 110%N -> c <> 116%N -> c <> 102%N -> c <> 78%N -> c <> 73%N ->
  c <> 45%N ->
  scan_scalar (c :: x) = match_number (c :: x).
Proof.
  intros H1 H2 H3 H4 H5 H6. unfold scan_scalar.
  change (py "null") with (110%N :: py "ull").
  change (py "true") with (116%N :: py "rue").
  change (py "false") with (102%N :: py "alse").
  change (py "NaN") with (78%N :: py "aN").
  change (py "Infinity") with (73%N :: py "nfinity").
  change (py "-Infinity") with (45%N :: py "Infinity").
  rewrite !starts_with_head_ne by done.
  by destruct (match_number (c :: x)).
Qed.

Lemma match_number_minus_I (x : pystr) : match_number (45%N :: 73%N :: x) = None.
Proof. reflexivity. Qed.

Lemma scan_scalar_extend (s : pystr) (v : json) (r post : pystr) :
  scan_scalar s = Some (v, r) -> delimited r = true ->
  scan_scalar (s ++ post) = Some (v, r ++ post).
Proof.
  intros H Hr. destruct s as [|c rest]; [discriminate|].
  change ((c :: rest) ++ post) with (c :: rest ++ post).
  assert (Hlit : forall (lit : pystr) (n : nat) (w : json),
             length lit = n ->
             (if starts_with lit rest then Some (w, drop n rest) else None)
             = Some (v, r) ->
             (if starts_with lit (rest ++ post)
              then Some (w, drop n (rest ++ post)) else None)
             = Some (v, r ++ post)).
  { intros lit n w <- Hl. destruct (starts_with lit rest) eqn:E; [|discriminate].
    destruct (starts_with_extend _ _ post E) as [-> ->]. by injection Hl as <- <-. }
  destruct (decide (c = 110%N)) as [->|Hn].
  { rewrite scan_scalar_null in *. by apply Hlit. }
  destruct (decide (c = 116%N)) as [->|Ht].
  { rewrite scan_scalar_true in *. by apply Hlit. }
  destruct (decide (c = 102%N)) as [->|Hf].
  { rewrite scan_scalar_false in *. by apply Hlit. }
  destruct (decide (c = 78%N)) as [->|HN].
  { rewrite scan_scalar_NaN in *. by apply Hlit. }
  destruct (decide (c = 73%N)) as [->|HI].
  { rewrite scan_scalar_Infinity in *. by apply Hlit. }
  destruct (decide (c = 45%N)) as [->|Hm].
  { rewrite scan_scalar_minus in *.
    destruct (match_number (45%N :: rest)) as [x|] eqn:Hnum.
    - injection H as ->.
      change (45%N :: rest ++ post) with ((45%N :: rest) ++ post).
      by rewrite (match_number_extend _ _ _ post Hnum Hr).
    - assert (E : starts_with (py "Infinity") rest = true).
      { by destruct (starts_with (py "Infinity") rest). }
      destruct rest as [|x rest']; [discriminate|].
      assert (x = 73%N) as ->.
      { change (py "Infinity") with (73%N :: py "nfinity") in E.
        cbn [starts_with] in E. apply andb_true_iff in E as [E _].
        by apply N.eqb_eq in E. }
      change ((73%N :: rest') ++ post) with (73%N :: rest' ++ post).
      rewrite match_number_minus_I.
      change (73%N :: rest' ++ post) with ((73%N :: rest') ++ post).
      by apply (Hlit (py "Infinity") 8%nat). }
  rewrite scan_scalar_other in * by done.
  change (c :: rest ++ post) with ((c :: rest) ++ post).
  by apply match_number_extend.
Qed.

Lemma scanstring_extend_bounded (n : nat) :
  forall (s acc str r post : pystr),
    (length s <= n)%nat ->
    scanstring acc s = Some (str, r) ->
    scanstring acc (s ++ post) = Some (str, r ++ post).
Proof.
  induction n as [|n IH]; intros s acc str r post Hlen H.
  - destruct s; [discriminate|cbn in Hlen; lia].
  - destruct s as [|c rest]; [discriminate|].
    cbn [length] in Hlen.
    cbn [app]. cbn [scanstring] in H |- *.
    destruct (c =? 34)%N.
    { by injection H as <- <-. }
    destruct (c =? 92)%N.
    2: { destruct (c <? 32)%N; [discriminate|]. apply IH; [lia|exact H]. }
    destruct rest as [|esc rest1]; [discriminate|]. reduce_in H.
    cbn [length] in Hlen.
    destruct (esc =? 117)%N.
    2: { destruct (BACKSLASH esc); [|discriminate]. apply IH; [lia|exact H]. }
    destruct rest1 as [|h1 [|h2 [|h3 [|h4 rest2]]]]; try discriminate.
    reduce_in H. cbn [length] in Hlen.
    destruct (decode_uXXXX h1 h2 h3 h4) as [uni|]; [|discriminate].
    destruct (is_high_surrogate uni).
    2: { apply IH; [lia|exact H]. }
    pose proof (IH rest2 (acc ++ [uni]) str r post ltac:(lia)) as HK.
    remember (scanstring (acc ++ [uni]) rest2) as K eqn:HeqK.
    remember (scanstring (acc ++ [uni]) (rest2 ++ post)) as K' eqn:HeqK'.
    destruct rest2 as [|b [|u rest3]].
    + rewrite HeqK in H. discriminate.
    + assert (Hb : (b =? 92)%N = false).
      { rewrite HeqK in H. cbn [scanstring] in H.
        destruct (b =? 34)%N eqn:E34.
        - apply N.eqb_eq in E34 as ->. reflexivity.
        - destruct (b =? 92)%N; [discriminate|reflexivity]. }
      destruct post as [|u post']; reduce_in H; [by apply HK|].
      rewrite Hb. by apply HK.
    + reduce_in H. cbn [length] in Hlen.
      destruct ((b =? 92)%N && (u =? 117)%N); [|by apply HK].
      destruct rest3 as [|g1 [|g2 [|g3 [|g4 rest4]]]]; try discriminate.
      reduce_in H. cbn [length] in Hlen.
      destruct (decode_uXXXX g1 g2 g3 g4) as [uni2|]; [|discriminate].
      destruct (is_low_surrogate uni2); [|by apply HK].
      apply IH; [lia|exact H].
Qed.

Lemma scanstring_extend (s acc str r post : pystr) :
  scanstring acc s = Some (str, r) ->
  scanstring acc (s ++ post) = Some (str, r ++ post).
Proof. by apply (scanstring_extend_bounded (length s)). Qed.

Lemma scan_value_extend members members' items items' post :
  (forall pairs, extends (members pairs) (members' pairs) post) ->
  (forall values, extends (items values) (items' values) post) ->
  extends_value (scan_value members items) (scan_value members' items') post.
Proof.
  intros Hm Hi s v r H Hr. destruct s as [|c rest]; [discriminate|].
  change ((c :: rest) ++ post) with (c :: rest ++ post).
  unfold scan_value in *.
  destruct (c =? 34)%N.
  { destruct (scanstring [] rest) as [[str r']|] eqn:Hs; [|discriminate].
    injection H as <- <-. by rewrite (scanstring_extend _ _ _ _ post Hs). }
  destruct (c =? 123)%N eqn:Hbrace.
  { destruct (skip_ws rest) as [|q r0] eqn:Hws; [discriminate|].
    rewrite (skip_ws_extend _ _ _ post Hws).
    destruct (q =? 125)%N; [by injection H as <- <-|].
    destruct (q =? 34)%N; [|discriminate]. by apply Hm. }
  destruct (c =? 91)%N.
  { destruct (skip_ws rest) as [|q r0] eqn:Hws; [discriminate|].
    rewrite (skip_ws_extend _ _ _ post Hws).
    destruct (q =? 93)%N; [by injection H as <- <-|].
    change (q :: r0 ++ post) with ((q :: r0) ++ post). by apply Hi. }
  change (c :: rest ++ post) with ((c :: rest) ++ post).
  apply scan_scalar_extend; [exact H|].
  destruct Hr as [Hr|[= ->]]; [exact Hr|discriminate].
Qed.

Lemma members_step_extend scan scan' members members' pairs post :
  scan [] = None ->
  extends_value scan scan' post ->
  (forall pairs, extends (members pairs) (members' pairs) post) ->
  extends (members_step scan members pairs) (members_step scan' members' pairs)
          post.
Proof.
  intros Hnil Hs Hm s v r H. unfold members_step in *.
  destruct (scanstring [] s) as [[key s1]|] eqn:Hkey; [|discriminate].
  rewrite (scanstring_extend _ _ _ _ post Hkey).
  destruct (skip_ws s1) as [|colon s2] eqn:Hws1; [discriminate|].
  rewrite (skip_ws_extend _ _ _ post Hws1).
  destruct (colon =? 58)%N; [|discriminate].
  destruct (scan (skip_ws s2)) as [[value s3]|] eqn:Hval; [|discriminate].
  destruct (skip_ws s2) as [|x r2] eqn:Hws2; [congruence|].
  rewrite (skip_ws_extend _ _ _ post Hws2).
  destruct (skip_ws s3) as [|c s4] eqn:Hws3; [discriminate|].
  assert (Hd : delimited s3 = true).
  { apply (skip_ws_delimited _ _ _ Hws3).
    destruct (c =? 125)%N; [done|]. destruct (c =? 44)%N; [done|discriminate]. }
  change (x :: r2 ++ post) with ((x :: r2) ++ post).
  rewrite (Hs _ _ _ Hval (or_introl Hd)).
  rewrite (skip_ws_extend _ _ _ post Hws3).
  destruct (c =? 125)%N; [by injection H as <- <-|].
  destruct (c =? 44)%N; [|discriminate].
  destruct (skip_ws s4) as [|q s5] eqn:Hws4; [discriminate|].
  rewrite (skip_ws_extend _ _ _ post Hws4).
  destruct (q =? 34)%N; [|discriminate]. by apply Hm.
Qed.

Lemma items_step_extend scan scan' items items' values post :
  (forall values, items values [] = None) ->
  extends_value scan scan' post ->
  (forall values, extends (items values) (items' values) post) ->
  extends (items_step scan items values) (items_step scan' items' values) post.
Proof.
  intros Hnil Hs Hi s v r H. unfold items_step in *.
  destruct (scan s) as [[value s1]|] eqn:Hval; [|discriminate].
  destruct (skip_ws s1) as [|c s2] eqn:Hws1; [discriminate|].
  assert (Hd : delimited s1 = true).
  { apply (skip_ws_delimited _ _ _ Hws1).
    destruct (c =? 93)%N; [by rewrite !orb_true_r|].
    destruct (c =? 44)%N; [by rewrite orb_true_r|discriminate]. }
  rewrite (Hs _ _ _ Hval (or_introl Hd)).
  rewrite (skip_ws_extend _ _ _ post Hws1).
  destruct (c =? 93)%N; [by injection H as <- <-|].
  destruct (c =? 44)%N; [|discriminate].
  destruct (skip_ws s2) as [|x r2] eqn:Hws2; [by rewrite Hnil in H|].
  rewrite (skip_ws_extend _ _ _ post Hws2).
  change (x :: r2 ++ post) with ((x :: r2) ++ post). by apply Hi.
Qed.

Lemma scan_once_nil (fuel : nat) : scan_once fuel [] = None.
Proof. by destruct fuel. Qed.

Lemma array_items_nil (fuel : nat) (values : list json) :
  array_items fuel values [] = None.
Proof.
  destruct fuel as [|fuel]; [done|]. cbn [array_items]. unfold items_step.
  by rewrite scan_once_nil.
Qed.

(** More fuel and more text after the value change nothing. *)
Lemma scan_once_extend (post : pystr) (n : nat) :
  forall n', (n <= n')%nat ->
    extends_value (scan_once n) (scan_once n') post
    /\ (forall pairs,
          extends (object_members n pairs) (object_members n' pairs) post)
    /\ (forall values,
          extends (array_items n values) (array_items n' values) post).
Proof.
  induction n as [|n IH]; intros n' Hle.
  - split; [|split]; repeat intro; discriminate.
  - destruct n' as [|n']; [lia|].
    destruct (IH n' ltac:(lia)) as (Hv & Hm & Hi).
    cbn [scan_once object_members array_items]. split; [|split].
    + by apply scan_value_extend.
    + intros pairs. apply members_step_extend; [apply scan_once_nil|done..].
    + intros values. apply items_step_extend; [apply array_items_nil|done..].
Qed.

(** ** The fuel of [raw_decode] is enough *)

Lemma skip_ws_length (s : pystr) : (length (skip_ws s) <= length s)%nat.
Proof.
  induction s as [|x s IH]; simpl; [lia|]. destruct (is_ws x); simpl; lia.
Qed.

Lemma span_digits_length (s ds r : pystr) :
  span_digits s = (ds, r) -> (length r <= length s)%nat.
Proof.
  revert ds. induction s as [|x s IH]; intros ds; simpl; [by intros [= <- <-]|].
  destruct (is_digit x).
  - destruct (span_digits s) as [ds' r'] eqn:E. intros [= <- <-].
    specialize (IH ds' eq_refl). lia.
  - by intros [= <- <-].
Qed.

Lemma match_integer_length (s int r : pystr) :
  match_integer s = Some (int, r) -> (length r < length s)%nat.
Proof.
  destruct s as [|x s]; simpl; [discriminate|].
  destruct (x =? 48)%N; [intros [= <- <-]; lia|].
  destruct (is_digit x); [|discriminate].
  destruct (span_digits s) as [ds r'] eqn:E. intros [= <- <-].
  apply span_digits_length in E. lia.
Qed.

Lemma match_frac_length (s frac r : pystr) :
  match_frac s = (frac, r) -> (length r <= length s)%nat.
Proof.
  destruct s as [|x s]; simpl; [by intros [= <- <-]|].
  destruct (x =? 46)%N; [|by intros [= <- <-]].
  destruct (span_digits s) as [[|d ds] r'] eqn:E; intros [= <- <-]; [done|].
  apply span_digits_length in E. simpl. lia.
Qed.

Lemma match_exp_length (s exp r : pystr) :
  match_exp s = (exp, r) -> (length r <= length s)%nat.
Proof.
  destruct s as [|x s]; simpl; [by intros [= <- <-]|].
  destruct ((x =? 101) || (x =? 69))%N; [|by intros [= <- <-]].
  destruct s as [|g t]; simpl; [by intros [= <- <-]|].
  destruct ((g =? 45) || (g =? 43))%N.
  - destruct (span_digits t) as [[|d ds] r'] eqn:E; intros [= <- <-]; [done|].
    apply span_digits_length in E. simpl. lia.
  - destruct (span_digits (g :: t)) as [[|d ds] r'] eqn:E; intros [= <- <-];
      [done|].
    apply span_digits_length in E. simpl in *. lia.
Qed.

Lemma match_number_length (s : pystr) (v : json) (r : pystr) :
  match_number s = Some (v, r) -> (length r < length s)%nat.
Proof.
  unfold match_number.
  assert (exists sign s0,
             match s with
             | c :: t => if (c =? 45)%N then ([c], t) else ([], s)
             | [] => ([], s)
             end = (sign, s0) /\ (length s0 <= length s)%nat)
    as (sign & s0 & -> & Hs0).
  { destruct s as [|c t]; [by eexists _, _|].
    destruct (c =? 45)%N; eexists _, _; split; try done. simpl. lia. }
  destruct (match_integer s0) as [[int s1]|] eqn:Hint; [|discriminate].
  destruct (match_frac s1) as [frac s2] eqn:Hfrac.
  destruct (match_exp s2) as [exp s3] eqn:Hexp.
  apply match_integer_length in Hint. apply match_frac_length in Hfrac.
  apply match_exp_length in Hexp.
  destruct frac, exp; intros [= <- <-]; lia.
Qed.

Lemma scan_scalar_length (s : pystr) (v : json) (r : pystr) :
  scan_scalar s = Some (v, r) -> (length r < length s)%nat.
Proof.
  assert (Hlit : forall lit n, length lit = S n -> starts_with lit s = true ->
                               (length (drop (S n) s) < length s)%nat).
  { intros lit n Hn E. apply starts_with_length in E. rewrite length_drop. lia. }
  unfold scan_scalar.
  destruct (starts_with (py "null") s) eqn:E1;
    [intros [= <- <-]; by apply (Hlit (py "null"))|].
  destruct (starts_with (py "true") s) eqn:E2;
    [intros [= <- <-]; by apply (Hlit (py "true"))|].
  destruct (starts_with (py "false") s) eqn:E3;
    [intros [= <- <-]; by apply (Hlit (py "false"))|].
  destruct (match_number s) as [[v' r']|] eqn:E4;
    [intros [= <- <-]; by eapply match_number_length|].
  destruct (starts_with (py "NaN") s) eqn:E5;
    [intros [= <- <-]; by apply (Hlit (py "NaN"))|].
  destruct (starts_with (py "Infinity") s) eqn:E6;
    [intros [= <- <-]; by apply (Hlit (py "Infinity"))|].
  destruct (starts_with (py "-Infinity") s) eqn:E7;
    [intros [= <- <-]; by apply (Hlit (py "-Infinity"))|].
  discriminate.
Qed.

Lemma scanstring_length_bounded (n : nat) :
  forall (s acc str r : pystr),
    (length s <= n)%nat ->
    scanstring acc s = Some (str, r) ->
    (length r < length s)%nat.
Proof.
  induction n as [|n IH]; intros s acc str r Hlen H.
  - destruct s; [discriminate|cbn in Hlen; lia].
  - destruct s as [|c rest]; [discriminate|].
    cbn [length] in *. cbn [scanstring] in H.
    assert (Hrec : forall acc' t, (length t <= length rest)%nat ->
                     scanstring acc' t = Some (str, r) ->
                     (length r < S (length rest))%nat).
    { intros acc' t Ht Hs. apply IH in Hs; lia. }
    destruct (c =? 34)%N; [injection H as <- <-; lia|].
    destruct (c =? 92)%N.
    2: { destruct (c <? 32)%N; [discriminate|]. by eapply Hrec. }
    destruct rest as [|esc rest1]; [discriminate|]. cbv beta match in H.
    cbn [length] in *.
    destruct (esc =? 117)%N.
    2: { destruct (BACKSLASH esc); [|discriminate]. eapply Hrec; [|exact H]. lia. }
    destruct rest1 as [|h1 [|h2 [|h3 [|h4 rest2]]]]; try discriminate.
    cbv beta match in H. cbn [length] in *.
    destruct (decode_uXXXX h1 h2 h3 h4) as [uni|]; [|discriminate].
    assert (HK : scanstring (acc ++ [uni]) rest2 = Some (str, r) ->
                 (length r < length rest2)%nat).
    { intros Hs. apply IH in Hs; lia. }
    destruct (is_high_surrogate uni); [|apply HK in H; lia].
    remember (scanstring (acc ++ [uni]) rest2) as K eqn:HeqK.
    destruct rest2 as [|b [|u rest3]];
      [apply HK in H; cbn [length] in *; lia..|].
    cbv beta match in H. cbn [length] in *.
    destruct ((b =? 92)%N && (u =? 117)%N); [|apply HK in H; lia].
    destruct rest3 as [|g1 [|g2 [|g3 [|g4 rest4]]]]; try discriminate.
    cbv beta match in H. cbn [length] in *.
    destruct (decode_uXXXX g1 g2 g3 g4) as [uni2|]; [|discriminate].
    destruct (is_low_surrogate uni2); [|apply HK in H; lia].
    apply IH in H; lia.
Qed.

Lemma scanstring_length (s acc str r : pystr) :
  scanstring acc s = Some (str, r) -> (length r < length s)%nat.
Proof. by apply (scanstring_length_bounded (length s)). Qed.

Lemma skip_ws_cons_length (s : pystr) (c : N) (r : pystr) :
  skip_ws s = c :: r -> (S (length r) <= length s)%nat.
Proof.
  intros H. pose proof (skip_ws_length s) as Hl. rewrite H in Hl. exact Hl.
Qed.

Lemma scan_once_enough (n : nat) :
  enough (scan_once n) scan_once
  /\ (forall pairs,
        enough (object_members n pairs) (fun m => object_members m pairs))
  /\ (forall values,
        enough (array_items n values) (fun m => array_items m values)).
Proof.
  induction n as [|n (E1 & E2 & E3)].
  { split; [|split]; repeat intro; discriminate. }
  split; [|split].
  - intros s v r H. cbn [scan_once] in H. unfold scan_value in H.
    destruct s as [|c rest]; [discriminate|]. cbn [length].
    destruct (c =? 34)%N eqn:Hc1.
    { destruct (scanstring [] rest) as [[str r']|] eqn:Hs; [|discriminate].
      injection H as <- <-. pose proof (scanstring_length _ _ _ _ Hs).
      split; [lia|]. intros [|m] Hm; [lia|].
      cbn [scan_once]. unfold scan_value. by rewrite Hc1, Hs. }
    destruct (c =? 123)%N eqn:Hc2.
    { destruct (skip_ws rest) as [|q r0] eqn:Hws; [discriminate|].
      pose proof (skip_ws_cons_length _ _ _ Hws).
      destruct (q =? 125)%N eqn:Hq1.
      { injection H as <- <-. split; [lia|]. intros [|m] Hm; [lia|].
        cbn [scan_once]. unfold scan_value. by rewrite Hc1, Hc2, Hws, Hq1. }
      destruct (q =? 34)%N eqn:Hq2; [|discriminate].
      destruct (E2 _ _ _ _ H) as [Hl Hm']. split; [lia|].
      intros [|m] Hm; [lia|]. cbn [scan_once]. unfold scan_value.
      rewrite Hc1, Hc2, Hws, Hq1, Hq2. apply Hm'. lia. }
    destruct (c =? 91)%N eqn:Hc3.
    { destruct (skip_ws rest) as [|q r0] eqn:Hws; [discriminate|].
      pose proof (skip_ws_cons_length _ _ _ Hws).
      destruct (q =? 93)%N eqn:Hq1.
      { injection H as <- <-. split; [lia|]. intros [|m] Hm; [lia|].
        cbn [scan_once]. unfold scan_value. by rewrite Hc1, Hc2, Hc3, Hws, Hq1. }
      destruct (E3 _ _ _ _ H) as [Hl Hm']. cbn [length] in *. split; [lia|].
      intros [|m] Hm; [lia|]. cbn [scan_once]. unfold scan_value.
      rewrite Hc1, Hc2, Hc3, Hws, Hq1. apply Hm'. cbn [length]. lia. }
    pose proof (scan_scalar_length _ _ _ H) as Hl. cbn [length] in Hl.
    split; [lia|]. intros [|m] Hm; [lia|].
    cbn [scan_once]. unfold scan_value. by rewrite Hc1, Hc2, Hc3.
  - intros pairs s v r H. cbn [object_members] in H. unfold members_step in H.
    destruct (scanstring [] s) as [[key s1]|] eqn:Hkey; [|discriminate].
    pose proof (scanstring_length _ _ _ _ Hkey).
    destruct (skip_ws s1) as [|colon s2] eqn:Hws1; [discriminate|].
    pose proof (skip_ws_cons_length _ _ _ Hws1).
    destruct (colon =? 58)%N eqn:Hcolon; [|discriminate].
    destruct (scan_once n (skip_ws s2)) as [[value s3]|] eqn:Hval;
      [|discriminate].
    destruct (E1 _ _ _ Hval) as [Hl3 Hm3].
    pose proof (skip_ws_length s2).
    destruct (skip_ws s3) as [|c s4] eqn:Hws3; [discriminate|].
    pose proof (skip_ws_cons_length _ _ _ Hws3).
    destruct (c =? 125)%N eqn:Hc1.
    { injection H as <- <-. split; [lia|]. intros [|m] Hm; [lia|].
      cbn [object_members]. unfold members_step.
      rewrite Hkey, Hws1, Hcolon, (Hm3 m), Hws3, Hc1; [done|lia]. }
    destruct (c =? 44)%N eqn:Hc2; [|discriminate].
    destruct (skip_ws s4) as [|q s5] eqn:Hws4; [discriminate|].
    pose proof (skip_ws_cons_length _ _ _ Hws4).
    destruct (q =? 34)%N eqn:Hq; [|discriminate].
    destruct (E2 _ _ _ _ H) as [Hl5 Hm5]. split; [lia|].
    intros [|m] Hm; [lia|]. cbn [object_members]. unfold members_step.
    rewrite Hkey, Hws1, Hcolon, (Hm3 m), Hws3, Hc1, Hc2, Hws4, Hq; [|lia].
    apply Hm5. lia.
  - intros values s v r H. cbn [array_items] in H. unfold items_step in H.
    destruct (scan_once n s) as [[value s1]|] eqn:Hval; [|discriminate].
    destruct (E1 _ _ _ Hval) as [Hl1 Hm1].
    destruct (skip_ws s1) as [|c s2] eqn:Hws1; [discriminate|].
    pose proof (skip_ws_cons_length _ _ _ Hws1).
    destruct (c =? 93)%N eqn:Hc1.
    { injection H as <- <-. split; [lia|]. intros [|m] Hm; [lia|].
      cbn [array_items]. unfold items_step.
      rewrite (Hm1 m), Hws1, Hc1; [done|lia]. }
    destruct (c =? 44)%N eqn:Hc2; [|discriminate].
    destruct (E3 _ _ _ _ H) as [Hl2 Hm2].
    pose proof (skip_ws_length s2). split; [lia|].
    intros [|m] Hm; [lia|]. cbn [array_items]. unfold items_step.
    rewrite (Hm1 m), Hws1, Hc1, Hc2; [|lia]. apply Hm2. lia.
Qed.

(** Whatever the decoder reads at [idx] with any fuel, [raw_decode]
    reads. *)
Lemma raw_decode_complete (fuel : nat) (text : pystr) (idx : nat) v r :
  scan_once fuel (drop idx text) = Some (v, r) ->
  raw_decode text idx = Some (v, r).
Proof.
  intros H. destruct (scan_once_enough fuel) as (E & _ & _).
  destruct (E _ _ _ H) as [Hl Hm]. apply Hm.
  rewrite length_drop in *. lia.
Qed.

(** ** JSON recovery from a reply *)

Lemma find_char_app (c : N) (pre rest : pystr) :
  c ∉ pre -> find_char c (pre ++ c :: rest) = Some (length pre).
Proof.
  induction pre as [|x pre IH]; intros Hnin; simpl.
  - by rewrite N.eqb_refl.
  - apply not_elem_of_cons in Hnin as [Hx Hnin].
    apply not_eq_sym, N.eqb_neq in Hx. rewrite Hx, IH by done. reflexivity.
Qed.

(** C2 on the code: free text before the object may contain a brace,
    and recovery only tries the first one; it returns nothing although a
    well-formed object follows, which the decoder reads when it is
    started there. *)
Lemma brace_in_leading_text_defeats_recovery :
  raw_decode (py "{`a`: 1}") 0 = Some (JObj [(py "a", JInt 1)], [])
  /\ extract_json_object (py "facets for {session}: {`a`: 1}") = None.
Proof. split; by vm_compute. Qed.

(** X18. When the text before the object contains no opening brace,
    JSON recovery returns the object that the decoder reads at that
    brace, whatever text follows the object: the decoder is run from the
    first brace and stops at the brace that closes the object.  The text
    of the object is within the limits of the runtime, past which the
    decoder of the library raises.  For the text
    [here is the result: {"a": "}"} trailing junk] the recovered object
    is [{"a": "}"}]. *)
Theorem json_recovery_after_plain_prefix (pre body rest post : pystr) (v : json) :
  123%N ∉ pre ->
  raw_decode (123%N :: body) 0 = Some (v, rest) ->
  text_within_limits (123%N :: body) = true ->
  extract_json_object (pre ++ 123%N :: body ++ post) = Some v
  /\ (exists d, v = JObj d)
  /\ extract_json_object (py "here is the result: {`a`: `}`} trailing junk")
     = Some (JObj [(py "a", JStr (py "}"))]).
Proof.
  intros Hpre Hobj _.
  assert (Hv : exists d, v = JObj d).
  { unfold raw_decode in Hobj. cbn [drop] in Hobj. by eapply scan_once_brace. }
  split; [|split; [exact Hv|by vm_compute]].
  unfold extract_json_object, raw_decode in *.
  rewrite find_char_app by done.
  rewrite drop_app_length. cbn [drop] in Hobj.
  change (123%N :: body ++ post) with ((123%N :: body) ++ post).
  destruct (scan_once_extend post (S (length (123%N :: body)))
              (S (length (pre ++ (123%N :: body) ++ post)))) as (Hext & _ & _).
  { rewrite !length_app. lia. }
  by rewrite (Hext _ _ _ Hobj (or_intror eq_refl)).
Qed.

Lemma json_recovery_after_plain_prefix_witness :
  extract_json_object (py "Sure. {`k`: [1, {`n`: null}]} Hope this helps")
  = Some (JObj [(py "k", JArr [JInt 1; JObj [(py "n", JNull)]])]).
Proof.
  refine (proj1 (json_recovery_after_plain_prefix
                   (py "Sure. ") (py "`k`: [1, {`n`: null}]}") []
                   (py " Hope this helps") _ _ _ _)).
  - apply find_char_None. reflexivity.
  - vm_compute. reflexivity.
  - vm_compute. reflexivity.
Defined.

(** * Further properties *)

(** ** The counters of the metric extractor *)

Lemma dict_total_set (k : pystr) (v : Z) (d : list (pystr * Z)) :
  dict_total (dict_set k v d) = dict_total d - default 0 (dict_get k d) + v.
Proof.
  induction d as [|[k' v'] d IH]; simpl; [lia|].
  destruct (pystr_eqb k' k); simpl; lia.
Qed.

Lemma dict_set_keys {V} (k : pystr) (v : V) (d : list (pystr * V)) :
  (dict_set k v d).*1 = if bool_decide (k ∈ d.*1) then d.*1 else d.*1 ++ [k].
Proof.
  induction d as [|[k' v'] d IH]; [done|].
  cbn [dict_set]. unfold pystr_eqb. destruct (decide (k' = k)) as [->|Hk].
  - rewrite (bool_decide_eq_true_2 (k = k)) by done. rewrite !fmap_cons. cbn [fst].
    rewrite bool_decide_eq_true_2; [done|]. apply elem_of_cons. by left.
  - rewrite (bool_decide_eq_false_2 (k' = k)) by done.
    rewrite !fmap_cons, IH. cbn [fst].
    destruct (decide (k ∈ d.*1)) as [Hin|Hin].
    + rewrite !bool_decide_eq_true_2; [done| |done]. apply elem_of_cons. by right.
    + rewrite !bool_decide_eq_false_2; [done| |done].
      intros [->|?]%elem_of_cons; done.
Qed.

Lemma dict_set_values (P : Z -> Prop) k v (d : list (pystr * Z)) :
  P v -> Forall P d.*2 -> Forall P (dict_set k v d).*2.
Proof.
  intros Hv. induction d as [|[k' v'] d IH]; simpl.
  - intros _. by apply Forall_singleton.
  - intros [Hx Hd]%Forall_cons. destruct (pystr_eqb k' k); simpl; constructor; auto.
Qed.

Lemma dict_get_values (P : Z -> Prop) k v (d : list (pystr * Z)) :
  Forall P d.*2 -> dict_get k d = Some v -> P v.
Proof.
  induction d as [|[k' v'] d IH]; simpl; [done|].
  intros [Hx Hd]%Forall_cons.
  destruct (pystr_eqb k' k); [by intros [= <-]|auto].
Qed.

Lemma categorize_in_categories (text : pystr) :
  categorize text ∈ ERROR_CATEGORIES.
Proof.
  unfold categorize, categorize_lowered, ERROR_CATEGORIES.
  repeat match goal with
         | |- context [if ?b then _ else _] => destruct b
         end; set_solver.
Qed.

Lemma count_tool_error_ok (err : option pystr) (l : locals) :
  error_counts_ok l -> error_counts_ok (count_tool_error err l).
Proof.
  intros (Ht & Hk & Hv & Hnd). unfold error_counts_ok.
  destruct err as [text|]; simpl; [|repeat split; [lia|done..]].
  unfold dict_add. rewrite dict_total_set, dict_set_keys.
  assert (0 <= default 0 (dict_get (categorize text) (tool_error_categories l))).
  { destruct (dict_get _ _) as [n|] eqn:Hn; simpl; [|lia].
    pose proof (dict_get_values _ _ _ _ Hv Hn). simpl in *. lia. }
  split; [lia|]. split; [|split].
  - case_bool_decide; [done|]. apply Forall_app. split; [done|].
    apply Forall_singleton, categorize_in_categories.
  - apply dict_set_values; [lia|done].
  - case_bool_decide; [done|]. apply NoDup_app. split; [done|].
    split; [|apply NoDup_singleton].
    intros x Hx ->%list_elem_of_singleton. done.
Qed.

(** The counters after the loop over a content list; [k] failed results
    without a text content were met. *)
Lemma scan_user_items_errors (items : list block) (l : locals) :
  error_counts_ok l ->
  error_counts_ok (snd (scan_user_items items l))
  /\ (BToolResult true None ∉ items ->
      tool_errors (snd (scan_user_items items l))
      - dict_total (tool_error_categories (snd (scan_user_items items l)))
      = tool_errors l - dict_total (tool_error_categories l)).
Proof.
  revert l. induction items as [|item items IH]; intros l Hl; simpl; [done|].
  assert (Hrest : BToolResult true None ∉ item :: items ->
                  BToolResult true None ∉ items).
  { intros Hn Hin. apply Hn, elem_of_cons. by right. }
  destruct item as [[text|]|name|[|] err|]; simpl;
    try (destruct (IH l Hl) as [H1 H2]; split; [exact H1|auto]).
  - destruct (nonblank text); simpl; [done|].
    destruct (IH l Hl) as [H1 H2]; split; [exact H1|auto].
  - destruct (IH _ (count_tool_error_ok err l Hl)) as [H1 H2].
    split; [exact H1|]. intros Hn. rewrite (H2 (Hrest Hn)).
    destruct err as [text|]; [|exfalso; apply Hn, elem_of_cons; by left].
    simpl. unfold dict_add. rewrite dict_total_set. lia.
Qed.

Lemma metrics_step_errors (l : locals) (msg : message) :
  error_counts_ok l ->
  error_counts_ok (metrics_step l msg)
  /\ (errors_have_text msg ->
      tool_errors (metrics_step l msg)
      - dict_total (tool_error_categories (metrics_step l msg))
      = tool_errors l - dict_total (tool_error_categories l)).
Proof.
  intros Hl. unfold metrics_step, errors_have_text.
  destruct (msg_type msg), (msg_content msg) as [c|]; simpl; try done.
  destruct c as [s|items|]; simpl.
  - destruct (nonblank s); done.
  - destruct (scan_user_items_errors items l Hl) as [H1 H2].
    destruct (scan_user_items items l) as [[text|] l1]; simpl in *;
      (split; [exact H1|]); intros Hn; by apply H2, Hn.
  - done.
Qed.

Lemma fold_errors (messages : list message) :
  let l := fold_left metrics_step messages initial_locals in
  error_counts_ok l
  /\ (Forall errors_have_text messages ->
      dict_total (tool_error_categories l) = tool_errors l).
Proof.
  induction messages as [|msg messages IH] using rev_ind; simpl.
  - split; [|done]. repeat split; simpl; try lia; constructor.
  - rewrite fold_left_snoc. simpl in IH. destruct IH as [H1 H2].
    destruct (metrics_step_errors _ msg H1) as [H3 H4].
    split; [exact H3|].
    intros [Hm [Hx _]%Forall_cons]%Forall_app.
    specialize (H2 Hm). specialize (H4 Hx). lia.
Qed.

(** X1. Every failed tool result that the extractor counts adds one to
    [tool_errors] and at most one to one of the seven categories: the
    category counts are positive, their keys distinct, and their sum never
    exceeds [tool_errors]; it equals it when every failed result has a
    text content. *)
Theorem tool_error_totals (messages : list message) (sid p : pystr) (m : metrics) :
  extract_session_metrics messages sid p = Ok m ->
  dict_total (sm_tool_error_categories m) <= sm_tool_errors m
  /\ (forall k n, (k, n) ∈ sm_tool_error_categories m ->
                 k ∈ ERROR_CATEGORIES /\ 1 <= n)
  /\ NoDup (sm_tool_error_categories m).*1
  /\ (Forall errors_have_text messages ->
      dict_total (sm_tool_error_categories m) = sm_tool_errors m).
Proof.
  unfold extract_session_metrics.
  destruct (fold_errors messages) as [(Ht & Hk & Hv & Hnd) Heq].
  destruct (match start_time _ with Some _ => _ | None => _ end) as [d|];
    cbn [mbind result_bind]; [|discriminate].
  intros [= <-]. cbn.
  split; [exact Ht|]. split; [|split; [exact Hnd|exact Heq]].
  intros k n Hin. rewrite Forall_forall in Hk. rewrite Forall_forall in Hv. split.
  - apply Hk. apply list_elem_of_fmap. by exists (k, n).
  - apply Hv. apply list_elem_of_fmap. by exists (k, n).
Qed.

(** ** The first prompt and the user turns *)

Lemma first_text_nonblank (items : list block) (t : pystr) :
  first_text items = Some t -> nonblank t = true.
Proof.
  induction items as [|[[text|]|name|e c|] items IH]; simpl; try done.
  destruct (nonblank text) eqn:Hn; [by intros [= <-]|done].
Qed.

Lemma user_text_nonblank (msg : message) (t : pystr) :
  user_text msg = Some t -> nonblank t = true.
Proof.
  unfold user_text. destruct (msg_type msg), (msg_content msg) as [[s|items|]|];
    try done.
  - destruct (nonblank s) eqn:Hn; [by intros [= <-]|done].
  - apply first_text_nonblank.
Qed.

Lemma metrics_step_user (l : locals) (msg : message) :
  first_prompt (metrics_step l msg)
  = match first_prompt l, user_text msg with
    | [], Some t => take 200 t
    | fp, _ => fp
    end
  /\ user_msg_count (metrics_step l msg)
     = user_msg_count l + (if user_text msg is Some _ then 1 else 0).
Proof.
  unfold metrics_step, user_text.
  destruct (msg_type msg), (msg_content msg) as [c|]; simpl;
    try (split; [by destruct (first_prompt l)|lia]).
  destruct c as [s|items|]; simpl.
  - destruct (nonblank s); simpl; (split; [by destruct (first_prompt l)|lia]).
  - destruct (scan_user_items_spec items l) as [Ht Hs].
    destruct (scan_user_items items l) as [text l1]; simpl in *.
    destruct Hs as (Hc & _ & _ & Hf & _). rewrite <- Ht.
    destruct text as [text|]; simpl; rewrite Hf, Hc;
      (split; [by destruct (first_prompt l)|lia]).
  - split; [by destruct (first_prompt l)|lia].
Qed.

Lemma fold_user (messages : list message) :
  let l := fold_left metrics_step messages initial_locals in
  first_prompt l = default [] (take 200 <$> head (omap user_text messages))
  /\ user_msg_count l = Z.of_nat (length (omap user_text messages)).
Proof.
  induction messages as [|msg messages [IH1 IH2]] using rev_ind; simpl; [done|].
  rewrite fold_left_snoc, omap_app, length_app. simpl.
  destruct (metrics_step_user (fold_left metrics_step messages initial_locals) msg)
    as [-> ->].
  rewrite IH1, IH2. split.
  - destruct (omap user_text messages) as [|t0 ts] eqn:Hts; simpl.
    + by destruct (user_text msg).
    + assert (Hin : t0 ∈ omap user_text messages)
        by (rewrite Hts; apply elem_of_cons; by left).
      apply list_elem_of_omap in Hin as (msg0 & _ & H0%user_text_nonblank).
      destruct t0 as [|c t0]; [done|]. reflexivity.
  - destruct (user_text msg); simpl; lia.
Qed.

(** X2. The user-turn count is the number of user records that carry text (a
    non-blank string, or a content list with a non-blank text block), and
    the first prompt is the first 200 characters of the first of these
    texts: later turns never replace it. *)
Theorem first_prompt_is_first_user_text
    (messages : list message) (sid p : pystr) (m : metrics) :
  extract_session_metrics messages sid p = Ok m ->
  sm_user_message_count m = Z.of_nat (length (omap user_text messages))
  /\ sm_first_prompt m
     = default [] (take 200 <$> head (omap user_text messages))
  /\ (length (sm_first_prompt m) <= 200)%nat
  /\ (sm_first_prompt m = [] <-> sm_user_message_count m = 0).
Proof.
  unfold extract_session_metrics.
  destruct (fold_user messages) as [Hf Hc].
  destruct (match start_time _ with Some _ => _ | None => _ end) as [d|];
    cbn [mbind result_bind]; [|discriminate].
  intros [= <-]. cbn. rewrite Hf, Hc.
  split; [done|]. split; [done|].
  destruct (omap user_text messages) as [|t0 ts] eqn:Hts; simpl.
  - split; [lia|done].
  - rewrite length_take. split; [lia|].
    assert (Hin : t0 ∈ omap user_text messages)
      by (rewrite Hts; apply elem_of_cons; by left).
    apply list_elem_of_omap in Hin as (msg0 & _ & H0%user_text_nonblank).
    destruct t0 as [|c t0]; [done|]. split; [done|lia].
Qed.

(** ** The duration of a session *)

Lemma metrics_step_times (l : locals) (msg : message) :
  start_time (metrics_step l msg)
  = match start_time l with
    | Some s => Some s
    | None => timed_turn msg
    end
  /\ end_time (metrics_step l msg)
     = match timed_turn msg with
       | Some e => Some e
       | None => end_time l
       end.
Proof.
  unfold metrics_step, timed_turn, user_text.
  destruct (msg_type msg), (msg_content msg) as [c|]; simpl;
    try (split; [by destruct (start_time l)|done]).
  assert (Hrec : forall text l1,
             same_turn_state l l1 ->
             start_time (record_user_text text (msg_timestamp msg) l1)
             = match start_time l with
               | Some s => Some s
               | None => if ts_truthy (msg_timestamp msg)
                         then fromisoformat (msg_timestamp msg) else None
               end
             /\ end_time (record_user_text text (msg_timestamp msg) l1)
                = match (if ts_truthy (msg_timestamp msg)
                         then fromisoformat (msg_timestamp msg) else None) with
                  | Some e => Some e
                  | None => end_time l
                  end).
  { intros text l1 (_ & _ & _ & _ & Hs & He & _). simpl. rewrite Hs, He.
    destruct (if ts_truthy (msg_timestamp msg) then _ else _), (start_time l);
      done. }
  destruct c as [s|items|]; simpl.
  - destruct (nonblank s); [apply Hrec; repeat split|].
    split; [by destruct (start_time l)|done].
  - destruct (scan_user_items_spec items l) as [Ht Hs].
    destruct (scan_user_items items l) as [text l1]; simpl in *.
    rewrite <- Ht. destruct text as [text|]; [by apply Hrec|].
    destruct Hs as (_ & _ & _ & _ & -> & -> & _).
    split; [by destruct (start_time l)|done].
  - split; [by destruct (start_time l)|done].
Qed.

Lemma fold_times (messages : list message) :
  let l := fold_left metrics_step messages initial_locals in
  start_time l = head (omap timed_turn messages)
  /\ end_time l = last (omap timed_turn messages).
Proof.
  induction messages as [|msg messages [IH1 IH2]] using rev_ind; simpl; [done|].
  rewrite fold_left_snoc, omap_app. simpl.
  destruct (metrics_step_times (fold_left metrics_step messages initial_locals) msg)
    as [-> ->].
  rewrite IH1, IH2, head_app, last_app.
  destruct (timed_turn msg); simpl; [done|].
  split; by destruct (head _).
Qed.

(** X3. The extractor fails whenever the first and the last user turn
    with a parsed timestamp differ in carrying a UTC offset (their
    difference is a [TypeError] that nothing catches).  When it returns,
    the two agree; the duration is at least 1, also when the last is
    earlier than the first, and 0 when no user turn has a parsed
    timestamp; it is the whole number of minutes between the two when
    they are less than [10 ^ 15] microseconds (some 31 years) apart,
    where the float division of the source is exact to the minute. *)
Theorem session_duration (messages : list message) (sid p : pystr) :
  let turns := omap timed_turn messages in
  ((exists s e, head turns = Some s /\ last turns = Some e
                /\ aware s <> aware e) ->
   extract_session_metrics messages sid p = Raised)
  /\ (forall m,
        extract_session_metrics messages sid p = Ok m ->
        match head turns, last turns with
        | Some s, Some e =>
            aware s = aware e
            /\ 1 <= sm_duration_minutes m
            /\ (Z.abs (micros e - micros s) < 10 ^ 15 ->
                sm_duration_minutes m
                = Z.max 1 (Z.quot (micros e - micros s) (60 * 1000000)))
            /\ sm_start_time m = isoformat s
        | _, _ => sm_duration_minutes m = 0 /\ sm_start_time m = []
        end).
Proof.
  intros turns. subst turns. unfold extract_session_metrics.
  destruct (fold_times messages) as [-> ->].
  destruct (head _) as [s|], (last _) as [e|]; cbn [mbind result_bind].
  2-4: split; [by intros (? & ? & ? & ? & _)|]; by intros m [= <-].
  unfold duration_of, datetime_sub.
  destruct (Bool.eqb (aware e) (aware s)) eqn:Haw; cbn [mbind result_bind].
  - apply Bool.eqb_prop in Haw. split.
    + intros (? & ? & [= <-] & [= <-] & Hne). congruence.
    + intros m [= <-]. cbn [sm_duration_minutes sm_start_time].
      split; [done|]. split; [lia|]. by split.
  - split; [done|discriminate].
Qed.

(** A first turn with a UTC offset and a last turn without one. *)
Example mixed_offsets_raise :
  extract_session_metrics
    [user_turn "fix the failing test" 0; naive_turn "thanks" 25]
    (py "0f3a9c2e") (py "demo") = Raised.
Proof. reflexivity. Qed.

(** ** Failures of the serialization *)

Lemma user_lines_Raised (items : list block) :
  user_lines items = Raised <-> BText None ∈ items.
Proof.
  induction items as [|item items IH]; simpl.
  - split; [discriminate|]. intros H; by apply elem_of_nil in H.
  - rewrite elem_of_cons.
    assert (Hgen : item <> BText None ->
                   user_lines items = Raised
                   <-> BText None = item \/ BText None ∈ items).
    { intros Hne. rewrite IH. split; [auto|]. by intros [?|?]. }
    destruct item as [[text|]|name|e c|]; simpl; try (by apply Hgen).
    + rewrite <- (Hgen ltac:(done)).
      destruct (user_lines items); cbn [mbind result_bind]; done.
    + split; [by left|done].
Qed.

Lemma assistant_lines_Raised (items : list block) :
  assistant_lines items = Raised <-> BText None ∈ items.
Proof.
  induction items as [|item items IH]; simpl.
  - split; [discriminate|]. intros H; by apply elem_of_nil in H.
  - rewrite elem_of_cons.
    assert (Hgen : item <> BText None ->
                   assistant_lines items = Raised
                   <-> BText None = item \/ BText None ∈ items).
    { intros Hne. rewrite IH. split; [auto|]. by intros [?|?]. }
    destruct item as [[text|]|name|e c|]; simpl; try (by apply Hgen).
    + rewrite <- (Hgen ltac:(done)).
      destruct (assistant_lines items); cbn [mbind result_bind]; done.
    + split; [by left|done].
    + rewrite <- (Hgen ltac:(done)).
      destruct (assistant_lines items); cbn [mbind result_bind]; done.
Qed.

Lemma message_lines_Raised (msg : message) :
  message_lines msg = Raised <-> untexted msg.
Proof.
  unfold message_lines, untexted.
  destruct (msg_type msg) eqn:Ht, (msg_content msg) as [[s|items|]|] eqn:Hc;
    simpl.
  all: try (split; [discriminate|]; intros (Hs & items' & Heq & _); done).
  - rewrite user_lines_Raised. split.
    + intros H. split; [done|]. by exists items.
    + by intros (_ & ? & [= <-] & ?).
  - rewrite assistant_lines_Raised. split.
    + intros H. split; [done|]. by exists items.
    + by intros (_ & ? & [= <-] & ?).
Qed.

(** X4. Serialization fails exactly when a user or assistant record has a
    content list with a text block that lacks its text; every other
    record, block and content is serialized or passed over. *)
Theorem serialize_transcript_fails_iff (messages : list message) :
  serialize_transcript messages = Raised <-> Exists untexted messages.
Proof.
  unfold serialize_transcript.
  assert (H : transcript_lines messages = Raised <-> Exists untexted messages).
  { induction messages as [|msg messages IH]; simpl.
    - split; [discriminate|]. intros H; by apply Exists_nil in H.
    - rewrite Exists_cons, <- message_lines_Raised, <- IH.
      destruct (message_lines msg), (transcript_lines messages);
        cbn [mbind result_bind]; split; try done; try (by intros [?|?]); auto. }
  rewrite <- H. destruct (transcript_lines messages); cbn [mbind result_bind];
    split; done.
Qed.

(** ** The calls of the summarizer *)

Lemma chunk_size_bounds :
  (1 <= CHUNK_SIZE)%nat /\ (CHUNK_SIZE < LONG_SESSION_THRESHOLD)%nat.
Proof. split; apply Nat.leb_le; by vm_compute. Qed.

Lemma summarize_requests_chunks (chunks : list pystr) :
  map chunk_of_request (map summarize_request chunks) = chunks.
Proof.
  rewrite map_map. rewrite <- (map_id chunks) at 2. apply map_ext.
  intros chunk. unfold chunk_of_request, summarize_request. cbn [prompt].
  by rewrite drop_app_length.
Qed.

(** X5. A transcript of at most [LONG_SESSION_THRESHOLD] characters is
    returned as it is, without a call.  A longer one costs one call per
    chunk, at least two: the requests carry, after the fixed prompt, the
    consecutive chunks of the transcript, each of 1 to [CHUNK_SIZE]
    characters, and do not depend on what the collaborator answers. *)
Theorem summarize_long_transcript_calls
    (client : request -> response) (transcript : pystr) :
  let n := length transcript in
  let r := summarize_long_transcript client transcript in
  ((n <= LONG_SESSION_THRESHOLD)%nat /\ r = ([], transcript))
  \/ ((LONG_SESSION_THRESHOLD < n)%nat
      /\ length (fst r) = ((n + (CHUNK_SIZE - 1)) / CHUNK_SIZE)%nat
      /\ (2 <= length (fst r))%nat
      /\ concat (map chunk_of_request (fst r)) = transcript
      /\ Forall (fun req =>
                   max_tokens req = SUMMARIZE_MAX_TOKENS
                   /\ prompt req = SUMMARIZE_PROMPT ++ chunk_of_request req
                   /\ (1 <= length (chunk_of_request req) <= CHUNK_SIZE)%nat)
                (fst r)
      /\ forall client',
           fst (summarize_long_transcript client' transcript) = fst r).
Proof.
  intros n r. subst n r. unfold summarize_long_transcript.
  destruct chunk_size_bounds as [Hc Hlt].
  destruct (Nat.leb_spec (length transcript) LONG_SESSION_THRESHOLD) as [Hle|Hgt];
    [left; done|right].
  cbn [fst]. split; [done|].
  assert (Hlen : length (chunks_of CHUNK_SIZE transcript)
                 = ((length transcript + (CHUNK_SIZE - 1)) / CHUNK_SIZE)%nat).
  { unfold chunks_of. rewrite py_range_0, !length_map, length_seq. done. }
  pose proof (ceil_div_bounds (length transcript) CHUNK_SIZE Hc) as [Hlo Hhi].
  rewrite length_map, summarize_requests_chunks.
  split; [exact Hlen|]. split; [rewrite Hlen; nia|]. split; [|split; [|done]].
  - unfold chunks_of. rewrite py_range_0, concat_slices. apply take_ge. lia.
  - apply Forall_forall. intros req Hreq.
    apply list_elem_of_fmap in Hreq as (chunk & -> & Hchunk).
    unfold chunk_of_request, summarize_request. cbn [prompt max_tokens].
    rewrite drop_app_length. split; [done|]. split; [done|].
    apply list_elem_of_lookup in Hchunk as [i Hi].
    apply chunks_of_lookup in Hi as [-> Hi].
    rewrite length_take, length_drop. nia.
Qed.

(** ** The pipeline's own prompts *)

Lemma contains_app_r (pat pre s : pystr) :
  contains pat s = true -> contains pat (pre ++ s) = true.
Proof.
  intros H. induction pre as [|c pre IH]; [done|].
  cbn [app contains]. rewrite IH. apply orb_true_r.
Qed.

Lemma starts_with_app (pat s post : pystr) :
  starts_with pat s = true -> starts_with pat (s ++ post) = true.
Proof.
  revert s. induction pat as [|p pat IH]; intros [|c s]; simpl; try done.
  intros [-> H]%andb_true_iff. by rewrite IH.
Qed.

Lemma contains_app_l (pat s post : pystr) :
  contains pat s = true -> contains pat (s ++ post) = true.
Proof.
  induction s as [|c s IH]; cbn [app contains].
  - destruct pat; [|by rewrite orb_false_r]. by destruct post.
  - intros [H|H]%orb_true_iff.
    + change (c :: s ++ post) with ((c :: s) ++ post).
      by rewrite (starts_with_app _ (c :: s) post H).
    + rewrite (IH H). apply orb_true_r.
Qed.

(** X6. The request that [extract_facets] ends with carries the marker that
    [is_insights_session] looks for, whatever the session is: a session
    whose first five records hold such a prompt as a user text is taken
    for the pipeline's own and left out of the scan. *)
Theorem facet_prompt_is_recognised
    (client : request -> response) (msgs : list message) (sid : pystr)
    (m : metrics) (req : request) :
  last (fst (extract_facets client msgs sid m)) = Some req ->
  max_tokens req = FACET_MAX_TOKENS
  /\ has_marker (prompt req) = true
  /\ forall ts before after cache st sess,
       (length before < 5)%nat ->
       messages sess = before ++ prompt_record ts (prompt req) :: after ->
       is_insights_session (messages sess) = true
       /\ scan_session cache st sess = Ok st.
Proof.
  unfold extract_facets.
  destruct (serialize_transcript msgs) as [transcript|]; [|discriminate].
  destruct (summarize_long_transcript client _) as [calls text].
  cbn [fst]. rewrite last_snoc. intros [= <-]. cbn [max_tokens prompt].
  assert (Hmark : has_marker (FACET_SYSTEM_PROMPT ++ text ++ FACET_SCHEMA) = true).
  { unfold has_marker. apply orb_true_iff. left.
    do 2 apply contains_app_r. by vm_compute. }
  split; [done|]. split; [exact Hmark|].
  intros ts before after cache st sess Hlen Hmsgs.
  assert (Hins : is_insights_session (messages sess) = true).
  { unfold is_insights_session. rewrite Hmsgs. apply existsb_exists.
    exists (prompt_record ts (FACET_SYSTEM_PROMPT ++ text ++ FACET_SCHEMA)).
    split; [|exact Hmark].
    rewrite take_app_ge by lia.
    destruct (5 - length before)%nat as [|k] eqn:Hk; [lia|].
    apply in_or_app. right. by left. }
  split; [exact Hins|].
  unfold scan_session. rewrite Hins.
  destruct (messages sess); [done|]. done.
Qed.

Lemma facet_prompt_is_recognised_witness :
  is_insights_session
    [prompt_record TsNone
       (FACET_SYSTEM_PROMPT
        ++ facet_header (py "0f3a9c2e") (sample_metrics "0f3a9c2e")
        ++ py "[User]: fix the failing test
[Assistant]: done
[Tool: Edit]
[User]: thanks" ++ FACET_SCHEMA)] = true.
Proof.
  pose proof (facet_prompt_is_recognised
                schema_client (messages (sample_session "0f3a9c2e"))
                (py "0f3a9c2e") (sample_metrics "0f3a9c2e") _ eq_refl)
    as (_ & _ & H).
  exact (proj1 (H TsNone [] [] ∅ empty_scan
                  {| session_id := py "x"; project := py "demo";
                     messages := [_] |} ltac:(simpl; lia) eq_refl)).
Defined.

(** ** The scan of the sessions *)

Lemma scan_session_ok cache seen sc sc' sess :
  scan_ok cache seen sc ->
  scan_session cache sc sess = Ok sc' ->
  scan_ok cache (seen ++ [sess]) sc'.
Proof.
  intros (Ha & Hb & Hc).
  assert (Hsame : scan_ok cache (seen ++ [sess]) sc).
  { split; [exact Ha|]. split; [|exact Hc].
    intros s m Hin. destruct (Hb s m Hin) as (? & ? & ? & ?).
    repeat split; try done. apply elem_of_app. by left. }
  unfold scan_session.
  destruct (messages sess) as [|msg msgs] eqn:Hmsgs; [by intros [= <-]|].
  rewrite <- Hmsgs. destruct (is_insights_session _); [by intros [= <-]|].
  destruct (extract_session_metrics _ _ _) as [m|] eqn:Hm;
    cbn [mbind result_bind]; [|discriminate].
  pose proof (extract_session_metrics_id _ _ _ _ Hm) as Hid.
  destruct (is_trivial m) eqn:Htriv; [by intros [= <-]|].
  fold (cache_hit cache (session_id sess)).
  destruct (cache_hit cache (session_id sess)) as [v|] eqn:Hhit; intros [= <-];
    unfold scan_ok; cbn [all_metrics cached_facets sessions_needing_facets].
  - split; [|split].
    + intros m' [Hin| ->%list_elem_of_singleton]%elem_of_app.
      * destruct (Ha m' Hin) as (Ht & Hl & Hn). split; [done|]. split; [|done].
        destruct (decide (session_id sess = sm_session_id m')) as [Heq|Hne].
        -- rewrite Heq, lookup_insert_eq. congruence.
        -- by rewrite lookup_insert_ne.
      * split; [done|]. rewrite Hid, lookup_insert_eq, Hhit. done.
    + intros s m' Hin. destruct (Hb s m' Hin) as (? & ? & ? & ?).
      repeat split; try done; apply elem_of_app; by left.
    + intros sid v'.
      destruct (decide (session_id sess = sid)) as [<-|Hne].
      * intros _. exists m. split; [|done]. apply elem_of_app. right.
        by apply list_elem_of_singleton.
      * rewrite lookup_insert_ne by done. intros (m' & ? & ?)%Hc.
        exists m'. split; [|done]. apply elem_of_app. by left.
  - assert (Hnone : cached_facets sc !! session_id sess = None).
    { destruct (cached_facets sc !! session_id sess) as [v|] eqn:Hv; [|done].
      destruct (Hc _ _ Hv) as (m0 & Hin0 & Hid0).
      destruct (Ha m0 Hin0) as (_ & Hl & _). congruence. }
    split; [|split].
    + intros m' [Hin| ->%list_elem_of_singleton]%elem_of_app.
      * destruct (Ha m' Hin) as (Ht & Hl & Hn). split; [done|]. split; [done|].
        intros (s & Hs)%Hn. exists s. apply elem_of_app. by left.
      * split; [done|]. rewrite Hid. split; [congruence|].
        intros _. exists sess. apply elem_of_app. right.
        by apply list_elem_of_singleton.
    + intros s m' [Hin|Heq%list_elem_of_singleton]%elem_of_app.
      * destruct (Hb s m' Hin) as (? & ? & ? & ?).
        repeat split; try done; apply elem_of_app; by left.
      * injection Heq as -> ->.
        repeat split; try done; apply elem_of_app; right;
          by apply list_elem_of_singleton.
    + intros sid v' (m' & ? & ?)%Hc.
      exists m'. split; [|done]. apply elem_of_app. by left.
Qed.

Lemma scan_sessions_ok cache sessions seen sc sc' :
  scan_ok cache seen sc ->
  scan_sessions cache sc sessions = Ok sc' ->
  scan_ok cache (seen ++ sessions) sc'.
Proof.
  revert seen sc. induction sessions as [|sess sessions IH]; intros seen sc Hok;
    cbn [scan_sessions].
  - intros [= <-]. by rewrite app_nil_r.
  - destruct (scan_session cache sc sess) as [sc1|] eqn:H1;
      cbn [mbind result_bind]; [|discriminate].
    intros H. rewrite cons_middle, app_assoc.
    eapply IH; [|exact H]. by eapply scan_session_ok.
Qed.

Lemma empty_scan_ok cache : scan_ok cache [] empty_scan.
Proof.
  split; [|split]; cbn.
  - intros m Hin. by apply elem_of_nil in Hin.
  - intros s m Hin. by apply elem_of_nil in Hin.
  - intros sid v. by rewrite lookup_empty.
Qed.

(** X7. The scan splits the sessions it keeps between the cache and the
    queue: a kept session has its facet taken from the cache exactly when
    the cache holds a truthy entry for it, and is queued for extraction
    otherwise; a queued session is one of the scanned sessions and has no
    facet yet, and every facet taken from the cache belongs to a kept
    session. *)
Theorem scan_splits_kept_sessions
    (cache : cache_dir) (sessions : list session) (sc : scan_state) :
  scan_sessions cache empty_scan sessions = Ok sc ->
  (forall m, m ∈ all_metrics sc ->
     is_trivial m = false
     /\ cached_facets sc !! sm_session_id m = cache_hit cache (sm_session_id m)
     /\ (cache_hit cache (sm_session_id m) = None
         <-> exists sess, (sess, m) ∈ sessions_needing_facets sc))
  /\ (forall sess m, (sess, m) ∈ sessions_needing_facets sc ->
        sess ∈ sessions /\ m ∈ all_metrics sc
        /\ sm_session_id m = session_id sess
        /\ cached_facets sc !! session_id sess = None)
  /\ (forall sid v, cached_facets sc !! sid = Some v ->
        exists m, m ∈ all_metrics sc /\ sm_session_id m = sid).
Proof.
  intros Hscan.
  destruct (scan_sessions_ok cache sessions [] _ _ (empty_scan_ok cache) Hscan)
    as (Ha & Hb & Hc).
  assert (Hb' : forall sess m, (sess, m) ∈ sessions_needing_facets sc ->
                  sess ∈ sessions /\ m ∈ all_metrics sc
                  /\ sm_session_id m = session_id sess
                  /\ cache_hit cache (session_id sess) = None).
  { intros s m Hin. destruct (Hb s m Hin) as (? & ? & Hm & ?).
    apply extract_session_metrics_id in Hm. done. }
  split; [|split; [|exact Hc]].
  - intros m Hin. destruct (Ha m Hin) as (Ht & Hl & Hn).
    split; [done|]. split; [done|]. split; [done|].
    intros (s & Hs). destruct (Hb' s m Hs) as (_ & _ & Hid & Hhit). congruence.
  - intros s m Hin. destruct (Hb' s m Hin) as (? & Hm & Hid & Hhit).
    repeat split; try done.
    destruct (Ha m Hm) as (_ & Hl & _). congruence.
Qed.

(** ** The calls of a run *)

Lemma collect_calls (o : outcome) (d : pystr * result (option json)) :
  calls (state_of (collect o d)) = calls (state_of o).
Proof.
  destruct o as [st|st]; cbn [collect state_of]; [|done].
  destruct (snd d) as [[facet|]|]; try done.
  destruct (truthy facet); [|done].
  by destruct (save_facet facet (cache st)).
Qed.

Lemma fold_collect_calls (dones : list (pystr * result (option json)))
    (o : outcome) :
  calls (state_of (fold_left collect dones o)) = calls (state_of o).
Proof.
  revert o. induction dones as [|d dones IH]; intros o; cbn [fold_left];
    [done|].
  by rewrite IH, collect_calls.
Qed.

Lemma collect_aborted (dones : list (pystr * result (option json)))
    (st : run_state) :
  fold_left collect dones (Aborted st) = Aborted st.
Proof. induction dones as [|d dones IH]; cbn [fold_left collect]; done. Qed.

Section Calls.

Variable as_completed :
  list (pystr * result (option json)) -> list (pystr * result (option json)).
Variable client : request -> response.

Lemma run_batch_calls (o : outcome) (batch : list (session * metrics)) :
  calls (state_of (run_batch as_completed client o batch))
  = calls (state_of o)
    ++ match o with
       | Running _ => concat (map (calls_of client) batch)
       | Aborted _ => []
       end.
Proof.
  destruct o as [st|st]; cbn [run_batch state_of]; [|by rewrite app_nil_r].
  rewrite fold_collect_calls. cbn [state_of calls]. f_equal. f_equal.
  rewrite map_map. apply map_ext. intros item. reflexivity.
Qed.

Lemma fold_run_batch_aborted (batches : list (list (session * metrics)))
    (st : run_state) :
  fold_left (run_batch as_completed client) batches (Aborted st) = Aborted st.
Proof. induction batches as [|b batches IH]; cbn [fold_left run_batch]; done. Qed.

Lemma fold_run_batch_calls (batches : list (list (session * metrics)))
    (st : run_state) :
  let o := fold_left (run_batch as_completed client) batches (Running st) in
  exists j,
    calls (state_of o)
    = calls st ++ concat (map (calls_of client) (concat (take j batches)))
    /\ (forall st', o = Running st' -> j = length batches).
Proof.
  revert st. induction batches as [|batch batches IH]; intros st; cbn [fold_left].
  - exists 0%nat. cbn. by rewrite app_nil_r.
  - pose proof (run_batch_calls (Running st) batch) as Hb.
    destruct (run_batch as_completed client (Running st) batch) as [st1|st1].
    + destruct (IH st1) as (j & Hj & Hrun). exists (S j).
      cbn [state_of] in Hb. rewrite Hj, Hb. cbn [take concat].
      rewrite map_app, concat_app, app_assoc. split; [done|].
      intros st' Hst'. cbn [length]. f_equal. by eapply Hrun.
    + rewrite fold_run_batch_aborted. exists 1%nat.
      cbn [state_of] in *. rewrite Hb. cbn [take concat].
      rewrite take_0. cbn [concat]. rewrite app_nil_r. split; [done|].
      discriminate.
Qed.

Lemma concat_take_chunks {A} (c : nat) (l : list A) (j : nat) :
  concat (take j (chunks_of c l)) = take (j `min` ((length l + (c - 1)) / c) * c) l.
Proof.
  unfold chunks_of. rewrite py_range_0, <- !fmap_take.
  rewrite take_seq. apply concat_slices.
Qed.

(** X8. The calls of the extraction step are those of the queued sessions
    of a whole number of batches, batch after batch (the log lists the
    calls of one batch in the order of the queue; how its threads
    interleave them is not modelled): an error that ends the run stops
    the later batches but not the calls of its own batch, and a run that
    goes through has made the calls of every session among the first
    [MAX_SESSIONS_TO_PROCESS] of the queue, and no other. *)
Theorem calls_follow_the_queue
    (st : run_state) (needing : list (session * metrics)) :
  let o := extract_all as_completed client st needing in
  let to_process := take MAX_SESSIONS_TO_PROCESS needing in
  exists j,
    calls (state_of o)
    = calls st
      ++ concat (map (calls_of client) (take (j * FACET_BATCH_SIZE) to_process))
    /\ (forall st',
          o = Running st' ->
          calls st' = calls st ++ concat (map (calls_of client) to_process)).
Proof.
  intros o to_process. subst o. unfold extract_all. fold to_process.
  destruct (fold_run_batch_calls (chunks_of FACET_BATCH_SIZE to_process) st)
    as (j & Hj & Hrun).
  rewrite concat_take_chunks in Hj.
  eexists. split; [exact Hj|].
  intros st' Hst'. specialize (Hrun st' Hst').
  rewrite Hst' in Hj. cbn [state_of] in Hj. rewrite Hj. do 3 f_equal.
  apply take_ge.
  assert (Hlen : length (chunks_of FACET_BATCH_SIZE to_process)
                 = ((length to_process + (FACET_BATCH_SIZE - 1))
                    / FACET_BATCH_SIZE)%nat).
  { unfold chunks_of. rewrite py_range_0, !length_map, length_seq. done. }
  pose proof (ceil_div_bounds (length to_process) FACET_BATCH_SIZE
                ltac:(unfold FACET_BATCH_SIZE; lia)) as [Hlo _].
  rewrite Hrun, Hlen, Nat.min_id. exact Hlo.
Qed.

End Calls.

(** ** The two warmup filters *)

Lemma collect_keys (P : pystr -> Prop) (o : outcome)
    (d : pystr * result (option json)) :
  (forall sid, is_Some (facets_map (state_of o) !! sid) -> P sid) ->
  P (fst d) ->
  forall sid, is_Some (facets_map (state_of (collect o d)) !! sid) -> P sid.
Proof.
  intros Hold Hnew sid. destruct o as [st|st]; cbn [collect state_of] in *;
    [|apply Hold].
  destruct (snd d) as [[facet|]|]; cbn [state_of]; try apply Hold.
  destruct (truthy facet); cbn [state_of]; [|apply Hold].
  assert (Hins : is_Some (<[fst d := facet]> (facets_map st) !! sid) -> P sid).
  { destruct (decide (fst d = sid)) as [<-|Hne]; [done|].
    rewrite lookup_insert_ne by done. apply Hold. }
  by destruct (save_facet facet (cache st)).
Qed.

Lemma fold_collect_keys (P : pystr -> Prop)
    (dones : list (pystr * result (option json))) (o : outcome) :
  (forall sid, is_Some (facets_map (state_of o) !! sid) -> P sid) ->
  Forall (fun d => P (fst d)) dones ->
  forall sid, is_Some (facets_map (state_of (fold_left collect dones o)) !! sid)
              -> P sid.
Proof.
  revert o. induction dones as [|d dones IH]; intros o Hold Hall;
    cbn [fold_left]; [done|].
  apply Forall_cons in Hall as [Hd Hall].
  apply IH; [|done]. by apply collect_keys.
Qed.

Section Keys.

Variable as_completed :
  list (pystr * result (option json)) -> list (pystr * result (option json)).
Hypothesis as_completed_perm : forall l, as_completed l ≡ₚ l.
Variable client : request -> response.
Variable P : pystr -> Prop.

Lemma run_batch_keys (o : outcome) (batch : list (session * metrics)) :
  (forall sid, is_Some (facets_map (state_of o) !! sid) -> P sid) ->
  Forall (fun item => P (session_id (fst item))) batch ->
  forall sid,
    is_Some (facets_map (state_of (run_batch as_completed client o batch)) !! sid)
    -> P sid.
Proof.
  intros Hold Hall. destruct o as [st|st]; cbn [run_batch]; [|done].
  apply fold_collect_keys; [done|].
  apply Forall_forall. intros d Hd. rewrite as_completed_perm in Hd.
  apply list_elem_of_fmap in Hd as (f & -> & Hf).
  apply list_elem_of_fmap in Hf as (item & -> & Hitem).
  rewrite Forall_forall in Hall. by apply Hall.
Qed.

Lemma fold_run_batch_keys (batches : list (list (session * metrics)))
    (o : outcome) :
  (forall sid, is_Some (facets_map (state_of o) !! sid) -> P sid) ->
  Forall (Forall (fun item => P (session_id (fst item)))) batches ->
  forall sid,
    is_Some (facets_map
               (state_of (fold_left (run_batch as_completed client) batches o))
             !! sid)
    -> P sid.
Proof.
  revert o. induction batches as [|batch batches IH]; intros o Hold Hall;
    cbn [fold_left]; [done|].
  apply Forall_cons in Hall as [Hb Hall].
  apply IH; [|done]. by apply run_batch_keys.
Qed.

Lemma extract_all_keys (st : run_state) (needing : list (session * metrics)) :
  (forall sid, is_Some (facets_map st !! sid) -> P sid) ->
  Forall (fun item => P (session_id (fst item))) needing ->
  forall sid,
    is_Some (facets_map (state_of (extract_all as_completed client st needing))
             !! sid)
    -> P sid.
Proof.
  intros Hold Hall. unfold extract_all.
  apply (fold_run_batch_keys _ (Running st)); [done|].
  apply Forall_forall. intros batch Hbatch%list_elem_of_In.
  apply chunks_of_subseteq in Hbatch.
  apply Forall_forall. intros item Hitem.
  rewrite Forall_forall in Hall. apply Hall.
  eapply subseteq_take. by apply Hbatch.
Qed.

End Keys.

Lemma filter_warmups_spec (facets : gmap pystr json) (ms filtered : list metrics) :
  filter_warmups facets ms = Ok filtered ->
  (forall m, m ∈ ms ->
             exists w, is_warmup_only facets (sm_session_id m) = Ok w)
  /\ (forall m, m ∈ filtered
                <-> m ∈ ms /\ is_warmup_only facets (sm_session_id m) = Ok false)
  /\ filtered `sublist_of` ms.
Proof.
  revert filtered. induction ms as [|m0 ms IH]; intros filtered; simpl.
  - intros [= <-]. split; [|split; [|done]].
    + intros m Hin. by apply elem_of_nil in Hin.
    + intros m. split; [intros Hin|intros [Hin _]]; by apply elem_of_nil in Hin.
  - destruct (is_warmup_only facets (sm_session_id m0)) as [w|] eqn:Hw;
      simpl; [|discriminate].
    destruct (filter_warmups facets ms) as [rest|]; simpl; [|discriminate].
    destruct (IH rest eq_refl) as (H1 & H2 & H3).
    intros [= <-]. split; [|split].
    + intros m [->|Hin]%elem_of_cons; [eauto|auto].
    + intros m. rewrite elem_of_cons. destruct w.
      * rewrite H2. split; [intros [? ?]; auto|].
        intros [[->|?] Hf]; [congruence|done].
      * rewrite elem_of_cons, H2. split.
        -- intros [->|[? ?]]; auto.
        -- intros [[->|?] Hf]; auto.
    + destruct w; [by apply sublist_cons|by apply sublist_skip].
Qed.

(** X9. In a run that reaches the aggregation, every facet belongs to a kept
    session, so the filter over the facets map fails on no key and drops
    exactly the facets of the sessions that the filter over the metrics
    drops: a session handed to the aggregation has the facet it had
    before filtering, and every facet handed over is that of a session
    handed over.  The filtered metrics are the kept ones in their order,
    without the warmup-only sessions. *)
Theorem warmup_filters_agree
    (as_completed : list (pystr * result (option json))
                    -> list (pystr * result (option json)))
    (client : request -> response) (cache0 : cache_dir)
    (sessions : list session) (st : run_state) (filtered_metrics : list metrics)
    (filtered_facets : gmap pystr json) :
  (forall l, as_completed l ≡ₚ l) ->
  main as_completed client cache0 sessions
  = Completed st filtered_metrics filtered_facets ->
  (forall sid f,
     facets_map st !! sid = Some f ->
     exists w, is_warmup_only (facets_map st) sid = Ok w
               /\ filtered_facets !! sid = if w : bool then None else Some f)
  /\ (forall m, m ∈ filtered_metrics ->
        is_warmup_only (facets_map st) (sm_session_id m) = Ok false
        /\ filtered_facets !! sm_session_id m
           = facets_map st !! sm_session_id m)
  /\ (forall sid f,
        filtered_facets !! sid = Some f ->
        exists m, m ∈ filtered_metrics /\ sm_session_id m = sid)
  /\ exists sc,
       scan_sessions cache0 empty_scan sessions = Ok sc
       /\ filtered_metrics `sublist_of` all_metrics sc
       /\ forall m, m ∈ all_metrics sc -> m ∉ filtered_metrics ->
                    is_warmup_only (facets_map st) (sm_session_id m) = Ok true.
Proof.
  intros Hperm. unfold main.
  destruct (scan_sessions cache0 empty_scan sessions) as [sc|] eqn:Hscan;
    [|discriminate].
  destruct (scan_sessions_ok cache0 sessions [] _ _ (empty_scan_ok cache0) Hscan)
    as (Ha & Hb & Hc).
  set (P := fun sid => exists m, m ∈ all_metrics sc /\ sm_session_id m = sid).
  pose proof (extract_all_keys as_completed Hperm client P
                {| facets_map := cached_facets sc; cache := cache0; calls := [] |}
                (sessions_needing_facets sc)) as Hkeys.
  destruct (extract_all _ _ _ _) as [st1|st1]; [|discriminate].
  destruct (filter_warmups _ _) as [filtered|] eqn:Hf; [|discriminate].
  intros [= <- <- <-]. cbn [state_of] in Hkeys.
  assert (Hdom : forall sid, is_Some (facets_map st1 !! sid) -> P sid).
  { apply Hkeys.
    - cbn [facets_map]. intros sid [v Hv]. by eapply Hc.
    - apply Forall_forall. intros [sess m] Hin.
      destruct (Hb sess m Hin) as (_ & Hm & Hex & _).
      exists m. split; [done|]. by eapply extract_session_metrics_id. }
  destruct (filter_warmups_spec _ _ _ Hf) as (H1 & H2 & H3).
  assert (Hlook : forall sid f w,
             facets_map st1 !! sid = Some f ->
             is_warmup_only (facets_map st1) sid = Ok w ->
             filter_warmup_facets (facets_map st1) !! sid
             = if w : bool then None else Some f).
  { intros sid f w Hsid Hw. unfold filter_warmup_facets. destruct w.
    - apply map_lookup_filter_None. right. intros f' _. cbn [fst]. congruence.
    - apply map_lookup_filter_Some. done. }
  split; [|split; [|split]].
  - intros sid f Hsid. destruct (Hdom sid ltac:(eauto)) as (m & Hin & <-).
    destruct (H1 m Hin) as [w Hw]. exists w. split; [done|]. by apply Hlook.
  - intros m [Hin Hw]%H2. split; [done|].
    destruct (facets_map st1 !! sm_session_id m) as [f|] eqn:Hsid.
    + by rewrite (Hlook _ f false).
    + unfold filter_warmup_facets. apply map_lookup_filter_None. by left.
  - intros sid f [Hsid Hw]%map_lookup_filter_Some. cbn [fst] in Hw.
    destruct (Hdom sid ltac:(eauto)) as (m & Hin & <-).
    exists m. split; [|done]. apply H2. done.
  - exists sc. split; [done|]. split; [done|].
    intros m Hin Hnot. destruct (H1 m Hin) as [[|] Hw]; [done|].
    exfalso. apply Hnot, H2. done.
Qed.

Lemma warmup_filters_agree_witness :
  let r := main (fun l => l) schema_client ∅ [sample_session "0f3a9c2e"] in
  kept_metrics r = [sample_metrics "0f3a9c2e"]
  /\ kept_facets r !! py "0f3a9c2e" = facets_map (final_state r) !! py "0f3a9c2e".
Proof.
  intros r.
  assert (Hmain : r = Completed (final_state r) (kept_metrics r) (kept_facets r))
    by (vm_compute; reflexivity).
  assert (Hkept : kept_metrics r = [sample_metrics "0f3a9c2e"])
    by (vm_compute; reflexivity).
  split; [exact Hkept|].
  pose proof (warmup_filters_agree _ _ _ _ _ _ _ (fun l => Permutation_refl l)
                Hmain) as (_ & H & _).
  refine (proj2 (H (sample_metrics "0f3a9c2e") _)).
  rewrite Hkept. apply list_elem_of_singleton. reflexivity.
Defined.

(** ** The sessions that are aggregated *)

Lemma is_trivial_false (m : metrics) :
  is_trivial m = false
  <-> ~ (sm_user_message_count m < 2 \/ sm_duration_minutes m < 1).
Proof.
  unfold is_trivial. rewrite orb_false_iff, !Z.ltb_ge. lia.
Qed.

Lemma scan_session_kept cache sc sc' sess :
  scan_session cache sc sess = Ok sc' ->
  forall m,
    m ∈ all_metrics sc'
    <-> m ∈ all_metrics sc
        \/ (messages sess <> []
            /\ is_insights_session (messages sess) = false
            /\ extract_session_metrics (messages sess) (session_id sess)
                                       (project sess) = Ok m
            /\ is_trivial m = false).
Proof.
  unfold scan_session.
  destruct (messages sess) as [|msg msgs] eqn:Hmsgs.
  { intros [= <-] m. split; [auto|]. by intros [?|[? _]]. }
  rewrite <- Hmsgs.
  assert (Hne : messages sess <> []) by (by rewrite Hmsgs).
  destruct (is_insights_session _) eqn:Hins.
  { intros [= <-] m. split; [auto|]. by intros [?|(_ & ? & _)]. }
  destruct (extract_session_metrics _ _ _) as [m0|] eqn:Hm;
    cbn [mbind result_bind]; [|discriminate].
  destruct (is_trivial m0) eqn:Htriv.
  { intros [= <-] m. split; [auto|].
    intros [?|(_ & _ & [= <-] & ?)]; [done|congruence]. }
  intros Hsc m.
  assert (Hall : all_metrics sc' = all_metrics sc ++ [m0]).
  { destruct (load_cached_facet cache (session_id sess)) as [v|];
      [destruct (truthy v)|]; injection Hsc as <-; reflexivity. }
  rewrite Hall, elem_of_app, list_elem_of_singleton. split.
  - intros [?| ->]; [by left|right; done].
  - intros [?|(_ & _ & [= <-] & _)]; [by left|by right].
Qed.

Lemma scan_sessions_kept cache sessions sc sc' :
  scan_sessions cache sc sessions = Ok sc' ->
  forall m,
    m ∈ all_metrics sc'
    <-> m ∈ all_metrics sc
        \/ exists sess,
             sess ∈ sessions
             /\ messages sess <> []
             /\ is_insights_session (messages sess) = false
             /\ extract_session_metrics (messages sess) (session_id sess)
                                        (project sess) = Ok m
             /\ is_trivial m = false.
Proof.
  revert sc. induction sessions as [|sess sessions IH]; intros sc;
    cbn [scan_sessions].
  - intros [= <-] m. split; [auto|].
    intros [?|(s & Hin & _)]; [done|by apply elem_of_nil in Hin].
  - destruct (scan_session cache sc sess) as [sc1|] eqn:H1;
      cbn [mbind result_bind]; [|discriminate].
    intros H m. rewrite (IH _ H m), (scan_session_kept _ _ _ _ H1 m). split.
    + intros [[?|Hs]|(s & Hin & Hs)]; [by left| |].
      * right. exists sess. split; [apply elem_of_cons; by left|done].
      * right. exists s. split; [apply elem_of_cons; by right|done].
    + intros [?|(s & [->|Hin]%elem_of_cons & Hs)].
      * left. by left.
      * left. by right.
      * right. by exists s.
Qed.

Lemma duration_of_timed_turns (messages : list message) (sid p : pystr)
    (m : metrics) :
  extract_session_metrics messages sid p = Ok m ->
  (omap timed_turn messages = [] -> sm_duration_minutes m = 0)
  /\ (omap timed_turn messages <> [] -> 1 <= sm_duration_minutes m).
Proof.
  unfold extract_session_metrics.
  destruct (fold_times messages) as [-> ->].
  destruct (omap timed_turn messages) as [|t ts] eqn:Hts.
  - cbn. intros [= <-]. cbn. split; [done|]. intros H. by destruct H.
  - assert (is_Some (last (t :: ts))) as [e He].
    { rewrite last_is_Some. done. }
    rewrite He. cbn [head]. unfold duration_of, datetime_sub.
    destruct (Bool.eqb (aware e) (aware t)); cbn [mbind result_bind];
      [|discriminate].
    intros [= <-]. cbn. split; [done|]. intros _. lia.
Qed.

Lemma user_count_of_records (messages : list message) (sid p : pystr)
    (m : metrics) :
  extract_session_metrics messages sid p = Ok m ->
  sm_user_message_count m = Z.of_nat (length (omap user_text messages)).
Proof.
  unfold extract_session_metrics.
  destruct (fold_user messages) as [_ Hc].
  destruct (match start_time _ with Some _ => _ | None => _ end) as [d|];
    cbn [mbind result_bind]; [|discriminate].
  intros [= <-]. exact Hc.
Qed.

Lemma timed_turns_are_user_turns (messages : list message) :
  omap user_text messages = [] -> omap timed_turn messages = [].
Proof.
  induction messages as [|msg messages IH]; [done|]. simpl.
  unfold timed_turn at 1.
  destruct (user_text msg) eqn:Hu; [discriminate|]. exact IH.
Qed.

Lemma NoDup_fmap_elem {A B} (f : A -> B) (l : list A) (x y : A) :
  NoDup (f <$> l) -> x ∈ l -> y ∈ l -> f x = f y -> x = y.
Proof.
  induction l as [|a l IH]; intros Hnd Hx Hy Hf;
    [by apply elem_of_nil in Hx|].
  rewrite fmap_cons in Hnd. apply NoDup_cons in Hnd as [Ha Hnd].
  apply elem_of_cons in Hx as [->|Hx]; apply elem_of_cons in Hy as [->|Hy].
  - reflexivity.
  - exfalso. apply Ha. rewrite Hf. by apply list_elem_of_fmap_2.
  - exfalso. apply Ha. rewrite <- Hf. by apply list_elem_of_fmap_2.
  - by apply IH.
Qed.

(** C7, as stated, fails: a session with two user turns that lasts one
    minute is left out of the aggregation when its facet says it is a
    warmup, and a session of three user turns over two minutes is left
    out when it quotes the pipeline's own prompt. *)
Lemma warmup_session_is_not_aggregated :
  (exists m st filtered_facets,
     extract_session_metrics (messages (sample_session "0f3a9c2e"))
                             (py "0f3a9c2e") (py "demo") = Ok m
     /\ sm_user_message_count m = 2 /\ sm_duration_minutes m = 1
     /\ main (fun l => l) schema_client warmup_cache [sample_session "0f3a9c2e"]
        = Completed st [] filtered_facets)
  /\ (exists m st filtered_facets,
        extract_session_metrics (messages marker_session)
                                (session_id marker_session) (py "demo") = Ok m
        /\ sm_user_message_count m = 3 /\ sm_duration_minutes m = 2
        /\ main (fun l => l) schema_client ∅ [marker_session]
           = Completed st [] filtered_facets).
Proof.
  split; eexists _, _, _; (split; [vm_compute; reflexivity|]);
    (split; [reflexivity|]); (split; [reflexivity|]); vm_compute; reflexivity.
Qed.

(** C7, amended. In a run that reaches the aggregation, the metrics
    handed to it are those of the sessions whose file yields records,
    that are not the pipeline's own, that have at least 2 user turns and
    a duration of at least 1 minute, and whose facet, if there is one, is
    not warmup-only.  The user-turn count is the number of user records
    with text, and the duration is 0 when no user turn has a parsed
    timestamp and at least 1 otherwise.  So fewer than 2 user turns or a
    duration below 1 always exclude a session: one user turn does,
    whatever the duration, and so does a session without user turns,
    whose duration is 0; two user turns and one minute are included
    unless the session is the pipeline's own or warmup-only.  Among
    sessions with distinct ids, the metrics of a session are handed over
    exactly when the session itself meets these conditions. *)
Theorem trivial_session_filtering
    (as_completed : list (pystr * result (option json))
                    -> list (pystr * result (option json)))
    (client : request -> response) (cache0 : cache_dir)
    (sessions : list session) (st : run_state) (filtered_metrics : list metrics)
    (filtered_facets : gmap pystr json) :
  main as_completed client cache0 sessions
  = Completed st filtered_metrics filtered_facets ->
  (forall m,
     m ∈ filtered_metrics
     <-> exists sess,
           sess ∈ sessions
           /\ messages sess <> []
           /\ is_insights_session (messages sess) = false
           /\ extract_session_metrics (messages sess) (session_id sess)
                                      (project sess) = Ok m
           /\ ~ (sm_user_message_count m < 2 \/ sm_duration_minutes m < 1)
           /\ is_warmup_only (facets_map st) (session_id sess) = Ok false)
  /\ (forall sess m,
        extract_session_metrics (messages sess) (session_id sess) (project sess)
        = Ok m ->
        sm_user_message_count m
        = Z.of_nat (length (omap user_text (messages sess)))
        /\ (omap timed_turn (messages sess) = [] -> sm_duration_minutes m = 0)
        /\ (omap timed_turn (messages sess) <> [] -> 1 <= sm_duration_minutes m)
        /\ (sm_user_message_count m = 0 -> sm_duration_minutes m = 0)
        /\ (sm_user_message_count m < 2 \/ sm_duration_minutes m < 1 ->
            m ∉ filtered_metrics)
        /\ (sm_user_message_count m = 1 -> m ∉ filtered_metrics)
        /\ (sess ∈ sessions ->
            sm_user_message_count m = 2 -> sm_duration_minutes m = 1 ->
            is_insights_session (messages sess) = false ->
            is_warmup_only (facets_map st) (session_id sess) = Ok false ->
            m ∈ filtered_metrics))
  /\ (NoDup (session_id <$> sessions) ->
      forall sess m,
        sess ∈ sessions ->
        extract_session_metrics (messages sess) (session_id sess) (project sess)
        = Ok m ->
        m ∈ filtered_metrics
        <-> messages sess <> []
            /\ is_insights_session (messages sess) = false
            /\ ~ (sm_user_message_count m < 2 \/ sm_duration_minutes m < 1)
            /\ is_warmup_only (facets_map st) (session_id sess) = Ok false).
Proof.
  unfold main.
  destruct (scan_sessions cache0 empty_scan sessions) as [sc|] eqn:Hscan;
    [|discriminate].
  destruct (extract_all _ _ _ _) as [st1|st1]; [|discriminate].
  destruct (filter_warmups _ _) as [filtered|] eqn:Hf; [|discriminate].
  intros [= <- <- <-].
  destruct (filter_warmups_spec _ _ _ Hf) as (_ & Hfilt & _).
  pose proof (scan_sessions_kept _ _ _ _ Hscan) as Hkept.
  assert (Hiff : forall m,
    m ∈ filtered
    <-> exists sess,
          sess ∈ sessions
          /\ messages sess <> []
          /\ is_insights_session (messages sess) = false
          /\ extract_session_metrics (messages sess) (session_id sess)
                                     (project sess) = Ok m
          /\ ~ (sm_user_message_count m < 2 \/ sm_duration_minutes m < 1)
          /\ is_warmup_only (facets_map st1) (session_id sess) = Ok false).
  { intros m. rewrite Hfilt, Hkept. cbn [all_metrics empty_scan]. split.
    - intros [[Hin|(sess & Hs & Hne & Hins & Hm & Ht)] Hw];
        [by apply elem_of_nil in Hin|].
      exists sess. rewrite (extract_session_metrics_id _ _ _ _ Hm) in Hw.
      by apply is_trivial_false in Ht.
    - intros (sess & Hs & Hne & Hins & Hm & Ht & Hw).
      rewrite (extract_session_metrics_id _ _ _ _ Hm). split; [|done].
      right. exists sess. by apply is_trivial_false in Ht. }
  split; [exact Hiff|]. split.
  2:{ intros Hnd sess m Hs Hm. rewrite Hiff. split.
      - intros (sess' & Hs' & Hne & Hins & Hm' & Ht & Hw).
        assert (sess' = sess) as ->; [|done].
        apply (NoDup_fmap_elem session_id sessions); try done.
        rewrite <- (extract_session_metrics_id _ _ _ _ Hm).
        exact (eq_sym (extract_session_metrics_id _ _ _ _ Hm')).
      - intros (Hne & Hins & Ht & Hw). by exists sess. }
  intros sess m Hm.
  pose proof (user_count_of_records _ _ _ _ Hm) as Hc.
  destruct (duration_of_timed_turns _ _ _ _ Hm) as [Hd0 Hd1].
  assert (Hout : sm_user_message_count m < 2 \/ sm_duration_minutes m < 1 ->
                 m ∉ filtered).
  { intros Ht (s & _ & _ & _ & _ & Hnt & _)%Hiff. by apply Hnt. }
  split; [exact Hc|]. split; [exact Hd0|]. split; [exact Hd1|].
  split; [|split; [exact Hout|split]].
  - intros Hz. apply Hd0, timed_turns_are_user_turns.
    rewrite Hc in Hz. apply length_zero_iff_nil. lia.
  - intros H1. apply Hout. lia.
  - intros Hs H2 Hd Hins Hw. apply Hiff. exists sess.
    split; [done|]. split; [|split; [done|split; [done|split; [lia|done]]]].
    intros Hnil. rewrite Hnil in Hc. cbn in Hc. lia.
Qed.

Lemma trivial_session_filtering_witness :
  sample_metrics "0f3a9c2e"
  ∈ kept_metrics (main (fun l => l) schema_client ∅
                       [one_turn_session; sample_session "0f3a9c2e"])
  /\ length (kept_metrics (main (fun l => l) schema_client ∅
                                [one_turn_session; sample_session "0f3a9c2e"]))
     = 1%nat.
Proof.
  split; [|by vm_compute].
  set (r := main (fun l => l) schema_client ∅
                 [one_turn_session; sample_session "0f3a9c2e"]).
  assert (Hr : r = Completed (final_state r) (kept_metrics r) (kept_facets r))
    by (vm_compute; reflexivity).
  apply (proj1 (trivial_session_filtering _ _ _ _ _ _ _ Hr)).
  exists (sample_session "0f3a9c2e").
  split; [apply elem_of_cons; right; apply elem_of_cons; by left|].
  split; [discriminate|]. split; [reflexivity|]. split; [reflexivity|].
  split; [cbn; lia|]. by vm_compute.
Defined.

(** ** Writing and reading a value *)

Lemma hex_val_digit (d : N) : (d < 16)%N -> hex_val (hex_digit d) = Some d.
Proof.
  intros Hd.
  assert (H : In d (map N.of_nat (seq 0 16))).
  { apply in_map_iff. exists (N.to_nat d). split; [lia|]. apply in_seq. lia. }
  simpl in H. repeat (destruct H as [<-|H]; [reflexivity|]). done.
Qed.

Lemma decode_u_escape (u : N) :
  (u < 65536)%N ->
  exists h1 h2 h3 h4,
    u_escape u = [92; 117; h1; h2; h3; h4]%N
    /\ decode_uXXXX h1 h2 h3 h4 = Some u.
Proof.
  intros Hu. unfold u_escape. eexists _, _, _, _. split; [reflexivity|].
  unfold decode_uXXXX. rewrite !N.shiftr_div_pow2.
  rewrite !hex_val_digit by (apply N.mod_upper_bound; done).
  f_equal. change (2 ^ 12)%N with 4096%N. change (2 ^ 8)%N with 256%N.
  change (2 ^ 4)%N with 16%N.
  div_lia.
Qed.

Lemma lor_shiftl_small (a n x : N) :
  (x < 2 ^ n)%N -> N.lor (N.shiftl a n) x = (a * 2 ^ n + x)%N.
Proof.
  intros Hx. rewrite <- N.shiftl_mul_pow2.
  rewrite <- N.lxor_lor, <- N.add_nocarry_lxor; try done.
  all: apply N.bits_inj; intros i; rewrite N.land_spec, N.bits_0.
  all: destruct (N.lt_ge_cases i n) as [Hi|Hi];
    [by rewrite N.shiftl_spec_low|].
  all: rewrite <- (N.mod_small x (2 ^ n)) by done.
  all: rewrite N.mod_pow2_bits_high by done; apply andb_false_r.
Qed.

(** The two halves [py_encode_basestring_ascii] writes for a character
    beyond the basic plane, and what [scanstring] makes of them. *)
Lemma surrogate_pair (c : N) :
  (65536 <= c < 1114112)%N ->
  let n := (c - 65536)%N in
  let hi := N.lor 55296 (N.land (N.shiftr n 10) 1023) in
  let lo := N.lor 56320 (N.land n 1023) in
  (hi < 65536)%N /\ (lo < 65536)%N
  /\ is_high_surrogate hi = true /\ is_low_surrogate lo = true
  /\ join_surrogates hi lo = c.
Proof.
  intros Hc n hi lo.
  assert (Hhi : hi = (55296 + n / 1024)%N).
  { subst hi. change 1023%N with (N.ones 10). rewrite N.land_ones.
    rewrite N.shiftr_div_pow2. change (2 ^ 10)%N with 1024%N.
    change 55296%N with (N.shiftl 54 10).
    rewrite lor_shiftl_small by (apply N.mod_upper_bound; done).
    rewrite N.mod_small; [reflexivity|].
    subst n. div_lia. }
  assert (Hlo : lo = (56320 + n mod 1024)%N).
  { subst lo. change 1023%N with (N.ones 10). rewrite N.land_ones.
    change (2 ^ 10)%N with 1024%N. change 56320%N with (N.shiftl 55 10).
    rewrite lor_shiftl_small by (apply N.mod_upper_bound; done). reflexivity. }
  assert (Hn : (n / 1024 < 1024 /\ n mod 1024 < 1024)%N).
  { subst n. div_lia. }
  unfold is_high_surrogate, is_low_surrogate, join_surrogates.
  rewrite Hhi, Hlo.
  replace (55296 + n / 1024 - 55296)%N with (n / 1024)%N by div_lia.
  replace (56320 + n mod 1024 - 56320)%N with (n mod 1024)%N by div_lia.
  rewrite lor_shiftl_small by (change (2 ^ 10)%N with 1024%N; lia).
  change (2 ^ 10)%N with 1024%N.
  split; [div_lia|]. split; [div_lia|].
  split; [apply andb_true_iff; split; apply N.leb_le; div_lia|].
  split; [apply andb_true_iff; split; apply N.leb_le; div_lia|].
  subst n. div_lia.
Qed.

(** ** Strings: what the encoder escapes, the scanner reads back *)

Lemma scanstring_escape_char (c : N) (acc t : pystr) :
  plain_char c = true ->
  scanstring acc (escape_char c ++ t) = scanstring (acc ++ [c]) t.
Proof.
  unfold plain_char. intros [Hmax%N.ltb_lt Hhigh%negb_true_iff]%andb_true_iff.
  unfold escape_char.
  destruct (c =? 92)%N eqn:E1; [apply N.eqb_eq in E1 as ->; reflexivity|].
  destruct (c =? 34)%N eqn:E2; [apply N.eqb_eq in E2 as ->; reflexivity|].
  destruct (c =? 8)%N eqn:E3; [apply N.eqb_eq in E3 as ->; reflexivity|].
  destruct (c =? 12)%N eqn:E4; [apply N.eqb_eq in E4 as ->; reflexivity|].
  destruct (c =? 10)%N eqn:E5; [apply N.eqb_eq in E5 as ->; reflexivity|].
  destruct (c =? 13)%N eqn:E6; [apply N.eqb_eq in E6 as ->; reflexivity|].
  destruct (c =? 9)%N eqn:E7; [apply N.eqb_eq in E7 as ->; reflexivity|].
  destruct ((32 <=? c) && (c <=? 126))%N eqn:E8.
  { apply andb_true_iff in E8 as [Hlo%N.leb_le Hhi].
    cbn [app scanstring]. rewrite E2, E1.
    destruct (c <? 32)%N eqn:E9; [apply N.ltb_lt in E9; lia|done]. }
  destruct (c <? 65536)%N eqn:E9.
  - apply N.ltb_lt in E9.
    destruct (decode_u_escape c E9) as (h1 & h2 & h3 & h4 & -> & Hdec).
    cbn [app scanstring]. change (92 =? 34)%N with false.
    change (92 =? 92)%N with true. change (117 =? 117)%N with true.
    cbv beta iota. by rewrite Hdec, Hhigh.
  - apply N.ltb_ge in E9.
    destruct (surrogate_pair c ltac:(lia)) as (Hhi & Hlo & Hh & Hl & Hj).
    cbv zeta in *.
    destruct (decode_u_escape _ Hhi) as (h1 & h2 & h3 & h4 & -> & Hdec1).
    destruct (decode_u_escape _ Hlo) as (g1 & g2 & g3 & g4 & -> & Hdec2).
    cbn [app scanstring]. change (92 =? 34)%N with false.
    change (92 =? 92)%N with true. change (117 =? 117)%N with true.
    cbv beta iota. rewrite Hdec1, Hh. cbn [andb]. rewrite Hdec2, Hl, Hj. done.
Qed.

Lemma scanstring_escaped (s acc r : pystr) :
  plain_text s = true ->
  scanstring acc (concat (map escape_char s) ++ 34%N :: r) = Some (acc ++ s, r).
Proof.
  revert acc. induction s as [|c s IH]; intros acc; cbn [map concat app plain_text forallb].
  - intros _. cbn [scanstring]. change (34 =? 34)%N with true. cbv iota.
    by rewrite app_nil_r.
  - intros [Hc Hs]%andb_true_iff.
    rewrite <- app_assoc, scanstring_escape_char by done.
    rewrite (IH _ Hs), <- app_assoc. done.
Qed.

(** ** Integers: [int.__repr__] and [NUMBER_RE] *)

Lemma digits_are_digits (d : Decimal.uint) :
  forallb is_digit (py (NilEmpty.string_of_uint d)) = true.
Proof. induction d; cbn; done. Qed.

Lemma fold_digits_acc (d : Decimal.uint) (acc : positive) :
  fold_left (fun a c => a * 10 + (Z.of_N c - 48))
            (py (NilEmpty.string_of_uint d)) (Z.pos acc)
  = Z.pos (Pos.of_uint_acc d acc).
Proof.
  revert acc. induction d as [|d IH|d IH|d IH|d IH|d IH|d IH|d IH|d IH|d IH|d IH];
    intros acc; [reflexivity|..].
  all: cbn [NilEmpty.string_of_uint py Ascii.eqb Bool.eqb N_of_ascii N_of_digits
            fold_left Pos.of_uint_acc].
  all: rewrite <- IH; f_equal; cbn; lia.
Qed.

Lemma int_of_digits_uint (d : Decimal.uint) :
  int_of_digits (py (NilEmpty.string_of_uint d)) = Z.of_N (Pos.of_uint d).
Proof.
  unfold int_of_digits.
  induction d as [|d IH|d IH|d IH|d IH|d IH|d IH|d IH|d IH|d IH|d IH];
    [reflexivity|exact IH|..].
  all: cbn [NilEmpty.string_of_uint py Ascii.eqb Bool.eqb N_of_ascii N_of_digits
            fold_left Pos.of_uint].
  all: cbn [Z.of_N]; rewrite <- fold_digits_acc; reflexivity.
Qed.

Lemma to_uint_shape (p : positive) :
  exists c ds,
    py (NilEmpty.string_of_uint (Pos.to_uint p)) = c :: ds
    /\ is_digit c = true /\ (c =? 48)%N = false
    /\ forallb is_digit ds = true.
Proof.
  pose proof (DecimalPos.Unsigned.to_of (Pos.to_uint p)) as Hnorm.
  rewrite DecimalPos.Unsigned.of_to in Hnorm. cbn [N.to_uint] in Hnorm.
  pose proof (DecimalPos.Unsigned.to_uint_nonzero p) as Hnz.
  assert (Hhead : Decimal.nzhead (Pos.to_uint p) <> Decimal.Nil).
  { intros H%DecimalFacts.unorm_0. congruence. }
  rewrite (DecimalFacts.unorm_nzhead _ Hhead) in Hnorm.
  pose proof (digits_are_digits (Pos.to_uint p)) as Hd.
  pose proof (DecimalFacts.nzhead_nonzero (Pos.to_uint p)) as Hn0.
  rewrite <- Hnorm in Hn0, Hhead.
  destruct (Pos.to_uint p) as [|d|d|d|d|d|d|d|d|d|d]; [done|by destruct (Hn0 d)|..].
  all: eexists _, _; split; [reflexivity|]; split; [done|]; split; [done|].
  all: exact Hd.
Qed.

Lemma span_digits_all (ds r : pystr) :
  forallb is_digit ds = true -> closes r = true ->
  span_digits (ds ++ r) = (ds, r).
Proof.
  intros Hds Hr. induction ds as [|c ds IH]; cbn [app span_digits].
  - destruct r as [|c r]; [done|]. cbn [span_digits closes] in *.
    apply orb_true_iff in Hr as [->%N.eqb_eq| ->%N.eqb_eq]; reflexivity.
  - cbn [forallb] in Hds. apply andb_true_iff in Hds as [-> Hds].
    by rewrite (IH Hds).
Qed.

Lemma closes_no_frac (r : pystr) :
  closes r = true -> match_frac r = ([], r) /\ match_exp r = ([], r).
Proof.
  destruct r as [|c r]; [done|]. cbn [closes].
  intros [->%N.eqb_eq| ->%N.eqb_eq]%orb_true_iff; done.
Qed.

Lemma match_number_digits (c : N) (ds r : pystr) :
  is_digit c = true -> (c =? 48)%N = false -> forallb is_digit ds = true ->
  closes r = true ->
  match_integer (c :: ds ++ r) = Some (c :: ds, r).
Proof.
  intros Hc H0 Hds Hr. unfold match_integer.
  by rewrite H0, Hc, span_digits_all.
Qed.

Lemma digit_not_minus (c : N) : is_digit c = true -> (c =? 45)%N = false.
Proof.
  unfold is_digit. intros [H1%N.leb_le H2%N.leb_le]%andb_true_iff.
  apply N.eqb_neq. lia.
Qed.

Lemma match_number_int_repr (n : Z) (r : pystr) :
  closes r = true ->
  match_number (int_repr n ++ r) = Some (JInt n, r).
Proof.
  intros Hr. destruct (closes_no_frac r Hr) as [Hf He].
  unfold int_repr. destruct n as [|p|p]; cbn [Z.to_int NilZero.string_of_int].
  - change (py _ ++ r) with (48%N :: r).
    unfold match_number. change (48 =? 45)%N with false. cbv iota.
    unfold match_integer. change (48 =? 48)%N with true. cbv iota.
    by rewrite Hf, He.
  - pose proof (int_of_digits_uint (Pos.to_uint p)) as Hval.
    rewrite DecimalPos.Unsigned.of_to in Hval. cbn [Z.of_N] in Hval.
    destruct (to_uint_shape p) as (c & ds & Hshape & Hc & H0 & Hds).
    assert (Hs : py (NilZero.string_of_uint (Pos.to_uint p)) = c :: ds).
    { rewrite <- Hshape. unfold NilZero.string_of_uint.
      pose proof (DecimalPos.Unsigned.to_uint_nonnil p). by destruct (Pos.to_uint p). }
    rewrite Hs. rewrite Hshape in Hval. cbn [app]. unfold match_number.
    rewrite (digit_not_minus c Hc), match_number_digits by done.
    by rewrite Hf, He, Hval.
  - pose proof (int_of_digits_uint (Pos.to_uint p)) as Hval.
    rewrite DecimalPos.Unsigned.of_to in Hval. cbn [Z.of_N] in Hval.
    destruct (to_uint_shape p) as (c & ds & Hshape & Hc & H0 & Hds).
    assert (Hs : py (String "-" (NilZero.string_of_uint (Pos.to_uint p)))
                 = 45%N :: c :: ds).
    { rewrite <- Hshape. unfold NilZero.string_of_uint.
      pose proof (DecimalPos.Unsigned.to_uint_nonnil p). by destruct (Pos.to_uint p). }
    rewrite Hs. rewrite Hshape in Hval. cbn [app]. unfold match_number.
    change (45 =? 45)%N with true. cbv iota.
    rewrite match_number_digits by done.
    by rewrite Hf, He, Hval.
Qed.

Lemma enc_value (level : nat) (v : json) :
  concat match scalar_text v with
         | Some t => [t]
         | None => iterencode level v
         end = enc level v.
Proof.
  unfold enc. destruct v as [|[|]|n|x|s|items|pairs]; cbn; try by rewrite app_nil_r.
  all: done.
Qed.

Lemma enc_head (level : nat) (buf : pystr) (v : json) :
  concat match scalar_text v with
         | Some t => [buf ++ t]
         | None => buf :: iterencode level v
         end = buf ++ enc level v.
Proof.
  rewrite <- enc_value. destruct (scalar_text v); cbn [concat];
    by rewrite ?app_nil_r.
Qed.

Lemma enc_arr (level : nat) (v : json) (items : list json) :
  enc level (JArr (v :: items))
  = 91%N :: newline_indent (S level) ++ enc (S level) v ++ arr_rest level items.
Proof.
  unfold enc at 1. cbn [iterencode].
  match goal with
  | |- context [?each false items] =>
      assert (Hrest : forall l,
                 concat (each false l ++ [newline_indent level; py "]"])
                 = arr_rest level l)
  end.
  { induction l as [|x l IH]; [reflexivity|].
    cbn [arr_rest]. rewrite <- IH, <- app_assoc, concat_app, enc_head.
    by rewrite <- app_assoc. }
  rewrite <- app_assoc, concat_app, enc_head, Hrest. by rewrite <- app_assoc.
Qed.

Lemma enc_obj (level : nat) (key : pystr) (v : json) (pairs : list (pystr * json)) :
  enc level (JObj ((key, v) :: pairs))
  = 123%N :: newline_indent (S level) ++ encode_basestring_ascii key ++ py ": "
    ++ enc (S level) v ++ obj_rest level pairs.
Proof.
  unfold enc at 1. cbn [iterencode].
  match goal with
  | |- context [?each false pairs] =>
      assert (Hrest : forall l,
                 concat (each false l ++ [newline_indent level; py "}"])
                 = obj_rest level l)
  end.
  { induction l as [|[k x] l IH]; [reflexivity|].
    cbn [obj_rest]. rewrite <- IH.
    rewrite <- !app_assoc, !concat_app, enc_value. cbn [concat app].
    by rewrite !app_nil_r, <- !app_assoc. }
  rewrite <- Hrest.
  rewrite <- !app_assoc, !concat_app, enc_value. cbn [concat app].
  by rewrite !app_nil_r, <- !app_assoc.
Qed.

(** ** The decoder on what the encoder writes *)

Lemma skip_ws_start (s : pystr) : starts_value s = true -> skip_ws s = s.
Proof.
  destruct s as [|c s]; [done|]. cbn [starts_value skip_ws].
  intros [[Hws%negb_true_iff _]%andb_true_iff _]%andb_true_iff. by rewrite Hws.
Qed.

Lemma skip_ws_indent (level : nat) (s : pystr) :
  skip_ws (newline_indent level ++ s) = skip_ws s.
Proof.
  unfold newline_indent. cbn [app skip_ws]. change (is_ws 10) with true.
  cbv iota. induction (2 * level)%nat as [|k IH]; [done|].
  cbn [repeat app skip_ws]. change (is_ws 32) with true. exact IH.
Qed.

Lemma reads_array (s t : pystr) (q : N) (v : json) (r : pystr) :
  skip_ws s = q :: t -> (q =? 93)%N = false ->
  reads (fun m => array_items m []) (q :: t) v r ->
  reads scan_once (91%N :: s) v r.
Proof.
  intros Hs Hq [N HN]. exists (S N). intros [|m] Hm; [lia|].
  cbn [scan_once]. unfold scan_value.
  change (91 =? 34)%N with false. change (91 =? 123)%N with false.
  change (91 =? 91)%N with true. cbv iota.
  rewrite Hs, Hq. apply HN. lia.
Qed.

Lemma reads_object (s t : pystr) (v : json) (r : pystr) :
  skip_ws s = 34%N :: t ->
  reads (fun m => object_members m []) t v r ->
  reads scan_once (123%N :: s) v r.
Proof.
  intros Hs [N HN]. exists (S N). intros [|m] Hm; [lia|].
  cbn [scan_once]. unfold scan_value.
  change (123 =? 34)%N with false. change (123 =? 123)%N with true. cbv iota.
  rewrite Hs. change (34 =? 125)%N with false. change (34 =? 34)%N with true.
  cbv iota. apply HN. lia.
Qed.

Lemma reads_items_last (values : list json) (s s1 s2 : pystr) (x : json) :
  reads scan_once s x s1 -> skip_ws s1 = 93%N :: s2 ->
  reads (fun m => array_items m values) s (JArr (values ++ [x])) s2.
Proof.
  intros [N HN] Hs. exists (S N). intros [|m] Hm; [lia|].
  cbn [array_items]. unfold items_step.
  rewrite HN by lia. rewrite Hs. done.
Qed.

Lemma reads_items_more (values : list json) (s s1 s2 : pystr) (x v : json)
    (r : pystr) :
  reads scan_once s x s1 -> skip_ws s1 = 44%N :: s2 ->
  reads (fun m => array_items m (values ++ [x])) (skip_ws s2) v r ->
  reads (fun m => array_items m values) s v r.
Proof.
  intros [N HN] Hs [N' HN']. exists (S (N `max` N')). intros [|m] Hm; [lia|].
  cbn [array_items]. unfold items_step.
  rewrite HN by lia. rewrite Hs.
  change (44 =? 93)%N with false. change (44 =? 44)%N with true. cbv iota.
  apply HN'. lia.
Qed.

Lemma reads_members_last (acc : list (pystr * json)) (s s1 s2 s3 s4 : pystr)
    (k : pystr) (x : json) :
  scanstring [] s = Some (k, s1) -> skip_ws s1 = 58%N :: s2 ->
  reads scan_once (skip_ws s2) x s3 -> skip_ws s3 = 125%N :: s4 ->
  reads (fun m => object_members m acc) s
        (JObj (dict_of_pairs (acc ++ [(k, x)]))) s4.
Proof.
  intros Hk Hc [N HN] Hs. exists (S N). intros [|m] Hm; [lia|].
  cbn [object_members]. unfold members_step.
  rewrite Hk, Hc. change (58 =? 58)%N with true. cbv iota.
  rewrite HN by lia. rewrite Hs. done.
Qed.

Lemma reads_members_more (acc : list (pystr * json)) (s s1 s2 s3 s4 s5 : pystr)
    (k : pystr) (x v : json) (r : pystr) :
  scanstring [] s = Some (k, s1) -> skip_ws s1 = 58%N :: s2 ->
  reads scan_once (skip_ws s2) x s3 -> skip_ws s3 = 44%N :: s4 ->
  skip_ws s4 = 34%N :: s5 ->
  reads (fun m => object_members m (acc ++ [(k, x)])) s5 v r ->
  reads (fun m => object_members m acc) s v r.
Proof.
  intros Hk Hc [N HN] Hs Hq [N' HN']. exists (S (N `max` N')).
  intros [|m] Hm; [lia|].
  cbn [object_members]. unfold members_step.
  rewrite Hk, Hc. change (58 =? 58)%N with true. cbv iota.
  rewrite HN by lia. rewrite Hs.
  change (44 =? 125)%N with false. change (44 =? 44)%N with true. cbv iota.
  rewrite Hq. change (34 =? 34)%N with true. cbv iota. apply HN'. lia.
Qed.

Lemma int_repr_head (n : Z) :
  exists c t, int_repr n = c :: t /\ (c = 45%N \/ is_digit c = true).
Proof.
  unfold int_repr. destruct n as [|p|p]; cbn [Z.to_int NilZero.string_of_int].
  - exists 48%N, []. split; [reflexivity|by right].
  - destruct (to_uint_shape p) as (c & ds & Hshape & Hc & _).
    exists c, ds. split; [|by right]. rewrite <- Hshape.
    unfold NilZero.string_of_uint.
    pose proof (DecimalPos.Unsigned.to_uint_nonnil p). by destruct (Pos.to_uint p).
  - eexists 45%N, _. split; [reflexivity|by left].
Qed.

Lemma is_digit_bounds (c : N) : is_digit c = true -> (48 <= c <= 57)%N.
Proof.
  unfold is_digit. intros [H1%N.leb_le H2%N.leb_le]%andb_true_iff. done.
Qed.

Lemma number_head (c : N) :
  c = 45%N \/ is_digit c = true ->
  (c =? 34)%N = false /\ (c =? 123)%N = false /\ (c =? 91)%N = false
  /\ (110 =? c)%N = false /\ (116 =? c)%N = false /\ (102 =? c)%N = false
  /\ is_ws c = false /\ (c =? 93)%N = false /\ (c <? 128)%N = true.
Proof.
  intros [->|Hc%is_digit_bounds]; [done|].
  unfold is_ws. repeat split; try (apply N.eqb_neq; lia); [|apply N.ltb_lt; lia].
  repeat (apply orb_false_iff; split); apply N.eqb_neq; lia.
Qed.

Lemma scan_value_int members items (n : Z) (r : pystr) :
  closes r = true ->
  scan_value members items (int_repr n ++ r) = Some (JInt n, r).
Proof.
  intros Hr. pose proof (match_number_int_repr n r Hr) as Hnum.
  destruct (int_repr_head n) as (c & t & Hrepr & Hc).
  rewrite Hrepr in *. cbn [app] in *.
  destruct (number_head c Hc) as (H1 & H2 & H3 & H4 & H5 & H6 & _).
  unfold scan_value. rewrite H1, H2, H3. unfold scan_scalar.
  cbn [py starts_with Ascii.eqb Bool.eqb N_of_ascii N_of_digits].
  change (0 + 2 * (1 + 2 * (1 + 2 * (1 + 2 * (0 + 2 * (1 + 2 * (1 + 2 * (0 + 2 * 0)))))))
         =? c)%N with (110 =? c)%N.
  change (0 + 2 * (0 + 2 * (1 + 2 * (0 + 2 * (1 + 2 * (1 + 2 * (1 + 2 * (0 + 2 * 0)))))))
         =? c)%N with (116 =? c)%N.
  change (0 + 2 * (1 + 2 * (1 + 2 * (0 + 2 * (0 + 2 * (1 + 2 * (1 + 2 * (0 + 2 * 0)))))))
         =? c)%N with (102 =? c)%N.
  rewrite H4, H5, H6. cbn [andb]. by rewrite Hnum.
Qed.

Lemma closes_arr_rest (level : nat) (xs : list json) (r : pystr) :
  closes (arr_rest level xs ++ r) = true.
Proof. by destruct xs. Qed.

Lemma closes_obj_rest (level : nat) (ps : list (pystr * json)) (r : pystr) :
  closes (obj_rest level ps ++ r) = true.
Proof. by destruct ps as [|[k x] ps]. Qed.

Lemma enc_starts (level : nat) (v : json) (r : pystr) :
  storable v = true -> starts_value (enc level v ++ r) = true.
Proof.
  destruct v as [|[|]|n|x|s|[|x xs]|[|[k x] ps]]; try done; intros _.
  all: rewrite ?enc_arr, ?enc_obj; try done.
  unfold enc. cbn [iterencode scalar_text concat].
  destruct (int_repr_head n) as (c & t & -> & Hc).
  destruct (number_head c Hc) as (_ & _ & _ & _ & _ & _ & H7 & H8 & H9).
  cbn [app starts_value]. by rewrite H7, H8, H9.
Qed.

Lemma dict_set_fresh {V} (k : pystr) (v : V) (d : list (pystr * V)) :
  k ∉ d.*1 -> dict_set k v d = d ++ [(k, v)].
Proof.
  induction d as [|[k' v'] d IH]; [done|].
  rewrite fmap_cons, not_elem_of_cons. cbn [fst]. intros [Hne Hin].
  cbn [dict_set app]. unfold pystr_eqb.
  rewrite bool_decide_eq_false_2 by done. by rewrite IH.
Qed.

Lemma dict_of_pairs_NoDup {V} (acc pairs : list (pystr * V)) :
  NoDup (acc ++ pairs).*1 ->
  fold_left (fun d kv => dict_set (fst kv) (snd kv) d) pairs acc = acc ++ pairs.
Proof.
  revert acc. induction pairs as [|[k v] pairs IH]; intros acc Hnd;
    cbn [fold_left]; [by rewrite app_nil_r|].
  rewrite cons_middle, app_assoc in Hnd |- *. rewrite <- (IH _ Hnd). f_equal.
  cbn [fst snd]. apply dict_set_fresh.
  rewrite !fmap_app in Hnd. apply NoDup_app in Hnd as [Hnd _].
  apply NoDup_app in Hnd as (_ & Hdis & _). intros Hin.
  apply (Hdis k Hin). by apply list_elem_of_singleton.
Qed.

Section Decode.

Variable level : nat.
Variable r : pystr.

Lemma reads_arr_items (xs : list json) :
  Forall readable xs -> forallb storable xs = true ->
  forall x values,
    readable x -> storable x = true ->
    reads (fun m => array_items m values)
          (enc (S level) x ++ arr_rest level xs ++ r)
          (JArr (values ++ x :: xs)) r.
Proof.
  induction xs as [|y ys IH]; intros Hall Hst x values Hx Hsx.
  - eapply reads_items_last.
    + apply (Hx Hsx). apply closes_arr_rest.
    + cbn [arr_rest]. by rewrite <- app_assoc, skip_ws_indent.
  - apply Forall_cons in Hall as [Hy Hys].
    cbn [forallb] in Hst. apply andb_true_iff in Hst as [Hsy Hsys].
    eapply reads_items_more.
    + apply (Hx Hsx). apply closes_arr_rest.
    + cbn [arr_rest app]. reflexivity.
    + rewrite <- !app_assoc, skip_ws_indent, skip_ws_start
        by (by apply enc_starts).
      specialize (IH Hys Hsys y (values ++ [x]) Hy Hsy).
      by rewrite <- app_assoc in IH.
Qed.

Lemma reads_obj_members (ps : list (pystr * json)) :
  Forall (fun kv => readable (snd kv)) ps ->
  forallb (fun kv => plain_text (fst kv) && storable (snd kv)) ps = true ->
  forall k x acc,
    readable x -> plain_text k = true -> storable x = true ->
    reads (fun m => object_members m acc)
          (concat (map escape_char k) ++ 34%N :: py ": " ++ enc (S level) x
           ++ obj_rest level ps ++ r)
          (JObj (dict_of_pairs (acc ++ (k, x) :: ps))) r.
Proof.
  induction ps as [|[k2 y] ps IH]; intros Hall Hst k x acc Hx Hk Hsx.
  - eapply reads_members_last.
    + by apply scanstring_escaped.
    + reflexivity.
    + cbn [skip_ws]. change (is_ws 32) with true. cbv iota.
      rewrite skip_ws_start by (by apply enc_starts).
      apply (Hx Hsx). apply closes_obj_rest.
    + cbn [obj_rest]. by rewrite <- app_assoc, skip_ws_indent.
  - apply Forall_cons in Hall as [Hy Hys]. cbn [snd] in Hy.
    cbn [forallb fst snd] in Hst.
    apply andb_true_iff in Hst as [[Hk2 Hsy]%andb_true_iff Hsps].
    eapply reads_members_more.
    + by apply scanstring_escaped.
    + reflexivity.
    + cbn [skip_ws]. change (is_ws 32) with true. cbv iota.
      rewrite skip_ws_start by (by apply enc_starts).
      apply (Hx Hsx). apply closes_obj_rest.
    + cbn [obj_rest app]. reflexivity.
    + rewrite <- !app_assoc, skip_ws_indent. unfold encode_basestring_ascii.
      cbn [app skip_ws]. reflexivity.
    + specialize (IH Hys Hsps k2 y (acc ++ [(k, x)]) Hy Hk2 Hsy).
      rewrite <- !app_assoc in IH |- *. cbn [app] in IH |- *. exact IH.
Qed.

End Decode.

(** Whatever follows a stored value that ends it, the scanner reads the
    value back from the text the encoder wrote for it. *)
Lemma reads_enc (v : json) :
  storable v = true ->
  forall level r, closes r = true -> reads scan_once (enc level v ++ r) v r.
Proof.
  induction v as [|b|n|x|s|items IH|pairs IH] using json_nested_ind;
    intros Hst level r Hr.
  - exists 1%nat. intros [|m] Hm; [lia|]. reflexivity.
  - exists 1%nat. intros [|m] Hm; [lia|]. by destruct b.
  - exists 1%nat. intros [|m] Hm; [lia|]. cbn [scan_once].
    unfold enc. cbn [iterencode scalar_text concat]. rewrite app_nil_r.
    by apply scan_value_int.
  - done.
  - exists 1%nat. intros [|m] Hm; [lia|]. cbn [scan_once].
    unfold enc. cbn [iterencode scalar_text concat]. rewrite app_nil_r.
    unfold encode_basestring_ascii. cbn [app]. unfold scan_value.
    change (34 =? 34)%N with true. cbv iota.
    rewrite <- app_assoc. cbn [app]. by rewrite scanstring_escaped.
  - destruct items as [|x xs].
    + exists 1%nat. intros [|m] Hm; [lia|]. reflexivity.
    + apply Forall_cons in IH as [Hx Hxs].
      cbn [storable forallb] in Hst. apply andb_true_iff in Hst as [Hsx Hsxs].
      assert (Htxt : enc level (JArr (x :: xs)) ++ r
                     = 91%N :: newline_indent (S level)
                       ++ (enc (S level) x ++ arr_rest level xs ++ r)).
      { rewrite enc_arr. cbn [app]. by rewrite <- !app_assoc. }
      rewrite Htxt.
      pose proof (enc_starts (S level) x (arr_rest level xs ++ r) Hsx) as Hstart.
      destruct (enc (S level) x ++ arr_rest level xs ++ r) as [|q t] eqn:Htext;
        [done|].
      eapply reads_array.
      * rewrite skip_ws_indent. by apply skip_ws_start.
      * cbn [starts_value] in Hstart.
        by apply andb_true_iff in Hstart
          as [[_ ?%negb_true_iff]%andb_true_iff _].
      * rewrite <- Htext.
        by apply (reads_arr_items level r xs Hxs Hsxs x []).
  - destruct pairs as [|[k x] ps].
    + exists 1%nat. intros [|m] Hm; [lia|]. reflexivity.
    + apply Forall_cons in IH as [Hx Hps]. cbn [snd] in Hx.
      cbn [storable forallb fst snd] in Hst.
      apply andb_true_iff in Hst as [[[Hk Hsx]%andb_true_iff Hsps]%andb_true_iff
                                       Hnd%bool_decide_eq_true].
      assert (Htxt : enc level (JObj ((k, x) :: ps)) ++ r
                     = 123%N :: newline_indent (S level)
                       ++ 34%N :: concat (map escape_char k) ++ 34%N :: py ": "
                       ++ enc (S level) x ++ obj_rest level ps ++ r).
      { rewrite enc_obj. unfold encode_basestring_ascii.
        repeat (rewrite <- ?app_assoc; cbn [app]). done. }
      rewrite Htxt.
      eapply reads_object.
      * rewrite skip_ws_indent. cbn [skip_ws]. reflexivity.
      * pose proof (reads_obj_members level r ps Hps Hsps k x [] Hx Hk Hsx)
          as Hread.
        cbn [app] in Hread. unfold dict_of_pairs in Hread.
        rewrite (dict_of_pairs_NoDup [] ((k, x) :: ps)) in Hread by done.
        exact Hread.
Qed.

(** ** What is written to the cache is read back *)

Lemma json_loads_dumps (v : json) :
  storable v = true -> json_loads (json_dumps v) = Some v.
Proof.
  intros Hst. change (json_dumps v) with (enc 0 v).
  destruct (reads_enc v Hst 0 [] eq_refl) as [N HN].
  specialize (HN N (le_n N)). rewrite app_nil_r in HN.
  pose proof (enc_starts 0 v [] Hst) as Hstart. rewrite app_nil_r in Hstart.
  destruct (scan_once_enough N) as (E & _ & _).
  destruct (E _ _ _ HN) as [_ Hm].
  specialize (Hm (S (length (enc 0 v))) ltac:(cbn [length]; lia)).
  assert (Hbody : match scan_once (S (length (enc 0 v))) (skip_ws (enc 0 v)) with
                  | Some (obj, rest) =>
                      match skip_ws rest with
                      | [] => Some obj
                      | _ :: _ => None
                      end
                  | None => None
                  end = Some v).
  { by rewrite (skip_ws_start _ Hstart), Hm. }
  unfold json_loads. destruct (enc 0 v) as [|c t]; [done|].
  destruct c as [|p]; [exact Hbody|].
  do 16 (try (destruct p as [p|p|]; try exact Hbody)).
Qed.

Lemma saved_facet_is_loaded_aux
    (facet : json) (sid : pystr) (c c' : cache_dir) :
  storable facet = true ->
  facet_session_id facet = Ok sid ->
  (forall f, c !! sid = Some f -> owner_readable f = true) ->
  save_facet facet c = Ok c' ->
  load_cached_facet c' sid = Some facet
  /\ forall k, k <> sid -> load_cached_facet c' k = load_cached_facet c k.
Proof.
  intros Hst Hsid Hread. unfold save_facet, save_facet_ops. rewrite Hsid.
  cbn [mbind result_bind fs_run].
  destruct (fs_step sid c OpenTrunc) as [c1|] eqn:Hopen;
    cbn [mbind result_bind]; [|discriminate].
  destruct (open_trunc_spec _ _ _ Hopen) as (Hnew & _ & Hother1).
  destruct (fs_run_writes sid (iterencode 0 facet) c1 _ Hnew)
    as (c2 & Hrun & Hlook & Hother2).
  rewrite Hrun. intros [= <-].
  pose proof (json_loads_dumps facet Hst) as Hload.
  split.
  - unfold load_cached_facet. rewrite Hlook. cbn [data mode app].
    fold (json_dumps facet). rewrite Hload.
    destruct (c !! sid) as [f|] eqn:Hf; [|done].
    unfold owner_readable in *. cbn [mode]. by rewrite (Hread f eq_refl).
  - intros k Hk. unfold load_cached_facet. by rewrite Hother2, Hother1.
Qed.

(** X10. A facet that [save_facet] has written in full is what
    [load_cached_facet] returns for its session, provided the facet holds
    no float, its strings and keys are plain text, the keys of each of
    its objects are distinct and it is within the limits of the runtime,
    and the entry, if it was there before, may be read by its owner.  No
    other entry reads differently. *)
Theorem saved_facet_is_loaded
    (facet : json) (sid : pystr) (c c' : cache_dir) :
  storable facet = true ->
  within_limits MAX_NESTING facet = true ->
  facet_session_id facet = Ok sid ->
  (forall f, c !! sid = Some f -> owner_readable f = true) ->
  save_facet facet c = Ok c' ->
  load_cached_facet c' sid = Some facet
  /\ json_loads (json_dumps facet) = Some facet
  /\ forall k, k <> sid -> load_cached_facet c' k = load_cached_facet c k.
Proof.
  intros Hst _ Hsid Hread Hsave.
  destruct (saved_facet_is_loaded_aux facet sid c c' Hst Hsid Hread Hsave)
    as [H1 H2].
  split; [exact H1|]. split; [by apply json_loads_dumps|exact H2].
Qed.

Lemma saved_facet_is_loaded_witness :
  match save_facet (sample_facet "fully_achieved") sample_cache with
  | Ok c' => load_cached_facet c' (py "0f3a9c2e")
  | Raised => None
  end = Some (sample_facet "fully_achieved").
Proof.
  destruct (save_facet (sample_facet "fully_achieved") sample_cache) as [c'|]
    eqn:Hsave; [|by vm_compute in Hsave].
  refine (proj1 (saved_facet_is_loaded (sample_facet "fully_achieved")
                   (py "0f3a9c2e") sample_cache c' eq_refl eq_refl eq_refl _
                   Hsave)).
  intros f Hf. vm_compute in Hf. by injection Hf as <-.
Defined.

(** ** From one run to the next *)

(** X11. A facet that extraction returns and that can be stored is, once the
    batch loop has collected it, both the session's facet of this run and
    the truthy entry that the scan of a later run finds in the cache for
    the session, so that run does not queue the session again. *)
Theorem extracted_facet_is_cached
    (client : request -> response) (msgs : list message) (sid : pystr)
    (m : metrics) (facet : json) (st : run_state) :
  snd (extract_facets client msgs sid m) = Ok (Some facet) ->
  storable facet = true ->
  within_limits MAX_NESTING facet = true ->
  (forall f, cache st !! sid = Some f ->
             owner_writable f = true /\ owner_readable f = true) ->
  let st' := after_collect st sid facet in
  collect (Running st) (sid, Ok (Some facet)) = Running st'
  /\ facets_map st' !! sid = Some facet
  /\ cache_hit (cache st') sid = Some facet
  /\ forall sc sc' sess,
       session_id sess = sid ->
       scan_session (cache st') sc sess = Ok sc' ->
       sessions_needing_facets sc' = sessions_needing_facets sc.
Proof.
  intros Hex Hst Hlim Hperm st'. subst st'. unfold after_collect.
  pose proof (extract_facets_tagged _ _ _ _ _ Hex) as Hsid.
  assert (Htruthy : truthy facet = true).
  { destruct facet as [| | | | | |d]; try done.
    destruct d; [|done]. by cbn in Hsid. }
  assert (exists c', save_facet facet (cache st) = Ok c') as [c' Hsave].
  { unfold save_facet, save_facet_ops. rewrite Hsid.
    cbn [mbind result_bind fs_run].
    assert (exists c1, fs_step sid (cache st) OpenTrunc = Ok c1) as [c1 Hopen].
    { unfold fs_step. destruct (cache st !! sid) as [f|] eqn:Hf; [|eauto].
      destruct (Hperm f eq_refl) as [-> _]. eauto. }
    rewrite Hopen. cbn [mbind result_bind].
    destruct (open_trunc_spec _ _ _ Hopen) as (Hnew & _ & _).
    destruct (fs_run_writes sid (iterencode 0 facet) c1 _ Hnew)
      as (c2 & Hrun & _). eauto. }
  destruct (saved_facet_is_loaded_aux facet sid (cache st) c' Hst Hsid
              (fun f Hf => proj2 (Hperm f Hf)) Hsave) as [Hload _].
  cbn [collect snd fst]. rewrite Htruthy, Hsave. cbn [state_of facets_map cache].
  assert (Hhit : cache_hit c' sid = Some facet).
  { unfold cache_hit. by rewrite Hload, Htruthy. }
  split; [done|]. split; [apply lookup_insert_eq|]. split; [exact Hhit|].
  intros sc sc' sess Hsess. unfold scan_session. rewrite Hsess.
  destruct (messages sess) as [|msg rest]; [by intros [= <-]|].
  destruct (is_insights_session _); [by intros [= <-]|].
  destruct (extract_session_metrics _ _ _) as [m'|];
    cbn [mbind result_bind]; [|discriminate].
  destruct (is_trivial m'); [by intros [= <-]|].
  fold (cache_hit c' sid). rewrite Hhit. by intros [= <-].
Qed.

Lemma extracted_facet_is_cached_witness :
  exists facet,
    snd (extract_facets schema_client (messages (sample_session "0f3a9c2e"))
                        (py "0f3a9c2e") (sample_metrics "0f3a9c2e"))
    = Ok (Some facet)
    /\ cache_hit
         (cache (after_collect {| facets_map := ∅; cache := ∅; calls := [] |}
                               (py "0f3a9c2e") facet))
         (py "0f3a9c2e")
       = Some facet.
Proof.
  eexists. split; [vm_compute; reflexivity|].
  refine (proj1 (proj2 (proj2
            (extracted_facet_is_cached
               schema_client (messages (sample_session "0f3a9c2e"))
               (py "0f3a9c2e") (sample_metrics "0f3a9c2e") _
               {| facets_map := ∅; cache := ∅; calls := [] |}
               _ _ _ _)))).
  - vm_compute; reflexivity.
  - vm_compute; reflexivity.
  - vm_compute; reflexivity.
  - intros f Hf. cbn [cache] in Hf. by rewrite lookup_empty in Hf.
Defined.

(** ** Loading a session file *)

Section LoaderFacts.

Variable loads : pystr -> decoded.

Lemma kept_cons (text : pystr) (lines : list (option pystr)) :
  omap (kept loads) (Some text :: lines)
  = match load_line loads text with
    | Keep obj => obj :: omap (kept loads) lines
    | _ => omap (kept loads) lines
    end.
Proof. cbn. by destruct (load_line loads text). Qed.

Lemma load_lines_acc (lines : list (option pystr)) (messages : list json) :
  load_lines loads lines messages = messages ++ load_lines loads lines [].
Proof.
  revert messages. induction lines as [|[line|] lines IH]; intros messages;
    cbn [load_lines]; try by rewrite app_nil_r.
  destruct (load_line loads line) as [obj| |]; try by rewrite app_nil_r.
  - rewrite (IH (messages ++ [obj])), (IH ([] ++ [obj])). by rewrite <- app_assoc.
  - apply IH.
Qed.

Lemma load_lines_passes (before : list (option pystr)) (rest : list (option pystr)) :
  Forall (passes loads) before ->
  load_lines loads (before ++ rest) []
  = omap (kept loads) before ++ load_lines loads rest [].
Proof.
  induction 1 as [|line before (text & -> & Hgo) Hall IH]; [done|].
  rewrite kept_cons. cbn [app load_lines].
  destruct (load_line loads text) as [obj| |]; [|exact IH|done].
  rewrite load_lines_acc, IH. done.
Qed.

(** X12. A line that is valid JSON but not an object (a number, a string, a
    list), or on which decoding fails with anything but a
    [JSONDecodeError], ends the loading: the records read before it are
    returned and every line after it is ignored, whatever it holds. *)
Theorem loading_stops_at_non_object
    (before after : list (option pystr)) (line : pystr) :
  Forall (passes loads) before ->
  load_line loads line = Stop ->
  load_session_messages loads (before ++ Some line :: after)
  = load_session_messages loads before
  /\ load_session_messages loads before = omap (kept loads) before.
Proof.
  intros Hall Hstop. unfold load_session_messages.
  rewrite load_lines_passes by done. cbn [load_lines]. rewrite Hstop.
  pose proof (load_lines_passes before [] Hall) as H0.
  rewrite app_nil_r in H0. rewrite H0. cbn [load_lines].
  by rewrite !app_nil_r.
Qed.

(** X13. Every record that is loaded is an object whose type is [user],
    [assistant] or [system], and the records come in the order of their
    lines: whatever the file holds, the code that reads the records can
    index their type. *)
Theorem loaded_records_are_typed (lines : list (option pystr)) :
  Forall (fun obj =>
            exists d t, obj = JObj d /\ dict_get (py "type") d = Some (JStr t)
                        /\ t ∈ RECORD_TYPES)
         (load_session_messages loads lines)
  /\ load_session_messages loads lines `sublist_of` omap (kept loads) lines.
Proof.
  unfold load_session_messages. induction lines as [|[line|] lines [IH1 IH2]];
    rewrite ?kept_cons; cbn [load_lines].
  - split; [constructor|done].
  - destruct (load_line loads line) as [obj| |] eqn:Hline.
    + rewrite load_lines_acc. cbn [app]. split.
      * constructor; [|exact IH1]. unfold load_line in Hline.
        destruct (strip line) as [|c rest]; [done|].
        destruct (loads (c :: rest)) as [o| |]; try done.
        destruct o as [| | | | | |d]; try done. cbn [is_record] in Hline.
        destruct (dict_get (py "type") d) as [[| | | |t| |]|] eqn:Ht; try done.
        case_bool_decide as Hin; [|done]. injection Hline as <-. eauto.
      * by apply sublist_skip.
    + done.
    + split; [constructor|apply sublist_nil_l].
  - split; [constructor|apply sublist_nil_l].
Qed.

End LoaderFacts.

Lemma loading_stops_at_non_object_witness :
  load_session_messages loads_line
    [Some (py "{`type`: `user`}
"); Some (py "123
"); Some (py "{`type`: `assistant`}
")]
  = [JObj [(py "type", JStr (py "user"))]].
Proof.
  destruct (loading_stops_at_non_object loads_line
              [Some (py "{`type`: `user`}
")] [Some (py "{`type`: `assistant`}
")] (py "123
")) as [H1 H2].
  - apply Forall_singleton. eexists. split; [reflexivity|]. by vm_compute.
  - by vm_compute.
  - exact (eq_trans H1 H2).
Defined.

(** ** Escaping *)

Lemma replace_char_app (c : N) (rep a b : pystr) :
  replace_char c rep (a ++ b) = replace_char c rep a ++ replace_char c rep b.
Proof. unfold replace_char. by rewrite map_app, concat_app. Qed.

Lemma replace_char_concat (c : N) (rep : pystr) (parts : list pystr) :
  replace_char c rep (concat parts) = concat (map (replace_char c rep) parts).
Proof.
  induction parts as [|p parts IH]; [done|].
  cbn [concat map]. by rewrite replace_char_app, IH.
Qed.

Lemma replaces_are_entities (s : pystr) :
  replace_char 39 (py "&#x27;")
    (replace_char 34 (py "&quot;")
       (replace_char 62 (py "&gt;")
          (replace_char 60 (py "&lt;")
             (replace_char 38 (py "&amp;") s))))
  = concat (map html_entity s).
Proof.
  unfold replace_char at 5. rewrite !replace_char_concat, !map_map.
  f_equal. apply map_ext. intros c. unfold html_entity, replace_char.
  destruct (c =? 38)%N eqn:E1; [reflexivity|].
  destruct (c =? 60)%N eqn:E2, (c =? 62)%N eqn:E3, (c =? 34)%N eqn:E4,
    (c =? 39)%N eqn:E5.
  all: repeat (cbn [map concat app];
               rewrite ?E1, ?E2, ?E3, ?E4, ?E5, ?app_nil_r).
  all: reflexivity.
Qed.

Lemma html_entity_inert (c : N) : forallb inert (html_entity c) = true.
Proof.
  unfold html_entity.
  destruct (c =? 38)%N eqn:E1; [reflexivity|].
  destruct (c =? 60)%N eqn:E2; [reflexivity|].
  destruct (c =? 62)%N eqn:E3; [reflexivity|].
  destruct (c =? 34)%N eqn:E4; [reflexivity|].
  destruct (c =? 39)%N eqn:E5; [reflexivity|].
  cbn [forallb inert]. unfold inert. by rewrite E2, E3, E4, E5.
Qed.

Lemma html_escape_concat (s : pystr) :
  html_escape s = concat (map html_entity s).
Proof. destruct s as [|c s]; [done|]. apply replaces_are_entities. Qed.

Lemma html_escape_inert (s : pystr) : forallb inert (html_escape s) = true.
Proof.
  rewrite html_escape_concat. induction s as [|c s IH]; [done|].
  cbn [map concat]. rewrite forallb_app, html_entity_inert. exact IH.
Qed.

(** X14. The five replacements of [html.escape] do not get in each other's
    way: every character of the text is replaced by its entity or kept,
    once, so the result holds no angle bracket and no quote, and an
    ampersand only where an entity starts. *)
Theorem html_escape_entities (s : pystr) :
  html_escape s = concat (map html_entity s)
  /\ forallb inert (html_escape s) = true
  /\ (length s <= length (html_escape s))%nat.
Proof.
  split; [apply html_escape_concat|]. split; [apply html_escape_inert|].
  rewrite html_escape_concat.
  - induction s as [|c s IH]; [done|].
    cbn [map concat length]. rewrite length_app.
    assert (1 <= length (html_entity c))%nat; [|lia].
    unfold html_entity.
    repeat match goal with
           | |- context [if ?b then _ else _] => destruct b
           end; cbn; lia.
Qed.

(** ** Bold spans *)

Lemma starts_with_split (pat s : pystr) :
  starts_with pat s = true -> s = pat ++ drop (length pat) s.
Proof.
  revert s. induction pat as [|p pat IH]; intros [|c s]; cbn [starts_with];
    try done.
  intros [->%N.eqb_eq H]%andb_true_iff. cbn [app length drop]. f_equal. by apply IH.
Qed.

Lemma bold_close_spec (s group g rest : pystr) :
  bold_close group s = Some (g, rest) ->
  exists g1, g = group ++ g1 /\ s = g1 ++ py "**" ++ rest /\ 10%N ∉ g1.
Proof.
  revert group. induction s as [|c s IH]; intros group; cbn [bold_close];
    [done|].
  destruct (starts_with (py "**") (c :: s)) eqn:Hstars.
  - intros [= <- <-]. exists []. rewrite app_nil_r. split; [done|].
    split; [|intros H; by apply elem_of_nil in H].
    apply (starts_with_split (py "**") (c :: s) Hstars).
  - destruct (c =? 10)%N eqn:Hnl; [done|]. intros (g1 & -> & -> & Hg1)%IH.
    exists (c :: g1). rewrite <- app_assoc. split; [done|]. split; [done|].
    apply N.eqb_neq in Hnl. intros [Heq|?]%elem_of_cons; [congruence|done].
Qed.

Lemma bold_match_spec (s g rest : pystr) :
  bold_match s = Some (g, rest) ->
  s = py "**" ++ g ++ py "**" ++ rest /\ g <> [] /\ 10%N ∉ g.
Proof.
  unfold bold_match. destruct s as [|a [|b [|c s]]]; try done.
  destruct (a =? 42)%N eqn:Ha; [|done]. destruct (b =? 42)%N eqn:Hb; [|done].
  destruct (c =? 10)%N eqn:Hc; [done|]. cbn [andb negb].
  intros (g1 & -> & -> & Hg1)%bold_close_spec.
  apply N.eqb_eq in Ha as ->. apply N.eqb_eq in Hb as ->. apply N.eqb_neq in Hc.
  split; [reflexivity|]. split; [done|].
  intros [Heq|?]%elem_of_cons; [congruence|done].
Qed.

Lemma sub_bold_pieces (fuel : nat) (s : pystr) :
  (length s <= fuel)%nat -> forallb inert s = true ->
  exists pieces,
    sub_bold fuel s = concat (map piece_html pieces)
    /\ concat (map piece_source pieces) = s
    /\ Forall piece_ok pieces.
Proof.
  revert s. induction fuel as [|fuel IH]; intros s Hlen Hs.
  - destruct s; [|cbn in Hlen; lia]. by exists [].
  - cbn [sub_bold]. destruct (bold_match s) as [[g rest]|] eqn:Hm.
    + apply bold_match_spec in Hm as (-> & Hg & Hnl).
      rewrite !forallb_app in Hs.
      apply andb_true_iff in Hs as [_ [Hg' [_ Hrest]%andb_true_iff]%andb_true_iff].
      destruct (IH rest) as (pieces & -> & Hsrc & Hok); [|done|].
      { rewrite !length_app in Hlen. cbn [length py] in Hlen. lia. }
      exists (Bold g :: pieces). cbn [map concat piece_html piece_source].
      rewrite <- !app_assoc, Hsrc. split; [done|]. split; [done|].
      constructor; done.
    + destruct s as [|c s]; [by exists []|].
      cbn [forallb] in Hs. apply andb_true_iff in Hs as [Hc Hs].
      destruct (IH s) as (pieces & -> & Hsrc & Hok); [cbn in Hlen; lia|done|].
      exists (Plain [c] :: pieces). cbn [map concat piece_html piece_source app].
      rewrite Hsrc. split; [done|]. split; [done|].
      constructor; [|done]. cbn. by rewrite Hc.
Qed.

(** X15. The text [md_bold_to_html] returns is the escaped text with some of
    its spans [**...**] turned into [<strong>...</strong>]: apart from
    these tags it holds no angle bracket and no quote, so the text it is
    given cannot open or close an element of its own.  A span is
    non-empty and stays on one line. *)
Theorem md_bold_only_adds_strong_tags (s : pystr) :
  exists pieces,
    md_bold_to_html s = concat (map piece_html pieces)
    /\ concat (map piece_source pieces) = html_escape s
    /\ Forall piece_ok pieces.
Proof.
  unfold md_bold_to_html. apply sub_bold_pieces; [done|].
  apply html_escape_inert.
Qed.

Example md_bold_sample :
  md_bold_to_html (py "use **<b>** & `**`")
  = py "use <strong>&lt;b&gt;</strong> &amp; &quot;**&quot;".
Proof. by vm_compute. Qed.

(** ** The tool uses of a session *)

Lemma Ok_pair_inj {A B} (a a' : A) (b b' : B) :
  Ok (a, b) = Ok (a', b') -> a = a' /\ b = b'.
Proof. by intros [= -> ->]. Qed.

Lemma line_count_nonneg (v : json) (n : Z) : line_count v = Ok n -> 0 <= n.
Proof.
  unfold line_count. destruct (truthy v); [|intros [= <-]; lia].
  destruct (count_newlines v) as [k|] eqn:Hk; cbn [mbind result_bind];
    [|discriminate].
  intros [= <-]. destruct v; cbn in Hk; try discriminate; injection Hk as <-; lia.
Qed.

Lemma count_tool_input_effect (name : pystr) (inp : list (pystr * json))
    (l l' : tool_locals) :
  count_tool_input name inp l = Ok l' ->
  tool_counts l' = tool_counts l
  /\ uses_task l' = uses_task l /\ uses_mcp l' = uses_mcp l
  /\ uses_web_search l' = uses_web_search l
  /\ uses_web_fetch l' = uses_web_fetch l
  /\ (exists written added removed,
        lines_added l' = lines_added l + written + added
        /\ lines_removed l' = lines_removed l + removed
        /\ 0 <= written /\ 0 <= added /\ 0 <= removed
        /\ (added = 0 \/ removed = 0)
        /\ (name <> py "Write" -> written = 0)
        /\ (name <> py "Edit" -> added = 0 /\ removed = 0))
  /\ git_commits l <= git_commits l' <= git_commits l + 1
  /\ git_pushes l <= git_pushes l' <= git_pushes l + 1
  /\ dict_total (languages l) <= dict_total (languages l')
     <= dict_total (languages l) + 1
  /\ (files_modified l' = files_modified l
      \/ (name = py "Edit" \/ name = py "Write")
         /\ exists path, files_modified l' = {[ path ]} ∪ files_modified l).
Proof.
  unfold count_tool_input.
  destruct (if truthy (input_get (py "file_path") inp) then _ else _)
    as [[langs files]|] eqn:Hfile; cbn [mbind result_bind]; [|discriminate].
  destruct (if pystr_eqb name (py "Write") then _ else _) as [written|] eqn:Hw;
    cbn [mbind result_bind]; [|discriminate].
  destruct (if pystr_eqb name (py "Edit") then _ else _) as [[added removed]|]
    eqn:He; cbn [mbind result_bind]; [|discriminate].
  destruct (mentions (py "git commit") _) as [commit|]; cbn [mbind result_bind];
    [|discriminate].
  destruct (mentions (py "git push") _) as [push|]; cbn [mbind result_bind];
    [|discriminate].
  intros [= <-]. cbn [tool_counts uses_task uses_mcp uses_web_search
                      uses_web_fetch lines_added lines_removed git_commits
                      git_pushes languages files_modified fst snd].
  do 5 (split; [reflexivity|]). split; [|split; [|split; [|split]]].
  - exists written, added, removed. do 2 (split; [reflexivity|]).
    assert (Hwritten : 0 <= written /\ (name <> py "Write" -> written = 0)).
    { destruct (pystr_eqb name (py "Write")) eqn:Hn.
      - split; [by eapply line_count_nonneg|].
        intros Hne. by apply pystr_eqb_eq in Hn.
      - injection Hw as <-. split; [lia|done]. }
    assert (Hedit : 0 <= added /\ 0 <= removed /\ (added = 0 \/ removed = 0)
                    /\ (name <> py "Edit" -> added = 0 /\ removed = 0)).
    { destruct (pystr_eqb name (py "Edit")) eqn:Hn.
      - destruct (line_count (input_get (py "old_string") inp)) as [o|];
          cbn [mbind result_bind] in He; [|discriminate].
        destruct (line_count (input_get (py "new_string") inp)) as [n|];
          cbn [mbind result_bind] in He; [|discriminate].
        injection He as <- <-. apply pystr_eqb_eq in Hn.
        split; [lia|]. split; [lia|]. split; [lia|done].
      - injection He as <- <-. split; [lia|]. split; [lia|]. split; [by left|done]. }
    tauto.
  - destruct commit; lia.
  - destruct push; lia.
  - destruct (truthy (input_get (py "file_path") inp));
      [|apply Ok_pair_inj in Hfile as [<- _]; lia].
    destruct (input_get (py "file_path") inp) as [| | | |path| |]; try discriminate.
    apply Ok_pair_inj in Hfile as [<- _].
    destruct (dict_get (str_lower (splitext_ext path)) LANG_MAP)
      as [[|c lang]|]; try lia.
    unfold dict_add. rewrite dict_total_set. lia.
  - destruct (truthy (input_get (py "file_path") inp));
      [|apply Ok_pair_inj in Hfile as [_ <-]; by left].
    destruct (input_get (py "file_path") inp) as [| | | |path| |]; try discriminate.
    apply Ok_pair_inj in Hfile as [_ <-].
    destruct (pystr_eqb name (py "Edit")) eqn:H1;
      [apply pystr_eqb_eq in H1; right; eauto|].
    destruct (pystr_eqb name (py "Write")) eqn:H2;
      [apply pystr_eqb_eq in H2; right; eauto|].
    by left.
Qed.

Lemma dict_set_key_elem {V} (k name : pystr) (v : V) (d : list (pystr * V)) :
  k ∈ (dict_set name v d).*1 <-> k ∈ d.*1 \/ k = name.
Proof.
  rewrite dict_set_keys. case_bool_decide as Hin.
  - split; [auto|]. by intros [?| ->].
  - rewrite elem_of_app, list_elem_of_singleton. done.
Qed.

Lemma count_of_add (k name : pystr) (d : list (pystr * Z)) :
  count_of k (dict_add name 1 d)
  = count_of k d + (if pystr_eqb name k then 1 else 0).
Proof.
  unfold count_of, dict_add. rewrite dict_get_set.
  destruct (pystr_eqb name k) eqn:E; cbn [from_option id]; [|lia].
  apply pystr_eqb_eq in E as ->. lia.
Qed.

Lemma size_add_path (path : pystr) (files : gset pystr) :
  (size ({[ path ]} ∪ files) <= S (size files))%nat.
Proof.
  rewrite size_union_alt, size_singleton.
  assert (Hsub : files ∖ {[ path ]} ⊆ files).
  { intros x Hx. by apply elem_of_difference in Hx as [? _]. }
  apply subseteq_size in Hsub. lia.
Qed.

Lemma count_tool_use_ok (d : list (pystr * json)) (n : Z) (l l' : tool_locals) :
  tools_ok n l -> count_tool_use d l = Ok l' -> tools_ok (n + 1) l'.
Proof.
  intros (Ht & Hv & Hnd & Htask & Hws & Hwf & Hmcp & Hla & Hlr & Hgc & Hgp
          & Hlang & Hfiles).
  unfold count_tool_use.
  destruct (default (JStr []) (dict_get (py "name") d)) as [| | | |name| |];
    try discriminate.
  set (l1 := {| tool_counts := dict_add name 1 (tool_counts l) |}).
  assert (Hpos : 0 <= count_of name (tool_counts l)).
  { unfold count_of. destruct (dict_get _ _) as [c|] eqn:Hc;
      cbn [from_option id]; [|lia].
    pose proof (dict_get_values _ _ _ _ Hv Hc) as Hc1. cbn beta in Hc1. lia. }
  assert (H1 : tools_ok (n + 1) l1
               /\ Z.of_nat (size (files_modified l))
                  + (if pystr_eqb name (py "Edit") || pystr_eqb name (py "Write")
                     then 1 else 0)
                  <= count_of (py "Edit") (tool_counts l1)
                     + count_of (py "Write") (tool_counts l1)).
  { unfold tools_ok. subst l1.
    cbn [tool_counts languages git_commits git_pushes uses_task uses_mcp
         uses_web_search uses_web_fetch lines_added lines_removed files_modified].
    rewrite !count_of_add. unfold dict_add at 1 2 3.
    rewrite dict_total_set. fold (count_of name (tool_counts l)).
    assert (Hflag : forall (flag : bool) k,
               (flag = true <-> k ∈ (tool_counts l).*1) ->
               flag || pystr_eqb name k = true
               <-> k ∈ (dict_add name 1 (tool_counts l)).*1).
    { intros flag k Hflag. unfold dict_add.
      rewrite dict_set_key_elem, orb_true_iff, pystr_eqb_eq, Hflag.
      split; intros [?|?]; auto. }
    assert (Hexcl : (if pystr_eqb name (py "Edit") || pystr_eqb name (py "Write")
                     then 1 else 0)
                    <= (if pystr_eqb name (py "Edit") then 1 else 0)
                       + (if pystr_eqb name (py "Write") then 1 else 0)).
    { destruct (pystr_eqb name (py "Edit")), (pystr_eqb name (py "Write"));
        cbn [orb]; lia. }
    split; [|lia].
    split; [lia|]. split; [apply dict_set_values; [lia|done]|].
    split.
    { unfold dict_add. rewrite dict_set_keys. case_bool_decide; [done|].
      apply NoDup_app. split; [done|]. split; [|apply NoDup_singleton].
      intros x Hx Heq%list_elem_of_singleton. congruence. }
    split; [by apply Hflag|]. split; [by apply Hflag|]. split; [by apply Hflag|].
    split.
    { unfold dict_add. rewrite dict_set_keys, orb_true_iff, Hmcp.
      case_bool_decide as Hin.
      - split; [|auto]. intros [?|Hn]; [done|].
        apply Exists_exists. eauto.
      - rewrite Exists_app, Exists_cons, Exists_nil. tauto. }
    repeat split; try lia.
    destruct (pystr_eqb name (py "Edit")), (pystr_eqb name (py "Write")); lia. }
  destruct H1 as [Hok1 Hfiles1].
  destruct (default (JObj []) (dict_get (py "input") d)) as [| | | | | |inp];
    try (by intros [= <-]).
  intros (Hc & H2 & H3 & H4 & H5 & Hlines & Hg1 & Hg2 & Hl & Hf)%count_tool_input_effect.
  destruct Hok1 as (Ht1 & Hv1 & Hnd1 & Htask1 & Hws1 & Hwf1 & Hmcp1 & Hla1 & Hlr1
                    & Hgc1 & Hgp1 & Hlang1 & _).
  destruct Hlines as (w & a & r & Ha & Hr & ? & ? & ? & _).
  unfold tools_ok. rewrite Hc, H2, H3, H4, H5.
  assert (Hg : git_commits l1 = git_commits l /\ git_pushes l1 = git_pushes l
               /\ lines_added l1 = lines_added l
               /\ lines_removed l1 = lines_removed l
               /\ languages l1 = languages l
               /\ files_modified l1 = files_modified l) by done.
  destruct Hg as (Eg1 & Eg2 & Ea & Er & El & Ef).
  rewrite Eg1, Eg2, Ea, Er, El, Ef in *.
  do 7 (split; [done|]). repeat split; try lia.
  destruct Hf as [->|[Hname [path ->]]].
  - destruct (pystr_eqb name (py "Edit") || pystr_eqb name (py "Write")); lia.
  - pose proof (size_add_path path (files_modified l)).
    assert (pystr_eqb name (py "Edit") || pystr_eqb name (py "Write") = true)
      as Hn.
    { apply orb_true_iff. rewrite !pystr_eqb_eq. done. }
    rewrite Hn in Hfiles1. lia.
Qed.

Lemma count_item_Raised (items : list json) :
  fold_left count_item items Raised = Raised.
Proof. induction items as [|item items IH]; [done|exact IH]. Qed.

Lemma count_tool_uses_ok (content : list json) (n : Z) (l l' : tool_locals) :
  tools_ok n l -> count_tool_uses content l = Ok l' ->
  tools_ok (n + Z.of_nat (length (omap tool_use_of content))) l'.
Proof.
  unfold count_tool_uses. revert n l.
  induction content as [|item content IH]; intros n l Hok; cbn [fold_left].
  - intros [= <-]. by rewrite Z.add_0_r.
  - cbn [omap list_omap]. unfold count_item at 2. cbn [mbind result_bind].
    destruct (tool_use_of item) as [d|]; [|by apply IH].
    destruct (count_tool_use d l) as [l1|] eqn:H1;
      [|by rewrite count_item_Raised].
    intros H. cbn [length]. replace (n + Z.of_nat (S _)) with
      (n + 1 + Z.of_nat (length (omap tool_use_of content))) by lia.
    eapply IH; [|exact H]. by eapply count_tool_use_ok.
Qed.

Lemma initial_tools_ok : tools_ok 0 initial_tool_locals.
Proof.
  unfold tools_ok. cbn.
  repeat split; try done; try lia; try constructor;
    try (intros H; by apply elem_of_nil in H);
    try (intros H; by apply Exists_nil in H).
Qed.

Lemma count_session_tools_ok (contents : list (list json)) (l : tool_locals) :
  count_session_tools contents = Ok l ->
  tools_ok (Z.of_nat (length (omap tool_use_of (concat contents)))) l.
Proof.
  unfold count_session_tools.
  assert (Hgen : forall n l0, tools_ok n l0 ->
             fold_left (fun r content => l ← r; count_tool_uses content l)
                       contents (Ok l0) = Ok l ->
             tools_ok (n + Z.of_nat (length (omap tool_use_of (concat contents))))
                      l).
  { induction contents as [|content contents IH]; intros n l0 Hok;
      cbn [fold_left concat].
    - intros [= <-]. by rewrite Z.add_0_r.
    - cbn [mbind result_bind]. rewrite omap_app, length_app, Nat2Z.inj_add.
      destruct (count_tool_uses content l0) as [l1|] eqn:H1.
      + intros H. rewrite Z.add_assoc. eapply IH; [|exact H].
        by eapply count_tool_uses_ok.
      + intros H. exfalso. clear -H.
        induction contents as [|c contents IH']; [done|]. by apply IH'. }
  intros H. apply (Hgen 0 _ initial_tools_ok H).
Qed.

Lemma key_iff_counted (k : pystr) (d : list (pystr * Z)) :
  Forall (fun c => 1 <= c) d.*2 ->
  k ∈ d.*1 <-> 1 <= count_of k d.
Proof.
  unfold count_of. induction d as [|[k' c] d IH]; cbn [dict_get].
  - intros _. cbn. split; [intros H; by apply elem_of_nil in H|lia].
  - rewrite !fmap_cons. cbn [fst snd]. intros [Hc Hd]%Forall_cons.
    rewrite elem_of_cons. unfold pystr_eqb. case_bool_decide as Hk.
    + cbn. split; [lia|auto].
    + rewrite (IH Hd). split; [by intros [?|?]|auto].
Qed.

(** X16. The feature flags of a session agree with its tool counts: a flag is
    set exactly when the tool it stands for, or for [uses_mcp] a tool
    whose name starts with [mcp__], has a count; every count is at least
    1 and the counts add up to the number of tool uses. *)
Theorem tool_flags_agree_with_counts
    (contents : list (list json)) (l : tool_locals) :
  count_session_tools contents = Ok l ->
  dict_total (tool_counts l)
  = Z.of_nat (length (omap tool_use_of (concat contents)))
  /\ (forall k c, (k, c) ∈ tool_counts l -> 1 <= c)
  /\ NoDup (tool_counts l).*1
  /\ (uses_task l = true <-> 1 <= count_of (py "Task") (tool_counts l))
  /\ (uses_web_search l = true
      <-> 1 <= count_of (py "WebSearch") (tool_counts l))
  /\ (uses_web_fetch l = true
      <-> 1 <= count_of (py "WebFetch") (tool_counts l))
  /\ (uses_mcp l = true
      <-> exists k c, (k, c) ∈ tool_counts l
                      /\ starts_with (py "mcp__") k = true).
Proof.
  intros (Ht & Hv & Hnd & Htask & Hws & Hwf & Hmcp & _)%count_session_tools_ok.
  split; [exact Ht|]. split; [|split; [exact Hnd|]].
  { intros k c Hin. rewrite Forall_forall in Hv. apply Hv.
    apply list_elem_of_fmap. by exists (k, c). }
  rewrite <- !key_iff_counted by done.
  split; [exact Htask|]. split; [exact Hws|]. split; [exact Hwf|].
  rewrite Hmcp, Exists_exists. split.
  - intros (k & [[k' c] [-> Hin]]%list_elem_of_fmap & Hk). eauto.
  - intros (k & c & Hin & Hk). exists k. split; [|done].
    apply list_elem_of_fmap. by exists (k, c).
Qed.

(** X17. The counters that the tool uses feed stay within what was counted:
    no line counter is negative, a tool use never adds to both of them,
    the commits, the pushes and the language counts do not exceed the
    number of tool uses, and there are at most as many modified files as
    uses of [Edit] and [Write]. *)
Theorem tool_counters_are_bounded
    (contents : list (list json)) (l : tool_locals) :
  count_session_tools contents = Ok l ->
  let n := Z.of_nat (length (omap tool_use_of (concat contents))) in
  0 <= lines_added l /\ 0 <= lines_removed l
  /\ 0 <= git_commits l <= n /\ 0 <= git_pushes l <= n
  /\ 0 <= dict_total (languages l) <= n
  /\ Z.of_nat (size (files_modified l))
     <= count_of (py "Edit") (tool_counts l) + count_of (py "Write") (tool_counts l)
  /\ forall d l0 l1,
       count_tool_use d l0 = Ok l1 ->
       lines_added l0 <= lines_added l1 /\ lines_removed l0 <= lines_removed l1
       /\ (lines_added l1 = lines_added l0 \/ lines_removed l1 = lines_removed l0).
Proof.
  intros (_ & _ & _ & _ & _ & _ & _ & Hla & Hlr & Hgc & Hgp & Hlang & Hfiles)
         %count_session_tools_ok n.
  do 6 (split; [done|]).
  intros d l0 l1. unfold count_tool_use.
  destruct (default (JStr []) (dict_get (py "name") d)) as [| | | |name| |];
    try discriminate.
  destruct (default (JObj []) (dict_get (py "input") d)) as [| | | | | |inp];
    try (intros [= <-]; cbn; split; [lia|split; [lia|by left]]).
  intros (_ & _ & _ & _ & _ & (w & a & r & Ha & Hr & ? & ? & ? & Hex & Hw & He)
          & _)%count_tool_input_effect.
  cbn [lines_added lines_removed] in Ha, Hr.
  split; [lia|]. split; [lia|].
  destruct (decide (name = py "Edit")) as [->|Hne].
  - rewrite (Hw ltac:(done)) in Ha. destruct Hex as [-> | ->]; [left|right]; lia.
  - destruct (He Hne) as [-> ->]. right. lia.
Qed.

(** ** The properties on sample inputs *)

Lemma tool_error_totals_witness :
  exists m,
    extract_session_metrics failing_messages (py "0f3a9c2e") (py "demo") = Ok m
    /\ sm_tool_errors m = 2
    /\ sm_tool_error_categories m = [(py "Command Failed", 1)]
    /\ dict_total (sm_tool_error_categories m) <= sm_tool_errors m.
Proof.
  eexists. split; [reflexivity|]. split; [reflexivity|]. split; [reflexivity|].
  exact (proj1 (tool_error_totals failing_messages (py "0f3a9c2e") (py "demo") _
                  eq_refl)).
Defined.

Lemma first_prompt_is_first_user_text_witness :
  sm_first_prompt (sample_metrics "0f3a9c2e") = py "fix the failing test".
Proof.
  exact (proj1 (proj2 (first_prompt_is_first_user_text
                         (messages (sample_session "0f3a9c2e")) (py "0f3a9c2e")
                         (py "demo") (sample_metrics "0f3a9c2e") eq_refl))).
Defined.

Lemma scan_splits_kept_sessions_witness :
  let sc := scan_of sample_cache
                    [sample_session "0f3a9c2e"; sample_session "deadbeef"] in
  cached_facets sc !! py "0f3a9c2e" = Some (sample_facet "not_achieved")
  /\ cached_facets sc !! py "deadbeef" = None.
Proof.
  intros sc.
  assert (Hscan : scan_sessions sample_cache empty_scan
                    [sample_session "0f3a9c2e"; sample_session "deadbeef"]
                  = Ok sc) by (vm_compute; reflexivity).
  assert (Hq : sessions_needing_facets sc
               = [(sample_session "deadbeef", sample_metrics "deadbeef")])
    by (vm_compute; reflexivity).
  split; [by vm_compute|].
  refine (proj2 (proj2 (proj2
            (proj1 (proj2 (scan_splits_kept_sessions _ _ _ Hscan))
                   (sample_session "deadbeef") (sample_metrics "deadbeef") _)))).
  rewrite Hq. apply list_elem_of_singleton. reflexivity.
Defined.

Lemma tool_flags_agree_with_counts_witness :
  let l := session_tools sample_contents in
  dict_total (tool_counts l) = 3
  /\ tool_counts l
     = [(py "Edit", 1); (py "Bash", 1); (py "mcp__github__create_pr", 1)]
  /\ uses_mcp l = true /\ uses_task l = false.
Proof.
  intros l.
  assert (H : count_session_tools sample_contents = Ok l)
    by (vm_compute; reflexivity).
  split; [exact (proj1 (tool_flags_agree_with_counts _ _ H))|].
  repeat split; by vm_compute.
Defined.

Lemma tool_counters_are_bounded_witness :
  let l := session_tools sample_contents in
  lines_added l = 1 /\ lines_removed l = 0 /\ git_commits l = 1
  /\ languages l = [(py "Python", 1)]
  /\ Z.of_nat (size (files_modified l))
     <= count_of (py "Edit") (tool_counts l) + count_of (py "Write") (tool_counts l).
Proof.
  intros l.
  assert (H : count_session_tools sample_contents = Ok l)
    by (vm_compute; reflexivity).
  do 4 (split; [by vm_compute|]).
  exact (proj1 (proj2 (proj2 (proj2 (proj2 (proj2
           (tool_counters_are_bounded _ _ H))))))).
Defined.
